(** * pyaedt EDB: multithreaded cutout and stackup editing

    A shallow embedding of

    - [Edb._create_cutout_multithread] (src/pyaedt/edb_grpc/edb.py) and
    - [Stackup] (src/pyaedt/edb_grpc/core/stackup.py): [add_layer],
      [remove_layer], [flip_design], [get_layout_thickness],
      [stackup_limits], [create_symmetric_stackup].

    Both files drive the Ansys EDB layout database.  What the database
    does (polygon booleans, the layer collection) is not part of the
    Python sources; the cutout takes the geometry engine as Section
    variables, the stackup works on a small documented model of the
    layer collection.  Real numbers (elevations, lengths in metres) are
    exact rationals: rounding of IEEE doubles is not modelled. *)

From Stdlib Require Import List String Ascii Bool Arith ZArith QArith Qround Qminmax.
From Stdlib Require Import DecimalString DecimalPos DecimalZ Sorted Lia Lqa.
Import ListNotations.

Local Close Scope Q_scope.
Local Open Scope string_scope.
Local Open Scope list_scope.

(** ** Shared helpers *)

(** Python's [x in l] on a list of strings. *)
Definition str_in (x : string) (l : list string) : bool :=
  existsb (String.eqb x) l.

Lemma str_in_true (x : string) (l : list string) :
  str_in x l = true <-> In x l.
Proof.
  unfold str_in. rewrite existsb_exists. split.
  - intros [y [Hy Heq]]. apply String.eqb_eq in Heq. now subst.
  - intros H. exists x. split; [assumption | apply String.eqb_refl].
Qed.

Lemma str_in_false (x : string) (l : list string) :
  str_in x l = false <-> ~ In x l.
Proof.
  rewrite <- str_in_true. destruct (str_in x l); split; intros; congruence.
Qed.

Lemma str_in_app (x : string) (l1 l2 : list string) :
  str_in x (l1 ++ l2) = str_in x l1 || str_in x l2.
Proof. unfold str_in. apply existsb_app. Qed.

(** The logging channel: messages are appended, never read back. *)
Inductive LogEntry : Type :=
| LogInfo (msg : string)
| LogError (msg : string)
| LogInfoCount (msg : string) (n : nat).

(** * Cutout engine (edb.py) *)

Module Cutout.

(** A padstack instance as the cutout reads it: its identity in the
    database and the name of its net. *)
Record PadstackInstance : Type := mkPinst {
  pinst_id : nat;
  pinst_net_name : string
}.

(** A component, with the identities of the pins that belong to it. *)
Record Component : Type := mkComponent {
  refdes : string;
  comp_pins : list nat
}.

(** [extent_type] of the cutout. *)
Inductive ExtentType : Type := Conforming | ConvexHull | Bounding.

Section Geometry.

(** [Geometry.PolygonData] of the database. *)
Variable PolygonData : Type.

(** A layout primitive.  [voids] are primitives themselves
    ([get_polygon_data(void)] is called on them). *)
#[warnings="-register-all"] Inductive Primitive : Type := mkPrim {
  prim_id : nat;
  net_name : string;
  layer_name : string;
  is_void : bool;
  polygon_data : PolygonData;
  voids : list Primitive
}.

(** [custom_extent]: absent, a Python list of points, or polygon data. *)
Inductive CustomExtent : Type :=
| NoExtent
| ExtentPoints (pts : list (Q * Q))
| ExtentPolygon (p : PolygonData).

(** The part of the layout the cutout touches. *)
Record Layout : Type := mkLayout {
  nets : list string;
  padstack_instances : list PadstackInstance;
  primitives : list Primitive;
  components : list Component;
  edbpath : option string;
  log : list LogEntry
}.

(** *** The geometry engine and the interpreter, as the code calls them *)

(** [this.GetIntersectionType(other)], an integer code. *)
Variable GetIntersectionType : PolygonData -> PolygonData -> Z.
(** [list(poly1.Intersect(poly2))]. *)
Variable Intersect : PolygonData -> PolygonData -> list PolygonData.
(** [poly.Subtract([poly], voids)]. *)
Variable Subtract : PolygonData -> list PolygonData -> list PolygonData.
Variable IsNull : PolygonData -> bool.
(** [pinst.in_polygon(_poly, simple_check=True)]. *)
Variable in_polygon : PadstackInstance -> PolygonData -> bool.
(** [shape_to_polygon_data(Shape("polygon", points=...))]. *)
Variable shape_to_polygon_data : list (Q * Q) -> option PolygonData.
(** [self._create_extent(net_signals, extent_type, expansion_size,
    use_round_corner, use_pyaedt_extent_computing)]: every branch of it
    is a call into the database, on the layout as it is then. *)
Variable _create_extent :
  Layout -> list string -> ExtentType -> Q -> bool -> bool -> option PolygonData.
(** [_poly.Defeature(extent_defeature)]. *)
Variable Defeature : PolygonData -> Q -> option PolygonData.
(** [pyaedt.generic.general_methods.is_ironpython]. *)
Variable is_ironpython : bool.

(** *** Arguments of the call *)

Record CutoutArgs : Type := mkArgs {
  signal_list : list string;
  reference_list : list string;
  extent_type : ExtentType;
  expansion_size : Q;
  use_round_corner : bool;
  number_of_threads : nat;
  custom_extent : CustomExtent;
  output_aedb_path : option string;
  remove_single_pin_components : bool;
  use_pyaedt_extent_computing : bool;
  extent_defeature : Q
}.

(** Truth value of [custom_extent] in [if custom_extent:]. *)
Definition extent_given (ce : CustomExtent) : bool :=
  match ce with
  | NoExtent => false
  | ExtentPoints [] => false
  | ExtentPoints (_ :: _) => true
  | ExtentPolygon _ => true
  end.

(** [reference_list] after lines 1570-1574. *)
Definition reference_nets (a : CutoutArgs) : list string :=
  if extent_given (custom_extent a)
  then reference_list a ++ signal_list a
  else reference_list a.

(** [all_list] after lines 1570-1574. *)
Definition all_list (a : CutoutArgs) : list string :=
  if extent_given (custom_extent a)
  then reference_nets a
  else signal_list a ++ reference_list a.

(** *** The layout store *)

Definition add_log (e : LogEntry) (st : Layout) : Layout :=
  mkLayout (nets st) (padstack_instances st) (primitives st)
           (components st) (edbpath st) (log st ++ [e]).

Definition save_edb_as (path : string) (st : Layout) : Layout :=
  mkLayout (nets st) (padstack_instances st) (primitives st)
           (components st) (Some path) (log st).

(** [pinst.delete()]: the instance leaves the layout. *)
Definition delete_pinst (p : PadstackInstance) (st : Layout) : Layout :=
  mkLayout (nets st)
           (filter (fun q => negb (pinst_id q =? pinst_id p)%nat)
                   (padstack_instances st))
           (primitives st) (components st) (edbpath st) (log st).

(** [prim.delete()]: the primitive leaves the layout. *)
Definition delete_prim (p : Primitive) (st : Layout) : Layout :=
  mkLayout (nets st) (padstack_instances st)
           (filter (fun q => negb (prim_id q =? prim_id p)%nat)
                   (primitives st))
           (components st) (edbpath st) (log st).

Definition fresh_id (st : Layout) : nat :=
  S (list_max (map prim_id (primitives st))).

(** Void primitives made from polygon data, numbered from [n]. *)
Fixpoint make_voids (n : nat) (net layer : string)
         (vs : list PolygonData) : list Primitive :=
  match vs with
  | [] => []
  | v :: vs' => mkPrim n net layer true v [] :: make_voids (S n) net layer vs'
  end.

(** Modelled from the spec: [core_primitives.create_polygon] lives in a
    file of the repository that is not among the sources ("create/delete
    primitives" of the opaque store).  It adds one polygon on [layer] and
    [net] with the given voids; the new objects get identities not in
    use. *)
Definition create_polygon (main : PolygonData) (layer net : string)
           (vs : list PolygonData) (st : Layout) : Layout :=
  let n := fresh_id st in
  let holes := make_voids (S n) net layer vs in
  mkLayout (nets st) (padstack_instances st)
           (primitives st ++ mkPrim n net layer false main holes :: holes)
           (components st) (edbpath st) (log st).

(** *** Lines 1575-1591: pruning by net *)

Definition net_clean_up (a : CutoutArgs) (st : Layout) : Layout :=
  mkLayout (filter (fun n => str_in n (all_list a)) (nets st))
           (filter (fun i => str_in (pinst_net_name i) (all_list a))
                   (padstack_instances st))
           (filter (fun i => str_in (net_name i) (all_list a))
                   (primitives st))
           (components st) (edbpath st) (log st).

Definition reference_pinsts (a : CutoutArgs) (st : Layout)
  : list PadstackInstance :=
  filter (fun i => str_in (pinst_net_name i) (all_list a)
                   && str_in (pinst_net_name i) (reference_nets a))
         (padstack_instances st).

Definition reference_prims (a : CutoutArgs) (st : Layout)
  : list Primitive :=
  filter (fun i => str_in (net_name i) (all_list a)
                   && (str_in (net_name i) (reference_nets a)
                       && negb (is_void i)))
         (primitives st).

(** *** Lines 1595-1608: the clip region *)

(** What the three branches leave in [_poly], or that they raised. *)
Inductive Extent : Type :=
| ExtentRaised
| ExtentValue (p : option PolygonData).

Definition clip_region (a : CutoutArgs) (st : Layout) : Extent :=
  match custom_extent a with
  | ExtentPoints (pt :: pts) => ExtentValue (shape_to_polygon_data (pt :: pts))
  | ExtentPolygon p => ExtentValue (Some p)
  | _ =>
      let net_signals :=
        filter (fun n => str_in n (signal_list a)) (nets st) in
      let _poly :=
        _create_extent st net_signals (extent_type a) (expansion_size a)
                       (use_round_corner a) (use_pyaedt_extent_computing a) in
      match extent_type a with
      | Conforming =>
          if Qlt_le_dec 0%Q (extent_defeature a)
          then match _poly with
               | Some p => ExtentValue (Defeature p (extent_defeature a))
               | None => ExtentRaised
               end
          else ExtentValue _poly
      | _ => ExtentValue _poly
      end
  end.

(** *** Lines 1616-1669: classification *)

Record PolyToCreate : Type := mkPoly {
  pc_poly : PolygonData;
  pc_layer : string;
  pc_net : string;
  pc_voids : list PolygonData
}.

(** The three lists the worker functions append to. *)
Record Acc : Type := mkAcc {
  prims_to_delete : list Primitive;
  poly_to_create : list PolyToCreate;
  pins_to_delete : list PadstackInstance
}.

Definition empty_acc : Acc := mkAcc [] [] [].

Definition get_polygon_data (prim : Primitive) : PolygonData :=
  polygon_data prim.

(** Lines 1645-1651: one void against the piece [p]; the pair is
    ([list_void], [void_to_subtract]). *)
Definition sort_void (p : PolygonData)
           (ls : list PolygonData * list PolygonData) (void : Primitive)
  : list PolygonData * list PolygonData :=
  let void_pdata := get_polygon_data void in
  let int_data2 := GetIntersectionType p void_pdata in
  if (2 <? int_data2)%Z || (int_data2 =? 1)%Z
  then (fst ls, snd ls ++ [void_pdata])
  else if (int_data2 =? 2)%Z
       then (fst ls ++ [void_pdata], snd ls)
       else ls.

(** Lines 1654-1659: the cleaned polygons of one piece. *)
Definition cleaned_polys (prim_1 : Primitive) (list_void : list PolygonData)
           (polys_cleans : list PolygonData) : list PolyToCreate :=
  flat_map
    (fun polys_clean =>
       if IsNull polys_clean then []
       else
         let void_to_append :=
           filter (fun v => (GetIntersectionType polys_clean v =? 2)%Z)
                  list_void in
         [mkPoly polys_clean (layer_name prim_1) (net_name prim_1)
                 void_to_append])
    polys_cleans.

(** Lines 1640-1663: what one piece [p] of the intersection appends to
    [poly_to_create]. *)
Definition clip_piece (prim_1 : Primitive) (p : PolygonData)
  : list PolyToCreate :=
  if IsNull p then []
  else
    match voids prim_1 with
    | [] => [mkPoly p (layer_name prim_1) (net_name prim_1) []]
    | _ :: _ =>
        let '(list_void, void_to_subtract) :=
          fold_left (sort_void p) (voids prim_1) ([], []) in
        match void_to_subtract with
        | _ :: _ =>
            cleaned_polys prim_1 list_void (Subtract p void_to_subtract)
        | [] => [mkPoly p (layer_name prim_1) (net_name prim_1) list_void]
        end
    end.

(** Lines 1629-1665. *)
Definition clean_prim (_poly : PolygonData) (acc : Acc) (prim_1 : Primitive)
  : Acc :=
  let pdata := get_polygon_data prim_1 in
  let int_data := GetIntersectionType _poly pdata in
  if (int_data =? 0)%Z then
    mkAcc (prims_to_delete acc ++ [prim_1]) (poly_to_create acc)
          (pins_to_delete acc)
  else if negb (int_data =? 2)%Z then
    let list_poly := Intersect _poly pdata in
    mkAcc (prims_to_delete acc ++ [prim_1])
          (poly_to_create acc ++ flat_map (clip_piece prim_1) list_poly)
          (pins_to_delete acc)
  else acc.

(** Lines 1667-1669. *)
Definition pins_clean (_poly : PolygonData) (acc : Acc)
           (pinst : PadstackInstance) : Acc :=
  if negb (in_polygon pinst _poly) then
    mkAcc (prims_to_delete acc) (poly_to_create acc)
          (pins_to_delete acc ++ [pinst])
  else acc.

(** [pool.map(f, items)] inside [with ThreadPoolExecutor(...)]: every
    item is handed to [f] and the block is left only when all calls are
    done.  The workers only append to the shared lists; the order of the
    appends across threads is taken to be the order of [items]. *)
Definition pool_map (f : Acc -> PadstackInstance -> Acc)
           (items : list PadstackInstance) (acc : Acc) : Acc :=
  fold_left f items acc.

Definition pool_map_prims (f : Acc -> Primitive -> Acc)
           (items : list Primitive) (acc : Acc) : Acc :=
  fold_left f items acc.

(** *** Lines 1691-1701: components *)

(** Modelled from the spec: [numpins] is a property of the component
    wrapper, which is not among the sources; it counts the pins of the
    component that are still in the layout. *)
Definition numpins (st : Layout) (c : Component) : nat :=
  List.length (filter (fun k => existsb (fun i => (pinst_id i =? k)%nat)
                                   (padstack_instances st))
                 (comp_pins c)).

Definition delete_empty_components (st : Layout) : Layout :=
  let kept := filter (fun c => negb (numpins st c =? 0)%nat) (components st) in
  add_log (LogInfoCount "Deleted {} additional components"
                        (List.length (components st) - List.length kept))
          (mkLayout (nets st) (padstack_instances st) (primitives st) kept
                    (edbpath st) (log st)).

(** Modelled from the spec: [delete_single_pin_rlc] is not among the
    sources ("optionally also delete any remaining single-pin components
    if requested"). *)
Definition delete_single_pin_rlc (st : Layout) : Layout :=
  mkLayout (nets st) (padstack_instances st) (primitives st)
           (filter (fun c => negb (numpins st c =? 1)%nat) (components st))
           (edbpath st) (log st).

(** *** Lines 1616-1705: what happens once the clip polygon is there *)

Definition apply_pin_deletions (acc : Acc) (st : Layout) : Layout :=
  fold_left (fun s pin => delete_pinst pin s) (pins_to_delete acc) st.

Definition apply_creations (acc : Acc) (st : Layout) : Layout :=
  fold_left (fun s el => create_polygon (pc_poly el) (pc_layer el)
                                        (pc_net el) (pc_voids el) s)
            (poly_to_create acc) st.

Definition apply_prim_deletions (acc : Acc) (st : Layout) : Layout :=
  fold_left (fun s prim => delete_prim prim s) (prims_to_delete acc) st.

Definition clip_layout (a : CutoutArgs) (_poly : PolygonData)
           (ref_pinsts : list PadstackInstance) (ref_prims : list Primitive)
           (st : Layout) : Layout :=
  let st := add_log (LogInfo "Expanded Net Polygon Creation") st in
  let acc := pool_map (pins_clean _poly) ref_pinsts empty_acc in
  let st := apply_pin_deletions acc st in
  let st := add_log (LogInfo "Padstack Instances removal completed") st in
  let acc := pool_map_prims (clean_prim _poly) ref_prims acc in
  let st := apply_creations acc st in
  let st := apply_prim_deletions acc st in
  let st := add_log (LogInfo "Primitives cleanup completed") st in
  let st := delete_empty_components st in
  let st :=
    if remove_single_pin_components a
    then add_log (LogInfo "Single Pins components deleted")
                 (delete_single_pin_rlc st)
    else st in
  add_log (LogInfo "Cutout completed.") st.

(** *** Lines 1545-1705 *)

(** Lines 1564-1593: the layout when the clip region is computed. *)
Definition pruned (a : CutoutArgs) (st : Layout) : Layout :=
  let st := match output_aedb_path a with
            | Some path => if (path =? "")%string then st
                           else save_edb_as path st
            | None => st
            end in
  let st := add_log (LogInfo "Cutout Multithread started.") st in
  add_log (LogInfo "Net clean up") (net_clean_up a st).

(** An exception that leaves the method is caught by the
    [pyaedt_function_handler] decorator, which makes the call return
    [False]. *)
Definition _create_cutout_multithread (a : CutoutArgs) (st : Layout)
  : bool * Layout :=
  if is_ironpython then
    (false, add_log (LogError "Method working only in Cpython") st)
  else
    let ref_pinsts := reference_pinsts a st in
    let ref_prims := reference_prims a st in
    let st := pruned a st in
    match clip_region a st with
    | ExtentRaised => (false, st)
    | ExtentValue None =>
        (false, add_log (LogError "Failed to create Extent.") st)
    | ExtentValue (Some _poly) =>
        if IsNull _poly then
          (false, add_log (LogError "Failed to create Extent.") st)
        else (true, clip_layout a _poly ref_pinsts ref_prims st)
    end.

(** *** Notions the properties are stated with *)

(** What [clean_prim] appends to [poly_to_create] for one primitive. *)
Definition pieces (_poly : PolygonData) (prim_1 : Primitive)
  : list PolyToCreate :=
  let int_data := GetIntersectionType _poly (get_polygon_data prim_1) in
  if (int_data =? 0)%Z then []
  else if negb (int_data =? 2)%Z
       then flat_map (clip_piece prim_1)
                     (Intersect _poly (get_polygon_data prim_1))
       else [].

(** Whether [clean_prim] appends the primitive to [prims_to_delete]. *)
Definition doomed (_poly : PolygonData) (prim_1 : Primitive) : bool :=
  negb (GetIntersectionType _poly (get_polygon_data prim_1) =? 2)%Z.

(** Lines 1645-1651 sort the voids of the primitive into two lists, each
    in the order of [voids]. *)
Definition to_subtract (p v : PolygonData) : bool :=
  (2 <? GetIntersectionType p v)%Z || (GetIntersectionType p v =? 1)%Z.

Definition contained (p v : PolygonData) : bool :=
  (GetIntersectionType p v =? 2)%Z.

Definition has_pin_id (l : list PadstackInstance) (q : PadstackInstance)
  : bool :=
  existsb (fun p => (pinst_id q =? pinst_id p)%nat) l.

Definition has_prim_id (l : list Primitive) (q : Primitive) : bool :=
  existsb (fun p => (prim_id q =? prim_id p)%nat) l.

(** A new primitive [q] carries what the entry [el] of [poly_to_create]
    asked for. *)
Definition created_from (el : PolyToCreate) (q : Primitive) : Prop :=
  is_void q = false /\
  polygon_data q = pc_poly el /\
  layer_name q = pc_layer el /\
  net_name q = pc_net el /\
  map polygon_data (voids q) = pc_voids el.

Definition max_id (l : list Primitive) : nat := list_max (map prim_id l).

(** The store after the creation loop and before the deletion loop. *)
Definition with_pieces (_poly : PolygonData) (rpr : list Primitive)
           (st : Layout) : Layout :=
  fold_left (fun s el => create_polygon (pc_poly el) (pc_layer el)
                                        (pc_net el) (pc_voids el) s)
            (flat_map (pieces _poly) rpr) st.

Definition after_clip (a : CutoutArgs) (_poly : PolygonData) (st : Layout)
  : Layout :=
  clip_layout a _poly (reference_pinsts a st) (reference_prims a st)
              (pruned a st).

(** The rule for voids as the specification words it: a void of the
    primitive that is fully contained in the kept piece is re-attached,
    every other void (fully or partially outside the piece) is
    subtracted. *)
Definition voids_sorted_in_two (prim_1 : Primitive) (p : PolygonData)
  : Prop :=
  let '(list_void, void_to_subtract) :=
    fold_left (sort_void p) (voids prim_1) ([], []) in
  forall v, In v (map get_polygon_data (voids prim_1)) ->
            if contained p v then In v list_void
            else In v void_to_subtract.

(** The polygon [c] is what lines 1640-1663 make of the piece [p] of
    [prim_1]: the piece itself when no void has to be subtracted, and
    otherwise a non-null result of subtracting from [p] the voids whose
    intersection type with [p] is 1 or above 2.  The voids attached are
    those of type 2 with [p] (and, after a subtraction, of type 2 with
    the cleaned polygon too).  Voids of type 0 with [p] are in neither
    list. *)
Definition clipped_from (prim_1 : Primitive) (p : PolygonData)
           (c : PolyToCreate) : Prop :=
  let void_pdata := map get_polygon_data (voids prim_1) in
  let void_to_subtract := filter (to_subtract p) void_pdata in
  let list_void := filter (contained p) void_pdata in
  IsNull p = false /\
  pc_layer c = layer_name prim_1 /\
  pc_net c = net_name prim_1 /\
  ((void_to_subtract = [] /\ pc_poly c = p /\ pc_voids c = list_void)
   \/ (void_to_subtract <> [] /\
       In (pc_poly c) (Subtract p void_to_subtract) /\
       IsNull (pc_poly c) = false /\
       pc_voids c = filter (contained (pc_poly c)) list_void)).

(** *** What the two worker functions leave in the lists *)

Lemma pins_clean_fold (_poly : PolygonData) (items : list PadstackInstance) :
  forall acc,
    pool_map (pins_clean _poly) items acc
    = mkAcc (prims_to_delete acc) (poly_to_create acc)
            (pins_to_delete acc
             ++ filter (fun i => negb (in_polygon i _poly)) items).
Proof.
  unfold pool_map.
  induction items as [|i items IH]; intros acc; simpl.
  - rewrite app_nil_r. now destruct acc.
  - rewrite IH. unfold pins_clean.
    destruct (negb (in_polygon i _poly)); simpl.
    + now rewrite <- app_assoc.
    + reflexivity.
Qed.

Lemma clean_prim_fold (_poly : PolygonData) (items : list Primitive) :
  forall acc,
    pool_map_prims (clean_prim _poly) items acc
    = mkAcc (prims_to_delete acc ++ filter (doomed _poly) items)
            (poly_to_create acc ++ flat_map (pieces _poly) items)
            (pins_to_delete acc).
Proof.
  unfold pool_map_prims.
  induction items as [|i items IH]; intros acc; simpl.
  - rewrite !app_nil_r. now destruct acc.
  - rewrite IH. unfold clean_prim, pieces, doomed.
    destruct (GetIntersectionType _poly (get_polygon_data i) =? 0)%Z eqn:E0.
    + apply Z.eqb_eq in E0. rewrite E0. simpl.
      now rewrite <- app_assoc.
    + destruct (GetIntersectionType _poly (get_polygon_data i) =? 2)%Z;
        simpl.
      * reflexivity.
      * now rewrite <- !app_assoc.
Qed.

Lemma contained_not_to_subtract (p v : PolygonData) :
  contained p v = true -> to_subtract p v = false.
Proof.
  unfold contained, to_subtract. intros H. apply Z.eqb_eq in H.
  rewrite H. reflexivity.
Qed.

Lemma sort_void_fold (p : PolygonData) (vs : list Primitive) :
  forall ls,
    fold_left (sort_void p) vs ls
    = (fst ls ++ filter (contained p) (map get_polygon_data vs),
       snd ls ++ filter (to_subtract p) (map get_polygon_data vs)).
Proof.
  induction vs as [|v vs IH]; intros [lv ts]; simpl.
  - now rewrite !app_nil_r.
  - rewrite IH. unfold sort_void, to_subtract, contained. simpl.
    destruct ((2 <? GetIntersectionType p (get_polygon_data v))%Z
              || (GetIntersectionType p (get_polygon_data v) =? 1)%Z) eqn:Es.
    + assert (Hc : (GetIntersectionType p (get_polygon_data v) =? 2)%Z = false).
      { apply Z.eqb_neq. intros Heq. rewrite Heq in Es. discriminate. }
      rewrite Hc. simpl. now rewrite <- app_assoc.
    + destruct (GetIntersectionType p (get_polygon_data v) =? 2)%Z; simpl.
      * now rewrite <- app_assoc.
      * reflexivity.
Qed.

(** The polygons made from one piece [p] of the intersection, said in
    terms of the two void lists. *)
Lemma clip_piece_spec (prim_1 : Primitive) (p : PolygonData)
      (c : PolyToCreate) :
  let void_pdata := map get_polygon_data (voids prim_1) in
  let void_to_subtract := filter (to_subtract p) void_pdata in
  let list_void := filter (contained p) void_pdata in
  In c (clip_piece prim_1 p) <->
  IsNull p = false /\
  pc_layer c = layer_name prim_1 /\
  pc_net c = net_name prim_1 /\
  ((void_to_subtract = [] /\ pc_poly c = p /\ pc_voids c = list_void)
   \/ (void_to_subtract <> [] /\
       In (pc_poly c) (Subtract p void_to_subtract) /\
       IsNull (pc_poly c) = false /\
       pc_voids c = filter (contained (pc_poly c)) list_void)).
Proof.
  cbv zeta. unfold clip_piece.
  destruct (IsNull p) eqn:En.
  { simpl. split; [tauto | intros [H _]; discriminate]. }
  destruct (voids prim_1) as [|v vs] eqn:Ev.
  - simpl. split.
    + intros [<- | []]. simpl. repeat split; auto.
    + intros (_ & Hl & Hn & [(_ & Hp & Hv) | (Hne & _)]).
      * left. destruct c; simpl in *; subst; reflexivity.
      * now elim Hne.
  - rewrite <- Ev. rewrite sort_void_fold. simpl fst. simpl snd.
    rewrite !app_nil_l.
    destruct (filter (to_subtract p) (map get_polygon_data (voids prim_1)))
      as [|s ss] eqn:Es.
    + simpl. split.
      * intros [<- | []]. simpl. repeat split; auto.
      * intros (_ & Hl & Hn & [(_ & Hp & Hv) | (Hne & _)]).
        -- left. destruct c; simpl in *; subst; reflexivity.
        -- now elim Hne.
    + unfold cleaned_polys. rewrite in_flat_map. split.
      * intros (pc & Hin & Hc).
        destruct (IsNull pc) eqn:Enp; [contradiction|].
        destruct Hc as [<- | []]. simpl.
        repeat split; auto. right. repeat split; auto. discriminate.
      * intros (_ & Hl & Hn & [(Hnil & _) | (_ & Hin & Hnn & Hv)]);
          [discriminate|].
        exists (pc_poly c). split; [assumption|].
        rewrite Hnn. left. destruct c; simpl in *; subst; reflexivity.
Qed.

(** *** What the serial loops do to the store *)

Lemma delete_pinst_fold (l : list PadstackInstance) :
  forall st,
    padstack_instances
      (fold_left (fun s pin => delete_pinst pin s) l st)
    = filter (fun q => negb (has_pin_id l q)) (padstack_instances st).
Proof.
  induction l as [|p l IH]; intros st; simpl.
  - induction (padstack_instances st) as [|q qs IHq]; simpl; congruence.
  - rewrite IH. simpl.
    induction (padstack_instances st) as [|q qs IHq]; simpl; [reflexivity|].
    destruct (pinst_id q =? pinst_id p)%nat; simpl; [assumption|].
    destruct (has_pin_id l q); simpl; congruence.
Qed.

Lemma delete_prim_fold (l : list Primitive) :
  forall st,
    primitives (fold_left (fun s prim => delete_prim prim s) l st)
    = filter (fun q => negb (has_prim_id l q)) (primitives st).
Proof.
  induction l as [|p l IH]; intros st; simpl.
  - induction (primitives st) as [|q qs IHq]; simpl; congruence.
  - rewrite IH. simpl.
    induction (primitives st) as [|q qs IHq]; simpl; [reflexivity|].
    destruct (prim_id q =? prim_id p)%nat; simpl; [assumption|].
    destruct (has_prim_id l q); simpl; congruence.
Qed.

Lemma delete_prim_fold_pins (l : list Primitive) :
  forall st,
    padstack_instances (fold_left (fun s prim => delete_prim prim s) l st)
    = padstack_instances st.
Proof. induction l as [|p l IH]; intros st; simpl; [|rewrite IH]; reflexivity. Qed.

Lemma delete_pinst_fold_prims (l : list PadstackInstance) :
  forall st,
    primitives (fold_left (fun s pin => delete_pinst pin s) l st)
    = primitives st.
Proof. induction l as [|p l IH]; intros st; simpl; [|rewrite IH]; reflexivity. Qed.

Lemma has_pin_id_In (l : list PadstackInstance) (q : PadstackInstance) :
  In q l -> has_pin_id l q = true.
Proof.
  intros H. apply existsb_exists. exists q. split; [assumption|].
  apply Nat.eqb_refl.
Qed.

Lemma has_prim_id_In (l : list Primitive) (q : Primitive) :
  In q l -> has_prim_id l q = true.
Proof.
  intros H. apply existsb_exists. exists q. split; [assumption|].
  apply Nat.eqb_refl.
Qed.

Lemma max_id_app (l1 l2 : list Primitive) :
  max_id (l1 ++ l2) = Nat.max (max_id l1) (max_id l2).
Proof. unfold max_id. rewrite map_app. apply list_max_app. Qed.

Lemma max_id_In (l : list Primitive) (q : Primitive) :
  In q l -> prim_id q <= max_id l.
Proof.
  intros H. unfold max_id.
  assert (Hle : list_max (map prim_id l) <= list_max (map prim_id l)) by lia.
  rewrite list_max_le in Hle. rewrite Forall_forall in Hle.
  apply Hle. now apply in_map.
Qed.

Lemma make_voids_spec (net layer : string) (vs : list PolygonData) :
  forall n,
    map polygon_data (make_voids n net layer vs) = vs /\
    forall h, In h (make_voids n net layer vs) ->
              is_void h = true /\ n <= prim_id h.
Proof.
  induction vs as [|v vs IH]; intros n; simpl.
  - split; [reflexivity | contradiction].
  - destruct (IH (S n)) as [Hm Hh]. split; [now rewrite Hm|].
    intros h [<- | Hin]; simpl; [split; [reflexivity | lia]|].
    destruct (Hh h Hin). split; [assumption | lia].
Qed.

Lemma create_polygon_fold (els : list PolyToCreate) :
  forall st,
    let st' :=
      fold_left (fun s el => create_polygon (pc_poly el) (pc_layer el)
                                            (pc_net el) (pc_voids el) s)
                els st in
    padstack_instances st' = padstack_instances st /\
    (forall q, In q (primitives st) -> In q (primitives st')) /\
    (forall el, In el els ->
                exists q, In q (primitives st') /\ created_from el q /\
                          max_id (primitives st) < prim_id q) /\
    (forall q, In q (primitives st') ->
               In q (primitives st) \/
               (max_id (primitives st) < prim_id q /\
                (is_void q = false ->
                 exists el, In el els /\ created_from el q))).
Proof.
  induction els as [|el els IH]; intros st; simpl.
  - repeat split; auto. intros el [].
  - specialize (IH (create_polygon (pc_poly el) (pc_layer el) (pc_net el)
                                   (pc_voids el) st)).
    cbv zeta in IH. destruct IH as (Hp & Hkeep & Hnew & Hall).
    set (st1 := create_polygon (pc_poly el) (pc_layer el) (pc_net el)
                               (pc_voids el) st) in *.
    assert (Hprims : primitives st1
                     = primitives st
                       ++ mkPrim (fresh_id st) (pc_net el) (pc_layer el)
                                 false (pc_poly el)
                                 (make_voids (S (fresh_id st)) (pc_net el)
                                             (pc_layer el) (pc_voids el))
                       :: make_voids (S (fresh_id st)) (pc_net el)
                                     (pc_layer el) (pc_voids el))
      by reflexivity.
    assert (Hmax : max_id (primitives st) <= max_id (primitives st1)).
    { rewrite Hprims, max_id_app. lia. }
    destruct (make_voids_spec (pc_net el) (pc_layer el) (pc_voids el)
                              (S (fresh_id st))) as [Hmv Hholes].
    split; [exact Hp|]. split; [|split].
    + intros q Hq. apply Hkeep. rewrite Hprims. apply in_or_app. now left.
    + intros el' [<- | Hin].
      * exists (mkPrim (fresh_id st) (pc_net el) (pc_layer el) false
                       (pc_poly el)
                       (make_voids (S (fresh_id st)) (pc_net el)
                                   (pc_layer el) (pc_voids el))).
        split; [|split].
        -- apply Hkeep. rewrite Hprims. apply in_or_app. right. now left.
        -- unfold created_from. simpl. repeat split; auto.
        -- simpl. unfold fresh_id, max_id. lia.
      * destruct (Hnew el' Hin) as (q & Hq & Hc & Hlt).
        exists q. split; [assumption | split; [assumption | lia]].
    + intros q Hq. destruct (Hall q Hq) as [Hold | [Hlt Hc]].
      * rewrite Hprims in Hold. apply in_app_or in Hold.
        destruct Hold as [Hold | [<- | Hhole]].
        -- now left.
        -- right. split; [simpl; unfold fresh_id, max_id; lia|].
           intros _. exists el. split; [now left|].
           unfold created_from. simpl. repeat split; auto.
        -- right. destruct (Hholes q Hhole) as [Hv Hid].
           split; [unfold fresh_id, max_id in *; lia|].
           intros Hnv. congruence.
      * right. split; [lia|]. intros Hnv.
        destruct (Hc Hnv) as (el' & Hin & Hcf). exists el'.
        split; [now right | assumption].
Qed.

(** *** The layout a successful cutout leaves *)

Lemma cutout_success (a : CutoutArgs) (st st' : Layout) :
  _create_cutout_multithread a st = (true, st') ->
  exists _poly,
    clip_region a (pruned a st) = ExtentValue (Some _poly) /\
    IsNull _poly = false /\
    st' = clip_layout a _poly (reference_pinsts a st) (reference_prims a st)
                      (pruned a st).
Proof.
  unfold _create_cutout_multithread.
  destruct is_ironpython; [discriminate|].
  destruct (clip_region a (pruned a st)) as [|[p|]]; try discriminate.
  destruct (IsNull p) eqn:En; [discriminate|].
  intros H. injection H as <-. exists p. auto.
Qed.

Lemma pruned_pins (a : CutoutArgs) (st : Layout) :
  padstack_instances (pruned a st)
  = filter (fun i => str_in (pinst_net_name i) (all_list a))
           (padstack_instances st).
Proof.
  unfold pruned. destruct (output_aedb_path a) as [path|]; [|reflexivity].
  destruct (path =? "")%string; reflexivity.
Qed.

Lemma pruned_prims (a : CutoutArgs) (st : Layout) :
  primitives (pruned a st)
  = filter (fun i => str_in (net_name i) (all_list a)) (primitives st).
Proof.
  unfold pruned. destruct (output_aedb_path a) as [path|]; [|reflexivity].
  destruct (path =? "")%string; reflexivity.
Qed.

Lemma pruned_nets (a : CutoutArgs) (st : Layout) :
  nets (pruned a st) = filter (fun n => str_in n (all_list a)) (nets st).
Proof.
  unfold pruned. destruct (output_aedb_path a) as [path|]; [|reflexivity].
  destruct (path =? "")%string; reflexivity.
Qed.

Lemma clip_layout_pins (a : CutoutArgs) (_poly : PolygonData)
      (rp : list PadstackInstance) (rpr : list Primitive) (st : Layout) :
  padstack_instances (clip_layout a _poly rp rpr st)
  = filter (fun q => negb (has_pin_id
                             (filter (fun i => negb (in_polygon i _poly)) rp)
                             q))
           (padstack_instances st).
Proof.
  unfold clip_layout. rewrite pins_clean_fold, clean_prim_fold.
  assert (Htail : forall s,
             padstack_instances
               (add_log (LogInfo "Cutout completed.")
                  (if remove_single_pin_components a
                   then add_log (LogInfo "Single Pins components deleted")
                          (delete_single_pin_rlc (delete_empty_components s))
                   else delete_empty_components s))
             = padstack_instances s).
  { intros s. destruct (remove_single_pin_components a); reflexivity. }
  rewrite Htail. simpl padstack_instances.
  unfold apply_prim_deletions, apply_creations, apply_pin_deletions. simpl.
  rewrite delete_prim_fold_pins.
  match goal with
  | |- padstack_instances (fold_left _ ?els ?s) = _ =>
      destruct (create_polygon_fold els s) as [Hp _]
  end.
  cbv zeta in Hp. rewrite Hp. simpl.
  now rewrite delete_pinst_fold.
Qed.

Lemma clip_layout_prims (a : CutoutArgs) (_poly : PolygonData)
      (rp : list PadstackInstance) (rpr : list Primitive) (st : Layout) :
  exists st0,
    primitives st0 = primitives st /\
    primitives (clip_layout a _poly rp rpr st)
    = filter (fun q => negb (has_prim_id (filter (doomed _poly) rpr) q))
             (primitives (with_pieces _poly rpr st0)).
Proof.
  unfold clip_layout. rewrite pins_clean_fold, clean_prim_fold.
  assert (Htail : forall s,
             primitives
               (add_log (LogInfo "Cutout completed.")
                  (if remove_single_pin_components a
                   then add_log (LogInfo "Single Pins components deleted")
                          (delete_single_pin_rlc (delete_empty_components s))
                   else delete_empty_components s))
             = primitives s).
  { intros s. destruct (remove_single_pin_components a); reflexivity. }
  rewrite Htail. simpl primitives.
  unfold apply_prim_deletions, apply_creations. simpl.
  rewrite delete_prim_fold.
  eexists. split; [|reflexivity].
  simpl. unfold apply_pin_deletions. now rewrite delete_pinst_fold_prims.
Qed.

Lemma has_prim_id_bound (l : list Primitive) (n : nat) (q : Primitive) :
  (forall d, In d l -> prim_id d <= n) -> n < prim_id q ->
  has_prim_id l q = false.
Proof.
  intros Hb Hlt. unfold has_prim_id.
  destruct (existsb _ l) eqn:E; [|reflexivity].
  apply existsb_exists in E. destruct E as (d & Hd & He).
  apply Nat.eqb_eq in He. specialize (Hb d Hd). lia.
Qed.

(** Every primitive of the layout after the clip is an old one that was
    not put on [prims_to_delete], or a new one. *)
Lemma clip_layout_prim_inv (a : CutoutArgs) (_poly : PolygonData)
      (rp : list PadstackInstance) (rpr : list Primitive) (st : Layout)
      (q : Primitive) :
  In q (primitives (clip_layout a _poly rp rpr st)) ->
  has_prim_id (filter (doomed _poly) rpr) q = false /\
  (In q (primitives st) \/
   (is_void q = false ->
    exists el, In el (flat_map (pieces _poly) rpr) /\ created_from el q)).
Proof.
  destruct (clip_layout_prims a _poly rp rpr st) as (st0 & H0 & ->).
  rewrite filter_In, negb_true_iff. intros [Hin Hid].
  split; [assumption|].
  unfold with_pieces in Hin.
  destruct (create_polygon_fold (flat_map (pieces _poly) rpr) st0)
    as (_ & _ & _ & Hall).
  destruct (Hall q Hin) as [Hold | [_ Hnew]].
  - left. now rewrite <- H0.
  - now right.
Qed.

Lemma clip_layout_prim_kept (a : CutoutArgs) (_poly : PolygonData)
      (rp : list PadstackInstance) (rpr : list Primitive) (st : Layout)
      (q : Primitive) :
  In q (primitives st) ->
  has_prim_id (filter (doomed _poly) rpr) q = false ->
  In q (primitives (clip_layout a _poly rp rpr st)).
Proof.
  intros Hin Hid.
  destruct (clip_layout_prims a _poly rp rpr st) as (st0 & H0 & ->).
  rewrite filter_In, negb_true_iff. split; [|assumption].
  destruct (create_polygon_fold (flat_map (pieces _poly) rpr) st0)
    as (_ & Hkeep & _ & _).
  apply Hkeep. now rewrite H0.
Qed.

Lemma clip_layout_prim_new (a : CutoutArgs) (_poly : PolygonData)
      (rp : list PadstackInstance) (rpr : list Primitive) (st : Layout)
      (el : PolyToCreate) :
  (forall d, In d rpr -> In d (primitives st)) ->
  In el (flat_map (pieces _poly) rpr) ->
  exists q, In q (primitives (clip_layout a _poly rp rpr st)) /\
            created_from el q /\
            forall d, In d (primitives st) -> prim_id d < prim_id q.
Proof.
  intros Hsub Hel.
  destruct (clip_layout_prims a _poly rp rpr st) as (st0 & H0 & ->).
  destruct (create_polygon_fold (flat_map (pieces _poly) rpr) st0)
    as (_ & _ & Hnew & _).
  destruct (Hnew el Hel) as (q & Hq & Hc & Hlt).
  exists q. split; [|split; [assumption|]].
  - rewrite filter_In, negb_true_iff. split; [assumption|].
    apply has_prim_id_bound with (n := max_id (primitives st0));
      [|assumption].
    intros d Hd. apply filter_In in Hd. destruct Hd as [Hd _].
    apply max_id_In. rewrite H0. now apply Hsub.
  - intros d Hin. rewrite <- H0 in Hin. apply max_id_In in Hin. lia.
Qed.

Lemma reference_prims_In (a : CutoutArgs) (st : Layout) (q : Primitive) :
  In q (reference_prims a st) <->
  In q (primitives st) /\ str_in (net_name q) (all_list a) = true /\
  str_in (net_name q) (reference_nets a) = true /\ is_void q = false.
Proof.
  unfold reference_prims. rewrite filter_In, !andb_true_iff, negb_true_iff.
  tauto.
Qed.

Lemma reference_pinsts_In (a : CutoutArgs) (st : Layout)
      (q : PadstackInstance) :
  In q (reference_pinsts a st) <->
  In q (padstack_instances st) /\
  str_in (pinst_net_name q) (all_list a) = true /\
  str_in (pinst_net_name q) (reference_nets a) = true.
Proof.
  unfold reference_pinsts. rewrite filter_In, !andb_true_iff. tauto.
Qed.

(** A net of the reference list is a net of [all_list]. *)
Lemma reference_in_all (a : CutoutArgs) (n : string) :
  str_in n (reference_nets a) = true -> str_in n (all_list a) = true.
Proof.
  unfold all_list, reference_nets.
  destruct (extent_given (custom_extent a)); [tauto|].
  rewrite str_in_app. intros ->. apply orb_true_r.
Qed.

Lemma reference_prims_pruned (a : CutoutArgs) (st : Layout) (d : Primitive) :
  In d (reference_prims a st) -> In d (primitives (pruned a st)).
Proof.
  rewrite reference_prims_In, pruned_prims, filter_In. tauto.
Qed.

(** *** Survivors of the two deletion loops *)

Lemma NoDup_map_eq {A B : Type} (f : A -> B) (l : list A) (x y : A) :
  NoDup (map f l) -> In x l -> In y l -> f x = f y -> x = y.
Proof.
  induction l as [|z l IH]; simpl; [contradiction|].
  intros Hnd Hx Hy Hf. inversion Hnd as [|? ? Hnot Hnd']; subst.
  destruct Hx as [-> | Hx], Hy as [-> | Hy]; auto.
  - elim Hnot. rewrite Hf. now apply in_map.
  - elim Hnot. rewrite <- Hf. now apply in_map.
Qed.

Lemma surviving_pin (a : CutoutArgs) (_poly : PolygonData) (st : Layout)
      (q : PadstackInstance) :
  In q (padstack_instances (after_clip a _poly st)) <->
  In q (padstack_instances st) /\
  str_in (pinst_net_name q) (all_list a) = true /\
  has_pin_id (filter (fun i => negb (in_polygon i _poly))
                     (reference_pinsts a st)) q = false.
Proof.
  unfold after_clip. rewrite clip_layout_pins, pruned_pins.
  rewrite !filter_In, negb_true_iff. tauto.
Qed.

Lemma surviving_reference_pin (a : CutoutArgs) (_poly : PolygonData)
      (st : Layout) (q : PadstackInstance) :
  In q (padstack_instances (after_clip a _poly st)) ->
  str_in (pinst_net_name q) (reference_nets a) = true ->
  in_polygon q _poly = true.
Proof.
  rewrite surviving_pin. intros (Hin & Hall & Hid) Href.
  destruct (in_polygon q _poly) eqn:E; [reflexivity|].
  rewrite has_pin_id_In in Hid; [discriminate|].
  apply filter_In. split; [|now rewrite E].
  apply reference_pinsts_In. auto.
Qed.

Lemma outside_pin_removed (a : CutoutArgs) (_poly : PolygonData)
      (st : Layout) (pin q : PadstackInstance) :
  In pin (padstack_instances st) ->
  str_in (pinst_net_name pin) (reference_nets a) = true ->
  in_polygon pin _poly = false ->
  In q (padstack_instances (after_clip a _poly st)) ->
  pinst_id q <> pinst_id pin.
Proof.
  intros Hin Href Hout Hq Heq. apply surviving_pin in Hq.
  destruct Hq as (_ & _ & Hid).
  assert (Hex : has_pin_id (filter (fun i => negb (in_polygon i _poly))
                                   (reference_pinsts a st)) q = true).
  { apply existsb_exists. exists pin. split.
    - apply filter_In. split; [|now rewrite Hout].
      apply reference_pinsts_In. auto using reference_in_all.
    - now apply Nat.eqb_eq. }
  congruence.
Qed.

Lemma unclassified_pin_kept (a : CutoutArgs) (_poly : PolygonData)
      (st : Layout) (pin : PadstackInstance) :
  NoDup (map pinst_id (padstack_instances st)) ->
  In pin (padstack_instances st) ->
  str_in (pinst_net_name pin) (all_list a) = true ->
  (str_in (pinst_net_name pin) (reference_nets a) = true ->
   in_polygon pin _poly = true) ->
  In pin (padstack_instances (after_clip a _poly st)).
Proof.
  intros Hnd Hin Hall Hok. apply surviving_pin. repeat split; auto.
  destruct (has_pin_id _ pin) eqn:E; [|reflexivity].
  apply existsb_exists in E. destruct E as (d & Hd & He).
  apply Nat.eqb_eq in He. apply filter_In in Hd. destruct Hd as [Hd Hout].
  apply reference_pinsts_In in Hd. destruct Hd as (Hd & _ & Href).
  assert (pin = d) by (eapply NoDup_map_eq; eauto). subst d.
  rewrite (Hok Href) in Hout. discriminate.
Qed.

Lemma doomed_prim_removed (a : CutoutArgs) (_poly : PolygonData)
      (st : Layout) (prim q : Primitive) :
  In prim (primitives st) ->
  str_in (net_name prim) (reference_nets a) = true ->
  is_void prim = false ->
  GetIntersectionType _poly (polygon_data prim) <> 2%Z ->
  In q (primitives (after_clip a _poly st)) ->
  prim_id q <> prim_id prim.
Proof.
  intros Hin Href Hv Ht Hq Heq. apply clip_layout_prim_inv in Hq.
  destruct Hq as [Hid _].
  assert (Hex : has_prim_id (filter (doomed _poly) (reference_prims a st)) q
                = true).
  { apply existsb_exists. exists prim. split.
    - apply filter_In. split.
      + apply reference_prims_In. auto using reference_in_all.
      + unfold doomed, get_polygon_data. now apply negb_true_iff, Z.eqb_neq.
    - now apply Nat.eqb_eq. }
  congruence.
Qed.

Lemma spared_prim_kept (a : CutoutArgs) (_poly : PolygonData)
      (st : Layout) (prim : Primitive) :
  NoDup (map prim_id (primitives st)) ->
  In prim (primitives st) ->
  str_in (net_name prim) (all_list a) = true ->
  (In prim (reference_prims a st) ->
   GetIntersectionType _poly (polygon_data prim) = 2%Z) ->
  In prim (primitives (after_clip a _poly st)).
Proof.
  intros Hnd Hin Hall Hok. apply clip_layout_prim_kept.
  - rewrite pruned_prims, filter_In. auto.
  - destruct (has_prim_id _ prim) eqn:E; [|reflexivity].
    apply existsb_exists in E. destruct E as (d & Hd & He).
    apply Nat.eqb_eq in He. apply filter_In in Hd. destruct Hd as [Hd Hdoom].
    assert (Hd' := Hd). apply reference_prims_In in Hd'.
    destruct Hd' as (Hd' & _).
    assert (prim = d) by (eapply NoDup_map_eq; eauto). subst d.
    unfold doomed, get_polygon_data in Hdoom. rewrite (Hok Hd) in Hdoom.
    discriminate.
Qed.

Lemma surviving_prim_origin (a : CutoutArgs) (_poly : PolygonData)
      (st : Layout) (q : Primitive) :
  In q (primitives (after_clip a _poly st)) ->
  str_in (net_name q) (reference_nets a) = true ->
  is_void q = false ->
  (In q (primitives st) /\
   GetIntersectionType _poly (polygon_data q) = 2%Z)
  \/ (exists el, In el (flat_map (pieces _poly) (reference_prims a st)) /\
                 created_from el q).
Proof.
  intros Hq Href Hv.
  destruct (clip_layout_prim_inv _ _ _ _ _ _ Hq) as [Hid [Hold | Hnew]].
  - left. rewrite pruned_prims, filter_In in Hold.
    destruct Hold as [Hin Hall]. split; [assumption|].
    destruct (GetIntersectionType _poly (polygon_data q) =? 2)%Z eqn:E;
      [now apply Z.eqb_eq|].
    rewrite has_prim_id_In in Hid; [discriminate|].
    apply filter_In. split.
    + apply reference_prims_In. auto.
    + unfold doomed, get_polygon_data. now rewrite E.
  - right. auto.
Qed.

Lemma piece_created (a : CutoutArgs) (_poly : PolygonData) (st : Layout)
      (prim : Primitive) (p : PolygonData) (c : PolyToCreate) :
  In prim (primitives st) ->
  str_in (net_name prim) (reference_nets a) = true ->
  is_void prim = false ->
  GetIntersectionType _poly (polygon_data prim) <> 0%Z ->
  GetIntersectionType _poly (polygon_data prim) <> 2%Z ->
  In p (Intersect _poly (polygon_data prim)) ->
  In c (clip_piece prim p) ->
  exists q, In q (primitives (after_clip a _poly st)) /\
            created_from c q /\ prim_id prim < prim_id q.
Proof.
  intros Hin Href Hv H0 H2 Hp Hc.
  assert (Hrp : In prim (reference_prims a st)).
  { apply reference_prims_In. auto using reference_in_all. }
  destruct (clip_layout_prim_new a _poly (reference_pinsts a st)
              (reference_prims a st) (pruned a st) c) as (q & Hq & Hcf & Hnew).
  - apply reference_prims_pruned.
  - apply in_flat_map. exists prim. split; [assumption|].
    unfold pieces, get_polygon_data.
    apply Z.eqb_neq in H0. apply Z.eqb_neq in H2. rewrite H0, H2. simpl.
    apply in_flat_map. exists p. auto.
  - exists q. split; [assumption | split; [assumption|]].
    apply Hnew. now apply reference_prims_pruned.
Qed.

(** Where an entry of [poly_to_create] comes from. *)
Lemma pieces_origin (a : CutoutArgs) (_poly : PolygonData) (st : Layout)
      (el : PolyToCreate) :
  In el (flat_map (pieces _poly) (reference_prims a st)) ->
  exists prim p,
    In prim (primitives st) /\
    str_in (net_name prim) (reference_nets a) = true /\
    is_void prim = false /\
    GetIntersectionType _poly (polygon_data prim) <> 0%Z /\
    GetIntersectionType _poly (polygon_data prim) <> 2%Z /\
    In p (Intersect _poly (polygon_data prim)) /\
    In el (clip_piece prim p).
Proof.
  rewrite in_flat_map. intros (prim & Hrp & Hel).
  apply reference_prims_In in Hrp. destruct Hrp as (Hin & _ & Href & Hv).
  unfold pieces, get_polygon_data in Hel.
  destruct (GetIntersectionType _poly (polygon_data prim) =? 0)%Z eqn:E0;
    [contradiction|].
  destruct (GetIntersectionType _poly (polygon_data prim) =? 2)%Z eqn:E2;
    [contradiction|].
  simpl in Hel. apply in_flat_map in Hel. destruct Hel as (p & Hp & Hc).
  apply Z.eqb_neq in E0. apply Z.eqb_neq in E2.
  exists prim, p. auto 10.
Qed.

(** *** The claims about the cutout *)





(** *** Further properties of the cutout *)

Lemma all_list_In (a : CutoutArgs) (n : string) :
  str_in n (all_list a) = true <-> In n (signal_list a ++ reference_list a).
Proof.
  rewrite str_in_true. unfold all_list, reference_nets.
  destruct (extent_given (custom_extent a)); [|tauto].
  rewrite !in_app_iff. tauto.
Qed.

Lemma make_voids_net (net layer : string) (vs : list PolygonData) :
  forall n h, In h (make_voids n net layer vs) -> net_name h = net.
Proof.
  induction vs as [|v vs IH]; intros n h; simpl; [contradiction|].
  intros [<- | Hin]; [reflexivity | eauto].
Qed.

(** Every primitive the creation loop adds, polygon or void, is on the
    net of an entry of [poly_to_create]. *)
Lemma create_polygon_fold_nets (els : list PolyToCreate) :
  forall st q,
    In q (primitives
            (fold_left (fun s el => create_polygon (pc_poly el) (pc_layer el)
                                                   (pc_net el) (pc_voids el) s)
                       els st)) ->
    In q (primitives st) \/ exists el, In el els /\ net_name q = pc_net el.
Proof.
  induction els as [|el els IH]; intros st q; simpl; [auto|].
  intros Hq. destruct (IH _ _ Hq) as [Hold | (el' & Hin & Hn)].
  - unfold create_polygon in Hold. simpl in Hold.
    apply in_app_or in Hold. destruct Hold as [Hold | [<- | Hhole]].
    + now left.
    + right. exists el. auto.
    + right. exists el. split; [now left|].
      eapply make_voids_net; eassumption.
  - right. exists el'. auto.
Qed.

Lemma create_polygon_fold_rest (els : list PolyToCreate) :
  forall st,
    let st' :=
      fold_left (fun s el => create_polygon (pc_poly el) (pc_layer el)
                                            (pc_net el) (pc_voids el) s)
                els st in
    nets st' = nets st /\ edbpath st' = edbpath st.
Proof.
  induction els as [|el els IH]; intros st; simpl; [auto|].
  specialize (IH (create_polygon (pc_poly el) (pc_layer el) (pc_net el)
                                 (pc_voids el) st)).
  cbv zeta in IH. destruct IH as [-> ->]. auto.
Qed.

Lemma delete_pinst_fold_rest (l : list PadstackInstance) :
  forall st,
    let st' := fold_left (fun s pin => delete_pinst pin s) l st in
    nets st' = nets st /\ edbpath st' = edbpath st.
Proof.
  induction l as [|p l IH]; intros st; simpl; [auto|].
  specialize (IH (delete_pinst p st)). cbv zeta in IH.
  destruct IH as [-> ->]. auto.
Qed.

Lemma delete_prim_fold_rest (l : list Primitive) :
  forall st,
    let st' := fold_left (fun s prim => delete_prim prim s) l st in
    nets st' = nets st /\ edbpath st' = edbpath st.
Proof.
  induction l as [|p l IH]; intros st; simpl; [auto|].
  specialize (IH (delete_prim p st)). cbv zeta in IH.
  destruct IH as [-> ->]. auto.
Qed.

(** The clip itself deletes no net and does not move the project. *)
Lemma clip_layout_rest (a : CutoutArgs) (_poly : PolygonData)
      (rp : list PadstackInstance) (rpr : list Primitive) (st : Layout) :
  nets (clip_layout a _poly rp rpr st) = nets st /\
  edbpath (clip_layout a _poly rp rpr st) = edbpath st.
Proof.
  unfold clip_layout.
  assert (Htail : forall s,
             let s' :=
               add_log (LogInfo "Cutout completed.")
                 (if remove_single_pin_components a
                  then add_log (LogInfo "Single Pins components deleted")
                         (delete_single_pin_rlc (delete_empty_components s))
                  else delete_empty_components s) in
             nets s' = nets s /\ edbpath s' = edbpath s).
  { intros s. destruct (remove_single_pin_components a); split; reflexivity. }
  cbv zeta in Htail. destruct (Htail
    (add_log (LogInfo "Primitives cleanup completed")
       (apply_prim_deletions
          (pool_map_prims (clean_prim _poly) rpr
             (pool_map (pins_clean _poly) rp empty_acc))
          (apply_creations
             (pool_map_prims (clean_prim _poly) rpr
                (pool_map (pins_clean _poly) rp empty_acc))
             (add_log (LogInfo "Padstack Instances removal completed")
                (apply_pin_deletions
                   (pool_map (pins_clean _poly) rp empty_acc)
                   (add_log (LogInfo "Expanded Net Polygon Creation") st)))))))
    as [Hn Hp].
  rewrite Hn, Hp. clear Htail Hn Hp.
  unfold apply_prim_deletions, apply_creations, apply_pin_deletions.
  simpl nets. simpl edbpath.
  repeat match goal with
  | |- context [fold_left (fun s prim => delete_prim prim s) ?l ?s0] =>
      destruct (delete_prim_fold_rest l s0) as [-> ->]
  | |- context [fold_left (fun s el => create_polygon _ _ _ _ s) ?l ?s0] =>
      destruct (create_polygon_fold_rest l s0) as [-> ->]
  end.
  simpl nets. simpl edbpath.
  match goal with
  | |- context [fold_left (fun s pin => delete_pinst pin s) ?l ?s0] =>
      destruct (delete_pinst_fold_rest l s0) as [-> ->]
  end.
  split; reflexivity.
Qed.

Lemma pieces_net (_poly : PolygonData) (prim : Primitive)
      (el : PolyToCreate) :
  In el (pieces _poly prim) -> pc_net el = net_name prim.
Proof.
  unfold pieces.
  destruct (GetIntersectionType _poly (get_polygon_data prim) =? 0)%Z;
    [contradiction|].
  destruct (GetIntersectionType _poly (get_polygon_data prim) =? 2)%Z;
    [contradiction|].
  simpl. rewrite in_flat_map. intros (p & _ & Hc).
  apply clip_piece_spec in Hc. tauto.
Qed.

Lemma filter_all_false {A : Type} (f : A -> bool) (l : list A) :
  (forall x, In x l -> f x = false) -> filter f l = [].
Proof.
  induction l as [|x l IH]; simpl; [reflexivity|].
  intros H. rewrite (H x (or_introl eq_refl)). apply IH. auto.
Qed.

Lemma filter_all_true {A : Type} (f : A -> bool) (l : list A) :
  (forall x, In x l -> f x = true) -> filter f l = l.
Proof.
  induction l as [|x l IH]; simpl; [reflexivity|].
  intros H. rewrite (H x (or_introl eq_refl)). f_equal. apply IH. auto.
Qed.

Lemma flat_map_all_nil {A B : Type} (f : A -> list B) (l : list A) :
  (forall x, In x l -> f x = []) -> flat_map f l = [].
Proof.
  induction l as [|x l IH]; simpl; [reflexivity|].
  intros H. rewrite (H x (or_introl eq_refl)). apply IH. auto.
Qed.




End Geometry.

Arguments mkPrim {PolygonData}.
Arguments prim_id {PolygonData}.
Arguments net_name {PolygonData}.
Arguments layer_name {PolygonData}.
Arguments is_void {PolygonData}.
Arguments polygon_data {PolygonData}.
Arguments voids {PolygonData}.
Arguments mkLayout {PolygonData}.
Arguments nets {PolygonData}.
Arguments padstack_instances {PolygonData}.
Arguments primitives {PolygonData}.
Arguments components {PolygonData}.
Arguments edbpath {PolygonData}.
Arguments log {PolygonData}.
Arguments mkArgs {PolygonData}.
Arguments signal_list {PolygonData}.
Arguments reference_list {PolygonData}.
Arguments extent_type {PolygonData}.
Arguments expansion_size {PolygonData}.
Arguments use_round_corner {PolygonData}.
Arguments number_of_threads {PolygonData}.
Arguments custom_extent {PolygonData}.
Arguments output_aedb_path {PolygonData}.
Arguments remove_single_pin_components {PolygonData}.
Arguments use_pyaedt_extent_computing {PolygonData}.
Arguments extent_defeature {PolygonData}.
Arguments mkPoly {PolygonData}.
Arguments pc_poly {PolygonData}.
Arguments pc_layer {PolygonData}.
Arguments pc_net {PolygonData}.
Arguments pc_voids {PolygonData}.
Arguments NoExtent {PolygonData}.
Arguments ExtentPoints {PolygonData}.
Arguments ExtentPolygon {PolygonData}.
Arguments ExtentRaised {PolygonData}.
Arguments ExtentValue {PolygonData}.
Arguments reference_nets {PolygonData}.
Arguments all_list {PolygonData}.
Arguments extent_given {PolygonData}.
Arguments pruned {PolygonData}.
Arguments net_clean_up {PolygonData}.
Arguments reference_pinsts {PolygonData}.
Arguments reference_prims {PolygonData}.
Arguments created_from {PolygonData}.
Arguments _create_cutout_multithread {PolygonData}.
Arguments clip_region {PolygonData}.
Arguments clean_prim {PolygonData}.
Arguments clip_piece {PolygonData}.
Arguments sort_void {PolygonData}.
Arguments pieces {PolygonData}.
Arguments clipped_from {PolygonData}.
Arguments voids_sorted_in_two {PolygonData}.
Arguments contained {PolygonData}.
Arguments to_subtract {PolygonData}.
Arguments get_polygon_data {PolygonData}.
Arguments clip_layout {PolygonData}.
Arguments after_clip {PolygonData}.

(** ** A geometry to run the cutout on

    Polygons are finite sets of unit cells, numbered; a pad sits in the
    cell that bears its number.  The intersection types follow the
    numbering the code relies on: 0 disjoint, 1 this inside other,
    2 other inside this, 3 anything else. *)
Module Grid.

Definition Cells : Type := list nat.

Definition mem (c : nat) (p : Cells) : bool := existsb (Nat.eqb c) p.
Definition subset (p q : Cells) : bool := forallb (fun c => mem c q) p.
Definition disjoint (p q : Cells) : bool :=
  forallb (fun c => negb (mem c q)) p.

Definition GetIntersectionType (this other : Cells) : Z :=
  if disjoint this other then 0
  else if subset other this then 2
  else if subset this other then 1
  else 3.

Definition Intersect (p q : Cells) : list Cells :=
  [filter (fun c => mem c q) p].

Definition Subtract (p : Cells) (vs : list Cells) : list Cells :=
  [filter (fun c => negb (existsb (mem c) vs)) p].

Definition IsNull (p : Cells) : bool :=
  match p with [] => true | _ :: _ => false end.

Definition in_polygon (pin : PadstackInstance) (p : Cells) : bool :=
  mem (pinst_id pin) p.

Definition shape_to_polygon_data (pts : list (Q * Q)) : option Cells :=
  Some (map (fun pt => Z.to_nat (Qfloor (fst pt))) pts).

(** The cells of the primitives of the signal nets, if any. *)
Definition _create_extent (st : Layout Cells) (net_signals : list string)
           (_ : ExtentType) (_ : Q) (_ _ : bool) : option Cells :=
  match flat_map polygon_data
                 (filter (fun i => str_in (net_name i) net_signals)
                         (primitives st)) with
  | [] => None
  | c :: cs => Some (c :: cs)
  end.

Definition Defeature (p : Cells) (_ : Q) : option Cells := Some p.

Definition cutout : CutoutArgs Cells -> Layout Cells -> bool * Layout Cells :=
  _create_cutout_multithread GetIntersectionType Intersect Subtract IsNull
                             in_polygon shape_to_polygon_data _create_extent
                             Defeature false.

(** A board: a trace of SIG on cells 1-3, a plane of GND on cells 1-6
    with a hole on cell 5, a second plane of GND on cells 2-5 with a hole
    on cells 3-4, a pad of GND on cell 2, a far patch of GND on cell 8
    and a trace of VCC. *)
Definition hole : Primitive Cells := mkPrim 12 "GND" "L1" true [5] [].
Definition slot : Primitive Cells := mkPrim 17 "GND" "L2" true [3; 4] [].
Definition trace : Primitive Cells := mkPrim 10 "SIG" "L1" false [1; 2; 3] [].
Definition plane : Primitive Cells :=
  mkPrim 11 "GND" "L1" false [1; 2; 3; 4; 5; 6] [hole].
Definition pad : Primitive Cells := mkPrim 13 "GND" "L1" false [2] [].
Definition far : Primitive Cells := mkPrim 14 "GND" "L1" false [8] [].
Definition power : Primitive Cells := mkPrim 15 "VCC" "L1" false [2; 3] [].
Definition plane2 : Primitive Cells :=
  mkPrim 16 "GND" "L2" false [2; 3; 4; 5] [slot].

Definition board : Layout Cells :=
  mkLayout ["SIG"; "GND"; "VCC"]
           [mkPinst 1 "SIG"; mkPinst 2 "GND"; mkPinst 7 "GND";
            mkPinst 9 "VCC"; mkPinst 6 "SIG"]
           [trace; plane; hole; pad; far; power; plane2; slot]
           [mkComponent "U1" [1; 2]; mkComponent "C1" [7; 9]]
           None [].

(** [cutout(signal_list=["SIG"], reference_list=["GND"],
    extent_type="Conforming", expansion_size=0)]. *)
Definition net_args : CutoutArgs Cells :=
  mkArgs ["SIG"] ["GND"] Conforming 0%Q false 4 NoExtent None false false 0%Q.

(** The same with [custom_extent] given as polygon data on cells 1-3. *)
Definition custom_args : CutoutArgs Cells :=
  mkArgs ["SIG"] ["GND"] Conforming 0%Q false 4 (ExtentPolygon [1; 2; 3])
         None false false 0%Q.

(** No net of the signal list is on the board: no extent. *)
Definition lost_args : CutoutArgs Cells :=
  mkArgs ["CLK"] ["GND"] Conforming 0%Q false 4 NoExtent None false false 0%Q.

End Grid.

(** *** The claims on the board *)

Lemma board_prim_ids : NoDup (map prim_id (primitives Grid.board)).
Proof. simpl. repeat (constructor; [simpl; lia|]). constructor. Qed.

Lemma board_pin_ids : NoDup (map pinst_id (padstack_instances Grid.board)).
Proof. simpl. repeat (constructor; [simpl; lia|]). constructor. Qed.






(** Without the custom extent the pad of SIG on cell 6, outside the clip
    polygon, stays. *)
Example net_extent_keeps_signal_pad :
  In (mkPinst 6 "SIG")
     (padstack_instances (snd (Grid.cutout Grid.net_args Grid.board))).
Proof. vm_compute. tauto. Qed.

(** *** The further properties on the board *)

(** The cutout that finds no extent, asked to save under a new path. *)
Definition lost_saved_args : CutoutArgs Grid.Cells :=
  mkArgs ["CLK"] ["GND"] Conforming 0%Q false 4 NoExtent (Some "cut.aedb")
         false false 0%Q.

(** A custom extent on cells 1-8, which holds the whole board. *)
Definition wide_args : CutoutArgs Grid.Cells :=
  mkArgs ["SIG"] ["GND"] Conforming 0%Q false 4
         (ExtentPolygon [1; 2; 3; 4; 5; 6; 7; 8]) None false false 0%Q.




End Cutout.

(** * Stackup (core/stackup.py) *)

Module Stackup.

(** ** Layers *)

(** [Cell.LayerType]. *)
Inductive LayerType : Type :=
| SignalLayer | DielectricLayer | ConductingLayer | AirlinesLayer
| ErrorsLayer | SymbolLayer | MeasureLayer | AssemblyLayer
| SilkscreenLayer | SolderMaskLayer | SolderPasteLayer | GlueLayer
| WirebondLayer | UserLayer | SIwaveHFSSSolverRegions | OutlineLayer
| PostprocessingLayer | UndefinedLayerType.

(** [Cell.TopBottomAssociation]: the two values the source names. *)
Inductive TopBottomAssociation : Type := TopAssociated | BottomAssociated.

(** [Cell.LayerCollectionMode]. *)
Inductive LayerCollectionMode : Type := Laminate | Overlapping | MultiZone.

(** A layer of the database, with what the stackup code reads and sets.
    Elevations and thicknesses are in metres.  The two reference names
    are those of a via layer ([GetRefLayerName(True)] and
    [GetRefLayerName(False)]). *)
Record Layer : Type := mkLayer {
  name : string;
  layer_id : nat;
  layer_type : LayerType;
  is_via_layer : bool;
  lower_elevation : Q;
  thickness : Q;
  top_bottom_association : TopBottomAssociation;
  upper_ref_layer : string;
  lower_ref_layer : string;
  material : string;
  fill_material : string;
  negative : bool;
  etch_factor : option Q;
  roughness_enabled : bool
}.

Definition SetLowerElevation (e : Q) (l : Layer) : Layer :=
  mkLayer (name l) (layer_id l) (layer_type l) (is_via_layer l) e
          (thickness l) (top_bottom_association l) (upper_ref_layer l)
          (lower_ref_layer l) (material l) (fill_material l) (negative l)
          (etch_factor l) (roughness_enabled l).

Definition SetTopBottomAssociation (t : TopBottomAssociation) (l : Layer)
  : Layer :=
  mkLayer (name l) (layer_id l) (layer_type l) (is_via_layer l)
          (lower_elevation l) (thickness l) t (upper_ref_layer l)
          (lower_ref_layer l) (material l) (fill_material l) (negative l)
          (etch_factor l) (roughness_enabled l).

(** [SetRefLayer(upper, True)] then [SetRefLayer(lower, False)]. *)
Definition SetRefLayers (upper lower : string) (l : Layer) : Layer :=
  mkLayer (name l) (layer_id l) (layer_type l) (is_via_layer l)
          (lower_elevation l) (thickness l) (top_bottom_association l)
          upper lower (material l) (fill_material l) (negative l)
          (etch_factor l) (roughness_enabled l).

Definition SetMaterial (m : string) (l : Layer) : Layer :=
  mkLayer (name l) (layer_id l) (layer_type l) (is_via_layer l)
          (lower_elevation l) (thickness l) (top_bottom_association l)
          (upper_ref_layer l) (lower_ref_layer l) m (fill_material l)
          (negative l) (etch_factor l) (roughness_enabled l).

Definition SetFillMaterial (m : string) (l : Layer) : Layer :=
  mkLayer (name l) (layer_id l) (layer_type l) (is_via_layer l)
          (lower_elevation l) (thickness l) (top_bottom_association l)
          (upper_ref_layer l) (lower_ref_layer l) (material l) m
          (negative l) (etch_factor l) (roughness_enabled l).

Definition SetNegative (b : bool) (l : Layer) : Layer :=
  mkLayer (name l) (layer_id l) (layer_type l) (is_via_layer l)
          (lower_elevation l) (thickness l) (top_bottom_association l)
          (upper_ref_layer l) (lower_ref_layer l) (material l)
          (fill_material l) b (etch_factor l) (roughness_enabled l).

Definition set_etch_factor (e : Q) (l : Layer) : Layer :=
  mkLayer (name l) (layer_id l) (layer_type l) (is_via_layer l)
          (lower_elevation l) (thickness l) (top_bottom_association l)
          (upper_ref_layer l) (lower_ref_layer l) (material l)
          (fill_material l) (negative l) (Some e) (roughness_enabled l).

Definition set_roughness_enabled (b : bool) (l : Layer) : Layer :=
  mkLayer (name l) (layer_id l) (layer_type l) (is_via_layer l)
          (lower_elevation l) (thickness l) (top_bottom_association l)
          (upper_ref_layer l) (lower_ref_layer l) (material l)
          (fill_material l) (negative l) (etch_factor l) b.

Definition GetUpperElevation (l : Layer) : Q :=
  (lower_elevation l + thickness l)%Q.

(** Membership in [LayerTypeSet.StackupLayerSet] (signal and dielectric
    layers), which is also what [IsStackupLayer()] answers. *)
Definition IsStackupLayer (l : Layer) : bool :=
  match layer_type l with
  | SignalLayer | DielectricLayer => true
  | _ => false
  end.

Definition IsSignalLayer (l : Layer) : bool :=
  match layer_type l with
  | SignalLayer => true
  | _ => false
  end.

(** ** The layer collection

    Modelled from the spec: the layer collection belongs to the database
    ("ordered sequence of Layers plus a mode").  [layers] is the order in
    which [Layers(...)] enumerates, which [plot] and [place_in_layout]
    read top first (index 0 is the top layer). *)
Record LayerCollection : Type := mkLC {
  mode : LayerCollectionMode;
  layers : list Layer
}.

(** [Cell.LayerCollection()]. *)
Definition empty_collection : LayerCollection := mkLC Laminate [].

Definition SetMode (m : LayerCollectionMode) (lc : LayerCollection)
  : LayerCollection := mkLC m (layers lc).

Definition AllLayerSet (lc : LayerCollection) : list Layer := layers lc.
Definition StackupLayerSet (lc : LayerCollection) : list Layer :=
  filter IsStackupLayer (layers lc).
Definition NonStackupLayerSet (lc : LayerCollection) : list Layer :=
  filter (fun l => negb (IsStackupLayer l)) (layers lc).
Definition SignalLayerSet (lc : LayerCollection) : list Layer :=
  filter IsSignalLayer (layers lc).

(** [[lay for lay in ls if lay.GetName() == n][0]], [None] when the
    index is out of range. *)
Definition first_named (n : string) (ls : list Layer) : option Layer :=
  find (fun lay => (name lay =? n)%string) ls.

Definition layer_names (lc : LayerCollection) : list string :=
  map name (layers lc).

(** Modelled from the spec: [AddStackupLayerAtElevation] ("explicit
    elevation-based insertion").  The layer keeps the lower elevation it
    was given and goes above the first layer that is not higher. *)
Fixpoint insert_at_elevation (l : Layer) (ls : list Layer) : list Layer :=
  match ls with
  | [] => [l]
  | x :: xs =>
      if negb (IsStackupLayer x)
         || Qle_bool (lower_elevation x) (lower_elevation l)
      then l :: x :: xs
      else x :: insert_at_elevation l xs
  end.

Definition AddStackupLayerAtElevation (l : Layer) (lc : LayerCollection)
  : LayerCollection := mkLC (mode lc) (insert_at_elevation l (layers lc)).

(** Upper elevation of the top stackup layer, 0 on an empty stack. *)
Definition top_elevation (lc : LayerCollection) : Q :=
  match StackupLayerSet lc with
  | [] => 0%Q
  | t :: _ => GetUpperElevation t
  end.

(** Modelled from the spec: [AddLayerTop] ("Laminate: strict
    bottom-to-top insertion order", "upper_elevation = lower_elevation +
    thickness").  A stackup layer is laid on the present top. *)
Definition AddLayerTop (l : Layer) (lc : LayerCollection) : LayerCollection :=
  mkLC (mode lc)
       ((if IsStackupLayer l then SetLowerElevation (top_elevation lc) l
         else l) :: layers lc).

(** Modelled from the spec: [AddLayerBottom], [AddLayerAbove] and
    [AddLayerBelow] put the layer at the end of the enumeration, before
    and after the base layer; without the base layer the collection is
    left as it is.  The elevation the database then gives the layers is
    not modelled: no property below reads it. *)
Definition AddLayerBottom (l : Layer) (lc : LayerCollection) : LayerCollection :=
  mkLC (mode lc) (layers lc ++ [l]).

Fixpoint insert_above (l : Layer) (base : string) (ls : list Layer)
  : list Layer :=
  match ls with
  | [] => []
  | x :: xs => if (name x =? base)%string then l :: x :: xs
               else x :: insert_above l base xs
  end.

Fixpoint insert_below (l : Layer) (base : string) (ls : list Layer)
  : list Layer :=
  match ls with
  | [] => []
  | x :: xs => if (name x =? base)%string then x :: l :: xs
               else x :: insert_below l base xs
  end.

Definition AddLayerAbove (l : Layer) (base : option string)
           (lc : LayerCollection) : LayerCollection :=
  match base with
  | Some b => mkLC (mode lc) (insert_above l b (layers lc))
  | None => lc
  end.

Definition AddLayerBelow (l : Layer) (base : option string)
           (lc : LayerCollection) : LayerCollection :=
  match base with
  | Some b => mkLC (mode lc) (insert_below l b (layers lc))
  | None => lc
  end.

(** [AddLayers(list)]. *)
Definition AddLayers (ls : list Layer) (lc : LayerCollection)
  : LayerCollection := mkLC (mode lc) (layers lc ++ ls).

(** ** The database behind the stackup *)

Inductive SolderballPlacement : Type := AbovePadstack | BelowPadstack.
Inductive DieOrientation : Type := ChipUp | ChipDown.

(** A component; [solder_placement] is [None] when reading the solder
    ball property raises. *)
Record Component : Type := mkComponent {
  refdes : string;
  is_ic : bool;
  solder_placement : option SolderballPlacement;
  die_orientation : DieOrientation
}.

(** A padstack instance with its start and stop layer and the pairs its
    layer map holds. *)
Record PadstackInstance : Type := mkPadstack {
  start_layer : string;
  stop_layer : string;
  layer_map : list (nat * nat)
}.

Record Edb : Type := mkEdb {
  layer_collection : LayerCollection;
  materials : list string;
  components : list Component;
  padstack_instances : list PadstackInstance;
  log : list LogEntry
}.

Definition set_collection (lc : LayerCollection) (st : Edb) : Edb :=
  mkEdb lc (materials st) (components st) (padstack_instances st) (log st).

Definition add_log (e : LogEntry) (st : Edb) : Edb :=
  mkEdb (layer_collection st) (materials st) (components st)
        (padstack_instances st) (log st ++ [e]).

Section Store.

(** [active_layout.SetLayerCollection(lc)] answers whether the layout
    took the collection; when it does not, the layout keeps the one it
    has. *)
Variable accepts : LayerCollection -> bool.

Definition SetLayerCollection (lc : LayerCollection) (st : Edb)
  : bool * Edb :=
  if accepts lc then (true, set_collection lc st) else (false, st).

(** [self._layer_collection], [self._edb_layer_list]: the collection
    is read back from the layout ([refresh_layer_collection]) after
    every edit. *)
Definition _edb_layer_list (st : Edb) : list Layer :=
  AllLayerSet (layer_collection st).

(** [self.stackup_layers], in the order of the collection. *)
Definition stackup_layers (st : Edb) : list Layer :=
  filter IsStackupLayer (_edb_layer_list st).

(** ** [flip_design], lines 754-876 *)

(** ["RadBox" in name]. *)
Definition has_RadBox (n : string) : bool :=
  match String.index 0 "RadBox" n with
  | Some _ => true
  | None => false
  end.

(** Lines 775-780; in micrometres. *)
Definition max_elevation (lc : LayerCollection) : Q :=
  fold_left
    (fun max_elevation layer =>
       if negb (has_RadBox (name layer)) then
         Qmax (Qmax max_elevation (lower_elevation layer * 1000000)%Q)
              (GetUpperElevation layer * 1000000)%Q
       else max_elevation)
    (StackupLayerSet lc) 0%Q.

(** [self._edb_value("{}um".format(x))], in metres. *)
Definition edb_value_um (x : Q) : Q := (x * (1 # 1000000))%Q.

Definition invert (t : TopBottomAssociation) : TopBottomAssociation :=
  match t with
  | TopAssociated => BottomAssociated
  | BottomAssociated => TopAssociated
  end.

(** Lines 789-796 on one cloned layer. *)
Definition flip_layer (max_elevation : Q) (cloned_layer : Layer) : Layer :=
  let upper_elevation := (GetUpperElevation cloned_layer * 1000000)%Q in
  let updated_lower_el := (max_elevation - upper_elevation)%Q in
  let val := edb_value_um updated_lower_el in
  let cloned_layer := SetLowerElevation val cloned_layer in
  match top_bottom_association cloned_layer with
  | TopAssociated => SetTopBottomAssociation BottomAssociated cloned_layer
  | BottomAssociated => SetTopBottomAssociation TopAssociated cloned_layer
  end.

(** Lines 782-797: the pair is ([new_lc], [non_stackup_layers]). *)
Definition flip_step (max_elevation : Q)
           (acc : LayerCollection * list Layer) (layer : Layer)
  : LayerCollection * list Layer :=
  let cloned_layer := layer in
  if negb (IsStackupLayer cloned_layer) then
    (fst acc, snd acc ++ [cloned_layer])
  else if negb (has_RadBox (name cloned_layer))
          && negb (is_via_layer cloned_layer) then
    (AddStackupLayerAtElevation (flip_layer max_elevation cloned_layer)
                                (fst acc), snd acc)
  else acc.

(** Lines 802-827 on one via layer; [None] when one of the three
    lookups raises [IndexError]. *)
Definition flip_via (lc : LayerCollection) (new_lc : option LayerCollection)
           (layer : Layer) : option LayerCollection :=
  match new_lc with
  | None => None
  | Some new_lc =>
      let cloned_via_layer := layer in
      let upper_ref_name := upper_ref_layer cloned_via_layer in
      let lower_ref_name := lower_ref_layer cloned_via_layer in
      match first_named upper_ref_name (AllLayerSet lc),
            first_named lower_ref_name (AllLayerSet lc),
            first_named upper_ref_name (AllLayerSet new_lc) with
      | Some upper_ref, Some lower_ref, Some ref_layer_in_flipped_stackup =>
          let cloned_via_layer :=
            SetRefLayers (name lower_ref) (name upper_ref) cloned_via_layer in
          let via_layer_lower_elevation :=
            (lower_elevation ref_layer_in_flipped_stackup
             + thickness ref_layer_in_flipped_stackup)%Q in
          Some (AddStackupLayerAtElevation
                  (SetLowerElevation via_layer_lower_elevation
                                     cloned_via_layer)
                  new_lc)
      | _, _, _ => None
      end
  end.

(** Lines 771-830: the collection handed to [SetLayerCollection]. *)
Definition flip_collection (lc : LayerCollection) : option LayerCollection :=
  let new_lc := SetMode (mode lc) empty_collection in
  let max_elevation := max_elevation lc in
  let '(new_lc, non_stackup_layers) :=
    fold_left (flip_step max_elevation) (AllLayerSet lc) (new_lc, []) in
  let vialayers := filter is_via_layer (StackupLayerSet lc) in
  match fold_left (flip_via lc) vialayers (Some new_lc) with
  | None => None
  | Some new_lc => Some (AddLayers non_stackup_layers new_lc)
  end.

(** Lines 834-864 on one component. *)
Definition flip_component (c : Component) : Component :=
  let placement :=
    match solder_placement c with
    | Some AbovePadstack => Some BelowPadstack
    | Some BelowPadstack => Some AbovePadstack
    | None => None
    end in
  let orientation :=
    if is_ic c then
      match die_orientation c with
      | ChipDown => ChipUp
      | ChipUp => ChipDown
      end
    else die_orientation c in
  mkComponent (refdes c) (is_ic c) placement orientation.

(** Lines 867-872: the loop stops at the first padstack whose start or
    stop layer is not a signal layer of the new collection. *)
Fixpoint remap_padstacks (lay_list : list Layer)
         (ps : list PadstackInstance) : bool * list PadstackInstance :=
  match ps with
  | [] => (true, [])
  | padstack :: rest =>
      match first_named (start_layer padstack) lay_list,
            first_named (stop_layer padstack) lay_list with
      | Some start, Some stop =>
          let padstack :=
            mkPadstack (start_layer padstack) (stop_layer padstack)
                       (layer_map padstack
                        ++ [(layer_id stop, layer_id start)]) in
          let '(ok, rest) := remap_padstacks lay_list rest in
          (ok, padstack :: rest)
      | _, _ => (false, padstack :: rest)
      end
  end.

(** Lines 770-876.  Any exception makes the call return [False]: before
    [SetLayerCollection] nothing has changed; in the loop over the
    padstack instances the layout has the flipped collection already
    (and [refresh_layer_collection] is not reached, so what is said below
    about a second call is said of calls that succeed). *)
Definition flip_design (st : Edb) : bool * Edb :=
  let lc := layer_collection st in
  match flip_collection lc with
  | None => (false, st)
  | Some new_lc =>
      match SetLayerCollection new_lc st with
      | (false, st) => (false, add_log (LogError "Failed to Flip Stackup.") st)
      | (true, st) =>
          let st := mkEdb (layer_collection st) (materials st)
                          (map flip_component (components st))
                          (padstack_instances st) (log st) in
          let lay_list := SignalLayerSet new_lc in
          let '(ok, ps) := remap_padstacks lay_list (padstack_instances st) in
          (ok, mkEdb (layer_collection st) (materials st) (components st)
                     ps (log st))
      end
  end.

(** ** [get_layout_thickness], lines 878-891

    [None] stands for the [IndexError] of [layers_name[0]] on a layout
    without stackup layers.  Names are unique in a collection, so the
    two dictionary lookups give the first and the last stackup layer. *)
Definition get_layout_thickness (st : Edb) : option Q :=
  match stackup_layers st with
  | [] => None
  | first :: rest =>
      let bottom_layer := first in
      let top_layer := last rest first in
      Some (lower_elevation top_layer + thickness top_layer
            - lower_elevation bottom_layer)%Q
  end.

(** ** [stackup_limits], lines 732-752 *)

Definition higher (best x : Layer) : Layer :=
  if Qlt_le_dec (lower_elevation best) (lower_elevation x) then x else best.

Definition deeper (best x : Layer) : Layer :=
  if Qlt_le_dec (lower_elevation x) (lower_elevation best) then x else best.

(** Modelled from the spec: [GetTopBottomStackupLayers] belongs to the
    database ("top/bottom determined by min/max elevation among the
    filtered layer set"); the elevation reported for a layer is its
    lower elevation, to which the spec adds the thickness of the top
    layer. *)
Definition GetTopBottomStackupLayers (ls : list Layer)
  : option (Layer * Q * Layer * Q) :=
  match ls with
  | [] => None
  | l :: rest =>
      let topl := fold_left higher rest l in
      let bottoml := fold_left deeper rest l in
      Some (topl, lower_elevation topl, bottoml, lower_elevation bottoml)
  end.

Definition stackup_limits (only_metals : bool) (st : Edb)
  : option (string * Q * string * Q) :=
  let input_layers :=
    if only_metals then SignalLayerSet (layer_collection st)
    else StackupLayerSet (layer_collection st) in
  match GetTopBottomStackupLayers input_layers with
  | Some (topl, topz, bottoml, bottomz) =>
      Some (name topl, topz, name bottoml, bottomz)
  | None => None
  end.

(** ** [_set_layout_stackup], lines 357-412 *)

(** Lines 385-396: a layer of the old collection, or the clone in its
    place. *)
Definition substitute (layer_clone : Layer) (base_layer : option string)
           (layer : Layer) : Layer :=
  if (name layer =? name layer_clone)%string
     || match base_layer with
        | Some b => (name layer =? b)%string
        | None => false
        end
  then layer_clone else layer.

Definition rebuild (layer_clone : Layer) (base_layer : option string)
           (lc_readonly : LayerCollection) : LayerCollection :=
  let layers := StackupLayerSet lc_readonly in
  let non_stackup := NonStackupLayerSet lc_readonly in
  let _lc := SetMode (mode lc_readonly) empty_collection in
  let _lc :=
    match mode lc_readonly with
    | Overlapping =>
        fold_left (fun c layer =>
                     AddStackupLayerAtElevation
                       (substitute layer_clone base_layer layer) c)
                  layers _lc
    | _ =>
        fold_left (fun c layer =>
                     AddLayerBottom
                       (substitute layer_clone base_layer layer) c)
                  layers _lc
    end in
  let _lc := fold_left (fun c layer => AddLayerBottom layer c)
                       non_stackup _lc in
  SetMode (mode lc_readonly) _lc.

Definition _set_layout_stackup (st : Edb) (layer_clone : Layer)
           (operation : string) (base_layer : option string)
  : bool * Edb :=
  let _lc := layer_collection st in
  let _lc :=
    if str_in operation ["change_position"; "change_attribute";
                         "change_name"]
    then rebuild layer_clone base_layer (layer_collection st)
    else if (operation =? "insert_below")%string
    then AddLayerBelow layer_clone base_layer _lc
    else if (operation =? "insert_above")%string
    then AddLayerAbove layer_clone base_layer _lc
    else if (operation =? "add_on_top")%string
    then AddLayerTop layer_clone _lc
    else if (operation =? "add_on_bottom")%string
    then AddLayerBottom layer_clone _lc
    else if (operation =? "add_at_elevation")%string
    then AddStackupLayerAtElevation layer_clone _lc
    else _lc in
  SetLayerCollection _lc st.

(** ** [add_layer], lines 470-564 *)

(** What the database gives a new layer: an identity not in use and a
    top/bottom association. *)
Variable new_layer_association : TopBottomAssociation.

Definition fresh_layer_id (st : Edb) : nat :=
  S (list_max (map layer_id (layers (layer_collection st)))).

(** Lines 414-429. *)
Definition _create_stackup_layer (st : Edb) (layer_name : string)
           (thickness : Q) (layer_type : string) : Layer :=
  let _layer_type :=
    if (layer_type =? "signal")%string then SignalLayer
    else DielectricLayer in
  mkLayer layer_name (fresh_layer_id st) _layer_type false 0%Q thickness
          new_layer_association "" "" "" "" false None false.

(** Lines 431-468. *)
Definition _create_nonstackup_layer (st : Edb) (layer_name : string)
           (layer_type : string) : Layer :=
  let _layer_type :=
    if (layer_type =? "conducting")%string then ConductingLayer
    else if (layer_type =? "airlines")%string then AirlinesLayer
    else if (layer_type =? "error")%string then ErrorsLayer
    else if (layer_type =? "symbol")%string then SymbolLayer
    else if (layer_type =? "measure")%string then MeasureLayer
    else if (layer_type =? "assembly")%string then AssemblyLayer
    else if (layer_type =? "silkscreen")%string then SilkscreenLayer
    else if (layer_type =? "soldermask")%string then SolderMaskLayer
    else if (layer_type =? "solderpaste")%string then SolderPasteLayer
    else if (layer_type =? "glue")%string then GlueLayer
    else if (layer_type =? "wirebond")%string then WirebondLayer
    else if (layer_type =? "user")%string then UserLayer
    else if (layer_type =? "siwavehfsssolverregions")%string
    then SIwaveHFSSSolverRegions
    else if (layer_type =? "outline")%string then OutlineLayer
    else if (layer_type =? "postprocessing")%string
    then PostprocessingLayer
    else UndefinedLayerType in
  mkLayer layer_name (fresh_layer_id st) _layer_type false 0%Q 0%Q
          new_layer_association "" "" "" "" false None false.

(** [str.lower()] on ASCII letters. *)
Definition lower_char (c : ascii) : ascii :=
  let n := nat_of_ascii c in
  if (65 <=? n)%nat && (n <=? 90)%nat then ascii_of_nat (n + 32) else c.

Fixpoint lower (s : string) : string :=
  match s with
  | EmptyString => EmptyString
  | String c s' => String (lower_char c) (lower s')
  end.

(** [{m.lower(): m for m in materials}[key]]: the last name of the
    library that has this lower-case form. *)
Definition materials_lower_get (st : Edb) (key : string) : option string :=
  find (fun m => (lower m =? key)%string) (rev (materials st)).

(** [self.layers[layer_name]]; [None] is the [KeyError]. *)
Definition layers_get (st : Edb) (layer_name : string) : option Layer :=
  first_named layer_name (_edb_layer_list st).

(** A property setter of the layer wrapper, applied to the layer the
    wrapper stands for. *)
Definition update_layer (layer_name : string) (f : Layer -> Layer)
           (st : Edb) : Edb :=
  set_collection
    (mkLC (mode (layer_collection st))
          (map (fun l => if (name l =? layer_name)%string then f l else l)
               (layers (layer_collection st))))
    st.

(** Truth value of a float that may be [None]. *)
Definition truthy (x : option Q) : bool :=
  match x with
  | Some q => negb (Qeq_bool q 0)
  | None => false
  end.

(** Lines 542-564, with the names of the two materials as lines
    522-540 left them.  [None] is the [KeyError] of
    [self.layers[layer_name]], which the decorator turns into the
    result [False]. *)
Definition place_new_layer (st : Edb) (layer_name : string)
           (base_layer : option string)
           (method layer_type material fillMaterial : string)
           (thickness : Q) (etch_factor : option Q)
           (is_negative enable_roughness : bool) (elevation : option Q)
  : option Layer * Edb :=
  if str_in layer_type ["signal"; "dielectric"] then
    let new_layer := _create_stackup_layer st layer_name thickness
                                           layer_type in
    let new_layer := SetMaterial material new_layer in
    let new_layer :=
      if negb (layer_type =? "dielectric")%string
      then SetFillMaterial fillMaterial new_layer else new_layer in
    let new_layer := SetNegative is_negative new_layer in
    let l1 := List.length (_edb_layer_list st) in
    let new_layer :=
      match elevation with
      | Some e =>
          if (method =? "add_at_elevation")%string && truthy elevation
          then SetLowerElevation e new_layer else new_layer
      | None => new_layer
      end in
    let st := snd (_set_layout_stackup st new_layer method base_layer) in
    let st :=
      if (List.length (_edb_layer_list st) =? l1)%nat
      then snd (_set_layout_stackup st new_layer method base_layer)
      else st in
    let after_etch :=
      if truthy etch_factor then
        match layers_get st layer_name, etch_factor with
        | Some _, Some e =>
            Some (update_layer layer_name (set_etch_factor e) st)
        | _, _ => None
        end
      else Some st in
    match after_etch with
    | None => (None, st)
    | Some st =>
        let after_roughness :=
          if enable_roughness then
            match layers_get st layer_name with
            | Some _ =>
                Some (update_layer layer_name (set_roughness_enabled true)
                                   st)
            | None => None
            end
          else Some st in
        match after_roughness with
        | None => (None, st)
        | Some st => (layers_get st layer_name, st)
        end
    end
  else
    let new_layer := _create_nonstackup_layer st layer_name layer_type in
    let st := snd (_set_layout_stackup st new_layer "non_stackup" None) in
    (layers_get st layer_name, st).

(** Lines 522-540 on one of the two names: the spelling of the library
    when the name is known without regard to case; otherwise the name
    as it is, and an error in the log. *)
Definition resolve_material (st : Edb) (material : string)
  : string * Edb :=
  match materials_lower_get st (lower material) with
  | None =>
      (material,
       add_log (LogError (material ++ " does not exist in material library"))
               st)
  | Some m => (m, st)
  end.

(** Lines 519-564.  The result is [None] where the Python call returns
    [False]. *)
Definition add_layer (st : Edb) (layer_name : string)
           (base_layer : option string)
           (method layer_type material fillMaterial : string)
           (thickness : Q) (etch_factor : option Q)
           (is_negative enable_roughness : bool) (elevation : option Q)
  : option Layer * Edb :=
  if str_in layer_name (map name (_edb_layer_list st)) then
    (None, add_log (LogError ("layer " ++ layer_name ++ " exists.")) st)
  else
    let material :=
      if (material =? "")%string then
        if (layer_type =? "signal")%string then "copper" else "fr4_epoxy"
      else material in
    let fillMaterial :=
      if (fillMaterial =? "")%string then "fr4_epoxy" else fillMaterial in
    let '(material, st) := resolve_material st material in
    let '(fillMaterial, st) :=
      if negb (layer_type =? "dielectric")%string
      then resolve_material st fillMaterial
      else (fillMaterial, st) in
    place_new_layer st layer_name base_layer method layer_type material
                    fillMaterial thickness etch_factor is_negative
                    enable_roughness elevation.

(** ** [remove_layer], lines 566-585 *)

Definition remove_layer (st : Edb) (name_ : string) : bool * Edb :=
  let new_layer_collection :=
    fold_left (fun c lyr =>
                 if negb (name lyr =? name_)%string
                 then AddLayerBottom lyr c else c)
              (_edb_layer_list st) empty_collection in
  SetLayerCollection new_layer_collection st.

(** ** [create_symmetric_stackup], lines 104-224 *)

(** Whether [numpy] could be imported. *)
Variable np : bool.

(** [str(n)] of an integer. *)
Definition str (n : Z) : string := NilZero.string_of_int (Z.to_int n).

(** [np.arange(start, 1, -1)]. *)
Definition arange_down (start : Z) : list Z :=
  map (fun k => (start - Z.of_nat k)%Z) (seq 0 (Z.to_nat (start - 1))).

(** [self.stackup_layers[key].dielectric_fill = value]; [None] is the
    [KeyError]. *)
Definition set_dielectric_fill (key value : string) (st : Edb)
  : option Edb :=
  match first_named key (stackup_layers st) with
  | Some _ => Some (update_layer key (SetFillMaterial value) st)
  | None => None
  end.

(** Lines 186-223, one turn of the loop. *)
Definition add_inner_layers (layer_count : Z)
           (inner_layer_thickness dielectric_thickness : Q)
           (dielectric_material : string) (st : Edb) (layer_num : Z) : Edb :=
  let st := snd (add_layer st ("L" ++ str layer_num) (Some "TOP")
                           "insert_below" "signal" "copper"
                           dielectric_material inner_layer_thickness
                           None false false None) in
  let st := snd (add_layer st ("D" ++ str (layer_num - 1)) (Some "TOP")
                           "insert_below" "dielectric" dielectric_material
                           dielectric_material dielectric_thickness
                           None false false None) in
  let st := snd (add_layer st ("L" ++ str (layer_count - layer_num + 1))
                           (Some "BOT") "insert_above" "signal" "copper"
                           dielectric_material inner_layer_thickness
                           None false false None) in
  snd (add_layer st ("D" ++ str (layer_count - layer_num + 1))
                 (Some "BOT") "insert_above" "dielectric"
                 dielectric_material dielectric_material
                 dielectric_thickness None false false None).

Definition create_symmetric_stackup (st : Edb) (layer_count : Z)
           (inner_layer_thickness outer_layer_thickness
                                  dielectric_thickness : Q)
           (dielectric_material : string) (soldermask : bool)
           (soldermask_thickness : Q) : bool * Edb :=
  if negb np then
    (false, add_log (LogError "Numpy is needed. Please, install it first.")
                    st)
  else if negb (layer_count mod 2 =? 0)%Z then (false, st)
  else
    let st := snd (add_layer st "BOT" None "add_on_top" "signal" "copper"
                             dielectric_material outer_layer_thickness
                             None false false None) in
    let st := snd (add_layer st ("D" ++ str (layer_count / 2)) None
                             "add_on_top" "dielectric" "fr4_epoxy"
                             dielectric_material dielectric_thickness
                             None false false None) in
    let st := snd (add_layer st "TOP" None "add_on_top" "signal" "copper"
                             dielectric_material outer_layer_thickness
                             None false false None) in
    let masked :=
      if soldermask then
        let st := snd (add_layer st "SMT" None "add_on_top" "dielectric"
                                 "solder_mask" dielectric_material
                                 soldermask_thickness None false false
                                 None) in
        let st := snd (add_layer st "SMB" None "add_on_bottom" "dielectric"
                                 "solder_mask" dielectric_material
                                 soldermask_thickness None false false
                                 None) in
        match set_dielectric_fill "TOP" "solder_mask" st with
        | Some st1 =>
            match set_dielectric_fill "BOT" "solder_mask" st1 with
            | Some st2 => (true, st2)
            | None => (false, st1)
            end
        | None => (false, st)
        end
      else (true, st) in
    if fst masked then
      (true,
       fold_left (add_inner_layers layer_count inner_layer_thickness
                                   dielectric_thickness dielectric_material)
                 (arange_down (layer_count / 2)) (snd masked))
    else masked.

(** ** Notions the properties are stated with *)

(** A stackup layer that lines 788-797 flip. *)
Definition regular (l : Layer) : bool :=
  IsStackupLayer l && negb (has_RadBox (name l)) && negb (is_via_layer l).

(** What lines 802-827 make of the via layer [v]: the reference names
    are swapped, and the lower elevation is the upper elevation of a
    layer [r] of the flipped collection that bears the name of the
    former upper reference. *)
Definition flipped_via (v v' r : Layer) : Prop :=
  name v' = name v /\
  upper_ref_layer v' = lower_ref_layer v /\
  lower_ref_layer v' = upper_ref_layer v /\
  thickness v' = thickness v /\
  name r = upper_ref_layer v /\
  lower_elevation v' = (lower_elevation r + thickness r)%Q.

(** [max_elevation] is the least number that is not below 0 nor below
    an elevation of a stackup layer without "RadBox" in its name. *)
Definition scan_elevation (max_elevation : Q) (layer : Layer) : Q :=
  if negb (has_RadBox (name layer)) then
    Qmax (Qmax max_elevation (lower_elevation layer * 1000000)%Q)
         (GetUpperElevation layer * 1000000)%Q
  else max_elevation.

(** Every padstack instance starts and stops on a signal layer of the
    list. *)
Definition padstacks_on (lay_list : list Layer) (ps : list PadstackInstance)
  : Prop :=
  forall p, In p ps ->
            (exists a, In a lay_list /\ name a = start_layer p) /\
            (exists b, In b lay_list /\ name b = stop_layer p).

Definition no_via (lc : LayerCollection) : Prop :=
  forall l, In l (StackupLayerSet lc) -> is_via_layer l = false.

(** A padstack instance on signal layers of the stack, none of them a
    "RadBox" layer, is on signal layers of the flipped stack. *)
Definition padstacks_on_stack (lc : LayerCollection)
           (ps : list PadstackInstance) : Prop :=
  padstacks_on (filter (fun l => negb (has_RadBox (name l)))
                       (SignalLayerSet lc)) ps.

Definition ascending (a b : Layer) : Prop :=
  (lower_elevation a < lower_elevation b)%Q.

(** The layer [x] is the new layer [nl] as far as name and materials
    go. *)
Definition same_stuff (nl x : Layer) : Prop :=
  name x = name nl /\ material x = material nl /\
  fill_material x = fill_material nl.

(** The new layer is in the collection, and every layer of that name
    has its materials. *)
Definition holds_new (n m f : string) (st : Edb) : Prop :=
  (exists x, In x (layers (layer_collection st)) /\ name x = n) /\
  forall x, In x (layers (layer_collection st)) -> name x = n ->
            material x = m /\ fill_material x = f.

(** Name, type and thickness of a layer. *)
Definition view (l : Layer) : string * LayerType * Q :=
  (name l, layer_type l, thickness l).

(** The integers [a], [a + 1], ... , [a + len - 1]. *)
Definition zrange (a : Z) (len : nat) : list Z :=
  map (fun i => (a + Z.of_nat i)%Z) (seq 0 len).

(** The inner signal layers [a] to [a + len - 1], each on its
    dielectric. *)
Definition inner_pairs (inner_layer_thickness dielectric_thickness : Q)
           (a : Z) (len : nat) : list (string * LayerType * Q) :=
  flat_map (fun k => [(("L" ++ str k)%string, SignalLayer, inner_layer_thickness);
                      (("D" ++ str k)%string, DielectricLayer, dielectric_thickness)])
           (zrange a len).

(** A symmetric stack of [layer_count] signal layers, from the top:
    TOP, D1, L2, D2, ... , L(n-1), D(n-1), BOT. *)
Definition symmetric_stack (layer_count : Z)
           (inner_layer_thickness outer_layer_thickness
                                  dielectric_thickness : Q)
  : list (string * LayerType * Q) :=
  ("TOP", SignalLayer, outer_layer_thickness)
    :: (("D" ++ str 1)%string, DielectricLayer, dielectric_thickness)
    :: inner_pairs inner_layer_thickness dielectric_thickness 2
                   (Z.to_nat (layer_count - 2))
    ++ [("BOT", SignalLayer, outer_layer_thickness)].

(** The layers that do not bear the name [n], in their order. *)
Definition others (n : string) (ls : list Layer) : list Layer :=
  filter (fun l => negb (name l =? n)%string) ls.

(** ** What [flip_design] does to the layers *)

Lemma insert_at_elevation_In (l y : Layer) (ls : list Layer) :
  In y (insert_at_elevation l ls) <-> y = l \/ In y ls.
Proof.
  induction ls as [|x xs IH]; simpl.
  - intuition.
  - destruct (negb (IsStackupLayer x)
              || Qle_bool (lower_elevation x) (lower_elevation l)); simpl.
    + intuition.
    + rewrite IH. intuition.
Qed.

Lemma flip_step_fold (M : Q) (ls : list Layer) :
  forall acc,
    let r := fold_left (flip_step M) ls acc in
    mode (fst r) = mode (fst acc) /\
    snd r = snd acc ++ filter (fun l => negb (IsStackupLayer l)) ls /\
    forall y, In y (layers (fst r)) <->
              In y (layers (fst acc)) \/
              exists l, In l ls /\ regular l = true /\ y = flip_layer M l.
Proof.
  induction ls as [|x xs IH]; intros acc; simpl.
  - split; [reflexivity|]. split; [now rewrite app_nil_r|].
    intros y. split; [tauto | intros [H | (l & [] & _)]; exact H].
  - destruct (IH (flip_step M acc x)) as (Hm & Hs & Hin).
    assert (Hreg : regular x
                   = IsStackupLayer x
                     && (negb (has_RadBox (name x))
                         && negb (is_via_layer x))).
    { unfold regular. now rewrite andb_assoc. }
    destruct (IsStackupLayer x) eqn:Est.
    + destruct (negb (has_RadBox (name x)) && negb (is_via_layer x)) eqn:Er.
      * assert (E : flip_step M acc x
                    = (AddStackupLayerAtElevation (flip_layer M x) (fst acc),
                       snd acc)).
        { unfold flip_step. now rewrite Est, Er. }
        rewrite E in Hm, Hs, Hin. rewrite E. simpl in Hm, Hs, Hin. simpl.
        split; [exact Hm|]. split; [exact Hs|].
        intros y. rewrite Hin, insert_at_elevation_In. split.
        -- intros [[-> | H] | (l & Hl & Hr & ->)].
           ++ right. exists x. auto.
           ++ now left.
           ++ right. exists l. auto.
        -- intros [H | (l & [<- | Hl] & Hr & ->)]; auto.
           right. exists l. auto.
      * assert (E : flip_step M acc x = acc).
        { unfold flip_step. now rewrite Est, Er. }
        rewrite E in Hm, Hs, Hin. rewrite E. simpl.
        split; [exact Hm|]. split; [exact Hs|].
        intros y. rewrite Hin. split.
        -- intros [H | (l & Hl & Hr & ->)]; [now left|].
           right. exists l. auto.
        -- intros [H | (l & [<- | Hl] & Hr & ->)]; auto.
           ++ simpl in Hreg. congruence.
           ++ right. exists l. auto.
    + assert (E : flip_step M acc x = (fst acc, snd acc ++ [x])).
      { unfold flip_step. now rewrite Est. }
      rewrite E in Hm, Hs, Hin. rewrite E. simpl in Hm, Hs, Hin. simpl.
      split; [exact Hm|]. split; [now rewrite Hs, <- app_assoc|].
      intros y. rewrite Hin. split.
      * intros [H | (l & Hl & Hr & ->)]; [now left|].
        right. exists l. auto.
      * intros [H | (l & [<- | Hl] & Hr & ->)]; auto.
        -- simpl in Hreg. congruence.
        -- right. exists l. auto.
Qed.

Lemma first_named_Some (n : string) (ls : list Layer) (l : Layer) :
  first_named n ls = Some l -> In l ls /\ name l = n.
Proof.
  unfold first_named. intros H. apply find_some in H.
  destruct H as [Hin Hn]. now apply String.eqb_eq in Hn.
Qed.

Lemma flip_via_fold (lc : LayerCollection) (vs : list Layer) :
  forall c c',
    fold_left (flip_via lc) vs (Some c) = Some c' ->
    mode c' = mode c /\
    (forall y, In y (layers c) -> In y (layers c')) /\
    (forall v, In v vs ->
               exists v' r, In v' (layers c') /\ In r (layers c') /\
                            flipped_via v v' r) /\
    (forall y, In y (layers c') ->
               In y (layers c) \/
               exists v r, In v vs /\ flipped_via v y r).
Proof.
  induction vs as [|v vs IH]; intros c c'; simpl.
  - intros H. injection H as <-. repeat split; auto. intros v [].
  - destruct (first_named (upper_ref_layer v) (AllLayerSet lc))
      as [upper_ref|] eqn:Eu.
    2:{ simpl. intros H. exfalso. clear -H.
        induction vs as [|w ws IHw]; simpl in H; [discriminate | auto]. }
    destruct (first_named (lower_ref_layer v) (AllLayerSet lc))
      as [lower_ref|] eqn:El.
    2:{ simpl. intros H. exfalso. clear -H.
        induction vs as [|w ws IHw]; simpl in H; [discriminate | auto]. }
    destruct (first_named (upper_ref_layer v) (AllLayerSet c))
      as [r|] eqn:Er.
    2:{ simpl. intros H. exfalso. clear -H.
        induction vs as [|w ws IHw]; simpl in H; [discriminate | auto]. }
    intros H. apply IH in H. destruct H as (Hm & Hkeep & Hvs & Hall).
    apply first_named_Some in Eu, El, Er.
    destruct Eu as [_ Eu], El as [_ El], Er as [Hr Ern].
    set (v' := SetLowerElevation (lower_elevation r + thickness r)%Q
                 (SetRefLayers (name lower_ref) (name upper_ref) v)) in *.
    assert (Hfv : flipped_via v v' r).
    { unfold flipped_via, v'. simpl. auto 10. }
    split; [exact Hm|]. split; [|split].
    + intros y Hy. apply Hkeep. simpl. apply insert_at_elevation_In. auto.
    + intros w [<- | Hw].
      * exists v', r. split; [|split; [|exact Hfv]].
        -- apply Hkeep. simpl. apply insert_at_elevation_In. auto.
        -- apply Hkeep. simpl. apply insert_at_elevation_In. auto.
      * apply Hvs, Hw.
    + intros y Hy. destruct (Hall y Hy) as [Hold | (w & r' & Hw & Hf)].
      * simpl in Hold. apply insert_at_elevation_In in Hold.
        destruct Hold as [-> | Hold]; [|now left].
        right. exists v, r. auto.
      * right. exists w, r'. auto.
Qed.

(** The layers of the collection [flip_design] hands to the layout. *)
Lemma flip_collection_layers (lc new_lc : LayerCollection) :
  flip_collection lc = Some new_lc ->
  let M := max_elevation lc in
  mode new_lc = mode lc /\
  (forall l, In l (layers lc) -> regular l = true ->
             In (flip_layer M l) (layers new_lc)) /\
  (forall l, In l (layers lc) -> IsStackupLayer l = false ->
             In l (layers new_lc)) /\
  (forall v, In v (layers lc) -> IsStackupLayer v = true ->
             is_via_layer v = true ->
             exists v' r, In v' (layers new_lc) /\ In r (layers new_lc) /\
                          flipped_via v v' r) /\
  (forall y, In y (layers new_lc) ->
             (exists l, In l (layers lc) /\ regular l = true /\
                        y = flip_layer M l)
             \/ (In y (layers lc) /\ IsStackupLayer y = false)
             \/ (exists v r, In v (layers lc) /\ IsStackupLayer v = true /\
                             is_via_layer v = true /\ flipped_via v y r)).
Proof.
  unfold flip_collection. intros H. cbv zeta.
  destruct (fold_left (flip_step (max_elevation lc)) (AllLayerSet lc)
                      (SetMode (mode lc) empty_collection, []))
    as [c ns] eqn:Ef.
  destruct (flip_step_fold (max_elevation lc) (AllLayerSet lc)
                           (SetMode (mode lc) empty_collection, []))
    as (Hm & Hs & Hin).
  rewrite Ef in Hm, Hs, Hin. simpl in Hm, Hs, Hin.
  destruct (fold_left (flip_via lc) (filter is_via_layer (StackupLayerSet lc))
                      (Some c)) as [c'|] eqn:Ev; [|discriminate].
  injection H as <-.
  destruct (flip_via_fold lc _ _ _ Ev) as (Hm' & Hkeep & Hvs & Hall).
  simpl. split; [congruence|]. split; [|split; [|split]].
  - intros l Hl Hr. apply in_or_app. left. apply Hkeep, Hin.
    right. exists l. auto.
  - intros l Hl Hns. apply in_or_app. right. rewrite Hs.
    apply filter_In. split; [exact Hl | now rewrite Hns].
  - intros v Hv Hst Hvia.
    destruct (Hvs v) as (v' & r & Hv' & Hr & Hf).
    + apply filter_In. split; [|exact Hvia].
      apply filter_In. split; assumption.
    + exists v', r. split; [|split; [|exact Hf]]; apply in_or_app; now left.
  - intros y Hy. apply in_app_or in Hy. destruct Hy as [Hy | Hy].
    + destruct (Hall y Hy) as [Hold | (v & r & Hv & Hf)].
      * apply Hin in Hold. destruct Hold as [[] | Hold]. now left.
      * right. right. apply filter_In in Hv. destruct Hv as [Hv Hvia].
        apply filter_In in Hv. destruct Hv as [Hv Hst].
        exists v, r. auto.
    + right. left. rewrite Hs in Hy. apply filter_In in Hy.
      destruct Hy as [Hy Hns]. split; [exact Hy|].
      now apply negb_true_iff in Hns.
Qed.

Lemma scan_elevation_lub (ls : list Layer) :
  forall (m0 X : Q),
    (fold_left scan_elevation ls m0 <= X)%Q <->
    (m0 <= X)%Q /\
    forall l, In l ls -> has_RadBox (name l) = false ->
              (lower_elevation l * 1000000 <= X)%Q /\
              (GetUpperElevation l * 1000000 <= X)%Q.
Proof.
  induction ls as [|x xs IH]; intros m0 X; simpl.
  - split; [intros H; split; [exact H | intros l []] | tauto].
  - rewrite IH. unfold scan_elevation.
    destruct (has_RadBox (name x)) eqn:Er; simpl.
    + split.
      * intros [H0 Hl]. split; [exact H0|].
        intros l [<- | Hin] Hnr; [congruence | auto].
      * intros [H0 Hl]. split; [exact H0|]. intros l Hin. apply Hl. now right.
    + rewrite !Q.max_lub_iff. split.
      * intros [[[H0 H1] H2] Hl]. split; [exact H0|].
        intros l [<- | Hin] Hnr; auto.
      * intros [H0 Hl]. destruct (Hl x (or_introl eq_refl) Er) as [H1 H2].
        split; [repeat split; assumption|].
        intros l Hin. apply Hl. now right.
Qed.

Lemma scan_elevation_attained (ls : list Layer) :
  forall m0 : Q,
    (fold_left scan_elevation ls m0 == m0)%Q \/
    exists l, In l ls /\ has_RadBox (name l) = false /\
              ((fold_left scan_elevation ls m0
                == lower_elevation l * 1000000)%Q \/
               (fold_left scan_elevation ls m0
                == GetUpperElevation l * 1000000)%Q).
Proof.
  induction ls as [|x xs IH]; intros m0; simpl.
  - left. reflexivity.
  - destruct (has_RadBox (name x)) eqn:Er.
    + assert (E : scan_elevation m0 x = m0)
        by (unfold scan_elevation; now rewrite Er).
      rewrite E. destruct (IH m0) as [Heq | (l & Hl & Hr & Hv)].
      * now left.
      * right. exists l. split; [now right | auto].
    + assert (E : scan_elevation m0 x
                  = Qmax (Qmax m0 (lower_elevation x * 1000000)%Q)
                         (GetUpperElevation x * 1000000)%Q)
        by (unfold scan_elevation; now rewrite Er).
      rewrite E.
      destruct (IH (Qmax (Qmax m0 (lower_elevation x * 1000000)%Q)
                         (GetUpperElevation x * 1000000)%Q))
        as [Heq | (l & Hl & Hr & Hv)].
      * destruct (Q.max_spec (Qmax m0 (lower_elevation x * 1000000))
                             (GetUpperElevation x * 1000000))
          as [[_ E1] | [_ E1]].
        -- right. exists x. split; [now left|]. split; [exact Er|].
           right. now rewrite Heq.
        -- destruct (Q.max_spec m0 (lower_elevation x * 1000000))
             as [[_ E2] | [_ E2]].
           ++ right. exists x. split; [now left|]. split; [exact Er|].
              left. now rewrite Heq, E1.
           ++ left. now rewrite Heq, E1.
      * right. exists l. split; [now right | auto].
Qed.

Lemma max_elevation_fold (lc : LayerCollection) :
  max_elevation lc = fold_left scan_elevation (StackupLayerSet lc) 0%Q.
Proof. reflexivity. Qed.

Lemma max_elevation_lub (lc : LayerCollection) (X : Q) :
  (max_elevation lc <= X)%Q <->
  (0 <= X)%Q /\
  forall l, In l (StackupLayerSet lc) -> has_RadBox (name l) = false ->
            (lower_elevation l * 1000000 <= X)%Q /\
            (GetUpperElevation l * 1000000 <= X)%Q.
Proof. rewrite max_elevation_fold. apply scan_elevation_lub. Qed.

Lemma flip_layer_fields (M : Q) (l : Layer) :
  name (flip_layer M l) = name l /\
  layer_type (flip_layer M l) = layer_type l /\
  is_via_layer (flip_layer M l) = is_via_layer l /\
  thickness (flip_layer M l) = thickness l /\
  lower_elevation (flip_layer M l)
  = edb_value_um (M - GetUpperElevation l * 1000000)%Q /\
  top_bottom_association (flip_layer M l)
  = invert (top_bottom_association l).
Proof.
  unfold flip_layer. simpl.
  destruct (top_bottom_association l); simpl; auto 10.
Qed.

Lemma flip_design_true (st st' : Edb) :
  flip_design st = (true, st') ->
  exists new_lc,
    flip_collection (layer_collection st) = Some new_lc /\
    accepts new_lc = true /\
    layer_collection st' = new_lc.
Proof.
  unfold flip_design, SetLayerCollection.
  destruct (flip_collection (layer_collection st)) as [c|]; [|discriminate].
  destruct (accepts c) eqn:Ea; [|discriminate].
  simpl.
  destruct (remap_padstacks (SignalLayerSet c) (padstack_instances st))
    as [ok ps].
  intros H. injection H as -> <-. exists c. auto.
Qed.

Lemma first_named_found (n : string) (ls : list Layer) :
  (exists x, In x ls /\ name x = n) ->
  exists l, first_named n ls = Some l.
Proof.
  intros (x & Hx & Hn). unfold first_named.
  destruct (find (fun lay => (name lay =? n)%string) ls) as [l|] eqn:E.
  - now exists l.
  - apply (find_none _ _ E) in Hx. rewrite Hn, String.eqb_refl in Hx.
    discriminate.
Qed.

Lemma remap_padstacks_ok (lay_list : list Layer) (ps : list PadstackInstance) :
  padstacks_on lay_list ps ->
  exists ps',
    remap_padstacks lay_list ps = (true, ps') /\
    map start_layer ps' = map start_layer ps /\
    map stop_layer ps' = map stop_layer ps.
Proof.
  induction ps as [|p ps IH]; intros Hon; simpl.
  - exists []. auto.
  - destruct (Hon p (or_introl eq_refl)) as [Ha Hb].
    destruct (first_named_found _ _ Ha) as (a & ->).
    destruct (first_named_found _ _ Hb) as (b & ->).
    destruct IH as (ps' & -> & Hs & Ht).
    { intros q Hq. apply Hon. now right. }
    eexists. split; [reflexivity|]. simpl. now rewrite Hs, Ht.
Qed.

(** When the three lookups of every via layer succeed, the layout takes
    the collection and every padstack instance is on signal layers of the
    flipped stack, [flip_design] returns [True] with the flipped
    collection in place. *)
Lemma flip_design_succeeds (st : Edb) (c : LayerCollection) :
  flip_collection (layer_collection st) = Some c ->
  accepts c = true ->
  padstacks_on (SignalLayerSet c) (padstack_instances st) ->
  fst (flip_design st) = true /\
  layer_collection (snd (flip_design st)) = c /\
  map start_layer (padstack_instances (snd (flip_design st)))
  = map start_layer (padstack_instances st) /\
  map stop_layer (padstack_instances (snd (flip_design st)))
  = map stop_layer (padstack_instances st).
Proof.
  intros Hc Ha Hon. unfold flip_design, SetLayerCollection. rewrite Hc, Ha.
  simpl.
  destruct (remap_padstacks_ok _ _ Hon) as (ps' & -> & Hs & Ht).
  simpl. auto.
Qed.

(** C4 (as amended).  When [flip_design] succeeds, every stackup layer
    that is not a via layer and has no "RadBox" in its name is in the
    new collection with lower elevation [max_elevation] minus its old
    upper elevation, the same thickness and the other top/bottom
    association; [max_elevation] is the largest of 0 and the lower and
    upper elevations of the stackup layers without "RadBox" in their
    name.  Every non-stackup layer is in the new collection as it was.
    Every via layer is there with its two reference names swapped and
    its lower elevation at the upper elevation, in the flipped
    collection, of the layer that bears the name of its former upper
    reference. *)
Theorem flip_design_mirrors_layers (st st' : Edb) :
  flip_design st = (true, st') ->
  let lc := layer_collection st in
  let new_lc := layer_collection st' in
  let M := max_elevation lc in
  ((0 <= M)%Q /\
   (forall l, In l (StackupLayerSet lc) -> has_RadBox (name l) = false ->
              (lower_elevation l * 1000000 <= M)%Q /\
              (GetUpperElevation l * 1000000 <= M)%Q) /\
   ((M == 0)%Q \/
    exists l, In l (StackupLayerSet lc) /\ has_RadBox (name l) = false /\
              ((M == lower_elevation l * 1000000)%Q \/
               (M == GetUpperElevation l * 1000000)%Q))) /\
  (forall l, In l (layers lc) ->
             IsStackupLayer l = true -> is_via_layer l = false ->
             has_RadBox (name l) = false ->
             exists l', In l' (layers new_lc) /\
                        name l' = name l /\
                        (lower_elevation l'
                         == M * (1 # 1000000) - GetUpperElevation l)%Q /\
                        thickness l' = thickness l /\
                        top_bottom_association l'
                        = invert (top_bottom_association l)) /\
  (forall l, In l (layers lc) -> IsStackupLayer l = false ->
             In l (layers new_lc)) /\
  (forall v, In v (layers lc) ->
             IsStackupLayer v = true -> is_via_layer v = true ->
             exists v' r, In v' (layers new_lc) /\ In r (layers new_lc) /\
                          flipped_via v v' r).
Proof.
  intros Hrun. cbv zeta.
  destruct (flip_design_true st st' Hrun) as (c & Hc & _ & ->).
  destruct (flip_collection_layers _ _ Hc) as (_ & Hreg & Hns & Hvia & _).
  split; [|split; [|split]].
  - assert (Hle : (max_elevation (layer_collection st)
                   <= max_elevation (layer_collection st))%Q)
      by apply Qle_refl.
    apply max_elevation_lub in Hle. destruct Hle as [H0 Hl].
    split; [exact H0|]. split; [exact Hl|].
    rewrite max_elevation_fold. apply scan_elevation_attained.
  - intros l Hl Hst Hv Hr.
    exists (flip_layer (max_elevation (layer_collection st)) l).
    destruct (flip_layer_fields (max_elevation (layer_collection st)) l)
      as (Hn & _ & _ & Ht & He & Ha).
    split; [|split; [exact Hn | split; [|split; [exact Ht | exact Ha]]]].
    + apply Hreg; [exact Hl|]. unfold regular. now rewrite Hst, Hv, Hr.
    + rewrite He. unfold edb_value_um. lra.
  - exact Hns.
  - exact Hvia.
Qed.

(** ** Flipping twice *)

Lemma filter_nil {A : Type} (f : A -> bool) (l : list A) :
  (forall x, In x l -> f x = false) -> filter f l = [].
Proof.
  induction l as [|x xs IH]; simpl; intros H; [reflexivity|].
  rewrite (H x (or_introl eq_refl)). apply IH. intros y Hy. apply H. now right.
Qed.

Lemma flip_collection_no_via (lc : LayerCollection) :
  no_via lc -> exists c, flip_collection lc = Some c.
Proof.
  intros Hnv. unfold flip_collection.
  destruct (fold_left (flip_step (max_elevation lc)) (AllLayerSet lc)
                      (SetMode (mode lc) empty_collection, [])) as [c ns].
  rewrite (filter_nil is_via_layer (StackupLayerSet lc) Hnv). simpl.
  eexists. reflexivity.
Qed.

Lemma stackup_set_In (lc : LayerCollection) (l : Layer) :
  In l (StackupLayerSet lc) <-> In l (layers lc) /\ IsStackupLayer l = true.
Proof. unfold StackupLayerSet. apply filter_In. Qed.

Lemma regular_flip_layer (M : Q) (l : Layer) :
  regular (flip_layer M l) = regular l.
Proof.
  destruct (flip_layer_fields M l) as (Hn & Ht & Hv & _).
  unfold regular, IsStackupLayer. now rewrite Hn, Ht, Hv.
Qed.

(** Without via layers the stackup layers of the flipped collection
    are the flipped layers. *)
Lemma flipped_stackup_set (lc c : LayerCollection) (y : Layer) :
  no_via lc -> flip_collection lc = Some c ->
  In y (StackupLayerSet c) ->
  exists l, In l (layers lc) /\ regular l = true /\
            y = flip_layer (max_elevation lc) l.
Proof.
  intros Hnv Hc Hy. apply stackup_set_In in Hy. destruct Hy as [Hy Hst].
  destruct (flip_collection_layers _ _ Hc) as (_ & _ & _ & _ & Hall).
  destruct (Hall y Hy) as [H | [[_ Hns] | (v & r & Hv & Hvs & Hvia & _)]].
  - exact H.
  - congruence.
  - rewrite (Hnv v) in Hvia; [discriminate|]. now apply stackup_set_In.
Qed.

Lemma regular_true (l : Layer) :
  regular l = true <->
  IsStackupLayer l = true /\ has_RadBox (name l) = false /\
  is_via_layer l = false.
Proof.
  unfold regular. rewrite !andb_true_iff, !negb_true_iff. tauto.
Qed.

(** A stack that stands on elevation 0: the second [max_elevation] is
    the first. *)
Lemma max_elevation_flipped (lc c : LayerCollection) :
  no_via lc ->
  (forall l, In l (StackupLayerSet lc) -> has_RadBox (name l) = false ->
             (0 <= lower_elevation l)%Q /\ (0 <= thickness l)%Q) ->
  (exists l0, In l0 (StackupLayerSet lc) /\ has_RadBox (name l0) = false /\
              (lower_elevation l0 == 0)%Q) ->
  flip_collection lc = Some c ->
  (max_elevation c == max_elevation lc)%Q.
Proof.
  intros Hnv Hpos (l0 & Hl0 & Hr0 & Hz) Hc.
  assert (Hle0 : (max_elevation lc <= max_elevation lc)%Q) by apply Qle_refl.
  apply max_elevation_lub in Hle0. destruct Hle0 as [H0 Hb].
  apply Qle_antisym.
  - apply max_elevation_lub. split; [exact H0|].
    intros y Hy Hry.
    destruct (flipped_stackup_set lc c y Hnv Hc Hy) as (l & Hl & Hreg & ->).
    apply regular_true in Hreg. destruct Hreg as (Hst & Hr & _).
    destruct (Hpos l) as [Hlo Hth]; [now apply stackup_set_In | exact Hr|].
    destruct (flip_layer_fields (max_elevation lc) l)
      as (_ & _ & _ & Ht & He & _).
    unfold GetUpperElevation. rewrite He, Ht.
    unfold edb_value_um, GetUpperElevation. split; lra.
  - assert (Hle1 : (max_elevation c <= max_elevation c)%Q) by apply Qle_refl.
    apply max_elevation_lub in Hle1. destruct Hle1 as [_ Hb1].
    destruct (flip_collection_layers _ _ Hc) as (_ & Hreg & _).
    apply stackup_set_In in Hl0. destruct Hl0 as [Hin0 Hst0].
    assert (Hr : regular l0 = true).
    { apply regular_true. repeat split; auto.
      apply Hnv. now apply stackup_set_In. }
    destruct (Hb1 (flip_layer (max_elevation lc) l0)) as [_ Hup].
    + apply stackup_set_In. split; [now apply Hreg|].
      destruct (flip_layer_fields (max_elevation lc) l0) as (_ & Ht & _).
      unfold IsStackupLayer in *. now rewrite Ht.
    + destruct (flip_layer_fields (max_elevation lc) l0) as (Hn & _).
      now rewrite Hn.
    + destruct (flip_layer_fields (max_elevation lc) l0)
        as (_ & _ & _ & Ht & He & _).
      unfold GetUpperElevation in Hup. rewrite He, Ht in Hup.
      unfold edb_value_um, GetUpperElevation in Hup.
      destruct (Hpos l0) as [_ Hth];
        [now apply stackup_set_In | exact Hr0|].
      lra.
Qed.

Lemma invert_invert (t : TopBottomAssociation) : invert (invert t) = t.
Proof. now destruct t. Qed.

Lemma padstacks_on_flipped (lc c : LayerCollection)
      (ps ps' : list PadstackInstance) :
  no_via lc -> flip_collection lc = Some c ->
  padstacks_on_stack lc ps ->
  map start_layer ps' = map start_layer ps ->
  map stop_layer ps' = map stop_layer ps ->
  padstacks_on (SignalLayerSet c) ps' /\ padstacks_on_stack c ps'.
Proof.
  intros Hnv Hc Hon Hs Ht.
  destruct (flip_collection_layers _ _ Hc) as (_ & Hreg & _).
  assert (Hmove : forall n,
             (exists a, In a (filter (fun l => negb (has_RadBox (name l)))
                                     (SignalLayerSet lc)) /\ name a = n) ->
             exists a', In a' (filter (fun l => negb (has_RadBox (name l)))
                                      (SignalLayerSet c)) /\ name a' = n).
  { intros n (a & Ha & Hn). apply filter_In in Ha. destruct Ha as [Ha Hr].
    apply filter_In in Ha. destruct Ha as [Ha Hsig].
    apply negb_true_iff in Hr.
    assert (Hst : IsStackupLayer a = true).
    { unfold IsStackupLayer, IsSignalLayer in *.
      destruct (layer_type a); congruence. }
    destruct (flip_layer_fields (max_elevation lc) a) as (Hfn & Hft & _).
    exists (flip_layer (max_elevation lc) a). split; [|congruence].
    apply filter_In. split; [|now rewrite Hfn, Hr].
    apply filter_In. split.
    - apply Hreg; [exact Ha|]. apply regular_true. repeat split; auto.
      apply Hnv. now apply stackup_set_In.
    - unfold IsSignalLayer in *. now rewrite Hft. }
  assert (Hstack : padstacks_on_stack c ps').
  { intros p' Hp'.
    assert (Hex : exists p, In p ps /\ start_layer p = start_layer p' /\
                            stop_layer p = stop_layer p').
    { clear -Hp' Hs Ht. revert ps Hs Ht.
      induction ps' as [|q qs IH]; intros ps Hs Ht; [contradiction|].
      destruct ps as [|r rs]; [discriminate|].
      simpl in Hs, Ht. injection Hs as Hs1 Hs2. injection Ht as Ht1 Ht2.
      destruct Hp' as [<- | Hp'].
      - exists r. split; [now left | auto].
      - destruct (IH Hp' rs Hs2 Ht2) as (p & Hp & H1 & H2).
        exists p. split; [now right | auto]. }
    destruct Hex as (p & Hp & <- & <-).
    destruct (Hon p Hp) as [Ha Hb]. split; apply Hmove; assumption. }
  split; [|exact Hstack].
  intros p' Hp'. destruct (Hstack p' Hp') as [(a & Ha & Han) (b & Hb & Hbn)].
  apply filter_In in Ha, Hb. destruct Ha as [Ha _], Hb as [Hb _].
  split; eauto.
Qed.


(** ** Thickness and limits *)

Lemma last_cons {A : Type} (x d : A) (xs : list A) :
  last (x :: xs) d = last xs x.
Proof.
  revert x d. induction xs as [|y ys IH]; intros x d; [reflexivity|].
  change (last (x :: y :: ys) d) with (last (y :: ys) d).
  rewrite IH. symmetry. apply IH.
Qed.

Lemma higher_ascending (rest : list Layer) :
  forall first, StronglySorted ascending (first :: rest) ->
                fold_left higher rest first = last rest first.
Proof.
  induction rest as [|x xs IH]; intros first Hs; [reflexivity|].
  inversion Hs as [|? ? Hs' Hall]; subst.
  inversion Hall as [|? ? Hx _]; subst.
  simpl fold_left. unfold higher at 2.
  destruct (Qlt_le_dec (lower_elevation first) (lower_elevation x))
    as [_ | Hle].
  - rewrite (IH x Hs'). symmetry. apply last_cons.
  - unfold ascending in Hx. lra.
Qed.

Lemma deeper_ascending (rest : list Layer) (first : Layer) :
  Forall (ascending first) rest -> fold_left deeper rest first = first.
Proof.
  induction rest as [|x xs IH]; intros Hall; [reflexivity|].
  inversion Hall as [|? ? Hx Hxs]; subst.
  simpl. unfold deeper at 2.
  destruct (Qlt_le_dec (lower_elevation x) (lower_elevation first))
    as [Hlt | _].
  - unfold ascending in Hx. lra.
  - now apply IH.
Qed.


(** ** Removing a layer *)

Lemma remove_fold (n : string) (ls : list Layer) :
  forall c,
    fold_left (fun c lyr => if negb (name lyr =? n)%string
                            then AddLayerBottom lyr c else c) ls c
    = mkLC (mode c)
           (layers c ++ filter (fun l => negb (name l =? n)%string) ls).
Proof.
  induction ls as [|x xs IH]; intros c; simpl.
  - rewrite app_nil_r. now destruct c.
  - rewrite IH. destruct (negb (name x =? n)%string); simpl.
    + now rewrite <- app_assoc.
    + reflexivity.
Qed.

Lemma filter_all {A : Type} (f : A -> bool) (l : list A) :
  (forall x, In x l -> f x = true) -> filter f l = l.
Proof.
  induction l as [|x xs IH]; simpl; intros H; [reflexivity|].
  rewrite (H x (or_introl eq_refl)). f_equal. apply IH.
  intros y Hy. apply H. now right.
Qed.


(** ** Adding a layer *)

Lemma insert_at_elevation_length (l : Layer) (ls : list Layer) :
  List.length (insert_at_elevation l ls) = S (List.length ls).
Proof.
  induction ls as [|x xs IH]; simpl; [reflexivity|].
  destruct (negb (IsStackupLayer x)
            || Qle_bool (lower_elevation x) (lower_elevation l)); simpl;
    [reflexivity | now rewrite IH].
Qed.

Lemma place_on_three (st : Edb) (nl : Layer) (method : string)
      (base : option string) :
  (forall c, accepts c = true) ->
  In method ["add_on_top"; "add_on_bottom"; "add_at_elevation"] ->
  let st1 := snd (_set_layout_stackup st nl method base) in
  log st1 = log st /\
  materials st1 = materials st /\
  List.length (layers (layer_collection st1))
  = S (List.length (layers (layer_collection st))) /\
  (exists x, In x (layers (layer_collection st1)) /\ same_stuff nl x) /\
  (forall x, In x (layers (layer_collection st1)) ->
             In x (layers (layer_collection st)) \/ same_stuff nl x).
Proof.
  intros Hacc Hm. cbv zeta. unfold _set_layout_stackup, SetLayerCollection.
  rewrite Hacc. simpl snd.
  destruct Hm as [<- | [<- | [<- | []]]]; simpl.
  - repeat split; auto.
    + eexists. split; [left; reflexivity|].
      unfold same_stuff. destruct (IsStackupLayer nl); simpl; auto.
    + intros x [<- | Hx]; [right | now left].
      unfold same_stuff. destruct (IsStackupLayer nl); simpl; auto.
  - repeat split; auto.
    + rewrite length_app. simpl. lia.
    + exists nl. split; [apply in_or_app; right; now left|].
      unfold same_stuff. auto.
    + intros x Hx. apply in_app_or in Hx.
      destruct Hx as [Hx | [<- | []]]; [now left | right].
      unfold same_stuff. auto.
  - repeat split; auto.
    + apply insert_at_elevation_length.
    + exists nl. split; [apply insert_at_elevation_In; now left|].
      unfold same_stuff. auto.
    + intros x Hx. apply insert_at_elevation_In in Hx.
      destruct Hx as [-> | Hx]; [right | now left].
      unfold same_stuff. auto.
Qed.

Lemma update_layer_holds (n m f : string) (g : Layer -> Layer) (st : Edb) :
  (forall x, name (g x) = name x /\ material (g x) = material x /\
             fill_material (g x) = fill_material x) ->
  holds_new n m f st ->
  holds_new n m f (update_layer n g st) /\
  log (update_layer n g st) = log st.
Proof.
  intros Hg [(x & Hx & Hn) Hall]. split; [|reflexivity]. split.
  - exists (if (name x =? n)%string then g x else x). split.
    + simpl. apply in_map_iff. exists x. auto.
    + destruct (name x =? n)%string; [|exact Hn].
      destruct (Hg x) as (-> & _). exact Hn.
  - intros y Hy Hyn. simpl in Hy. apply in_map_iff in Hy.
    destruct Hy as (z & <- & Hz).
    destruct (name z =? n)%string eqn:E.
    + destruct (Hg z) as (Hgn & -> & ->). apply Hall; [exact Hz|].
      now apply String.eqb_eq.
    + now apply Hall.
Qed.

Lemma place_new_layer_creates (st : Edb) (layer_name : string)
      (base_layer : option string)
      (method layer_type mat fil : string) (thickness : Q)
      (etch_factor : option Q) (is_negative enable_roughness : bool)
      (elevation : option Q) :
  (forall c, accepts c = true) ->
  ~ In layer_name (map name (_edb_layer_list st)) ->
  In layer_type ["signal"; "dielectric"] ->
  In method ["add_on_top"; "add_on_bottom"; "add_at_elevation"] ->
  exists l st',
    place_new_layer st layer_name base_layer method layer_type mat
                    fil thickness etch_factor is_negative
                    enable_roughness elevation = (Some l, st') /\
    name l = layer_name /\
    In l (layers (layer_collection st')) /\
    material l = mat /\
    (layer_type = "signal" -> fill_material l = fil) /\
    log st' = log st.
Proof.
  intros Hacc Hfresh Htype Hm. unfold place_new_layer.
  assert (Hst : str_in layer_type ["signal"; "dielectric"] = true)
    by now apply str_in_true.
  rewrite Hst.
  set (f := if (layer_type =? "dielectric")%string then "" else fil).
  set (nl0 := SetNegative is_negative
                (if negb (layer_type =? "dielectric")%string
                 then SetFillMaterial fil
                        (SetMaterial mat
                           (_create_stackup_layer st layer_name thickness
                                                  layer_type))
                 else SetMaterial mat
                        (_create_stackup_layer st layer_name thickness
                                               layer_type))).
  set (nl := match elevation with
             | Some e =>
                 if (method =? "add_at_elevation")%string && truthy elevation
                 then SetLowerElevation e nl0 else nl0
             | None => nl0
             end).
  assert (Hnl : name nl = layer_name /\ material nl = mat /\
                fill_material nl = f).
  { unfold nl, nl0, f.
    destruct elevation as [e|];
      [destruct ((method =? "add_at_elevation")%string
                 && truthy (Some e))|];
      destruct (layer_type =? "dielectric")%string; simpl; auto. }
  destruct Hnl as (Hn & Hmat & Hfill).
  destruct (place_on_three st nl method base_layer Hacc Hm)
    as (Hlog & _ & Hlen & (x & Hx & Hxs) & Hall).
  set (st1 := snd (_set_layout_stackup st nl method base_layer)) in *.
  assert (Hne : (List.length (_edb_layer_list st1)
                 =? List.length (_edb_layer_list st))%nat = false).
  { apply Nat.eqb_neq. unfold _edb_layer_list, AllLayerSet. lia. }
  rewrite Hne.
  assert (H1 : holds_new layer_name mat f st1).
  { split.
    - exists x. split; [exact Hx|]. destruct Hxs as (-> & _). exact Hn.
    - intros y Hy Hyn. destruct (Hall y Hy) as [Hold | (_ & -> & ->)].
      + elim Hfresh. rewrite <- Hyn. now apply in_map.
      + auto. }
  assert (Hfin : forall s, holds_new layer_name mat f s ->
                           log s = log st ->
                           exists l, layers_get s layer_name = Some l /\
                                     name l = layer_name /\
                                     In l (layers (layer_collection s)) /\
                                     material l = mat /\
                                     (layer_type = "signal" ->
                                      fill_material l = fil)).
  { intros s [Hex Hal] _.
    destruct (first_named_found layer_name (_edb_layer_list s) Hex)
      as (l & Hl).
    exists l. split; [exact Hl|].
    apply first_named_Some in Hl. destruct Hl as [Hin Hln].
    destruct (Hal l Hin Hln) as [Hlm Hlf].
    repeat split; auto. intros ->. rewrite Hlf. reflexivity. }
  assert (Hget : forall s, holds_new layer_name mat f s ->
                           exists l, layers_get s layer_name = Some l).
  { intros s [Hex _]. now apply first_named_found. }
  assert (He : exists s2,
             (if truthy etch_factor
              then match layers_get st1 layer_name, etch_factor with
                   | Some _, Some e =>
                       Some (update_layer layer_name (set_etch_factor e) st1)
                   | _, _ => None
                   end
              else Some st1) = Some s2 /\
             holds_new layer_name mat f s2 /\ log s2 = log st).
  { destruct (truthy etch_factor) eqn:Et.
    - destruct etch_factor as [e|]; [|discriminate].
      destruct (Hget st1 H1) as (l & ->).
      eexists. split; [reflexivity|].
      destruct (update_layer_holds layer_name mat f
                                   (set_etch_factor e) st1) as [H2 Hl2];
        [intros; simpl; auto | exact H1 |].
      split; [exact H2 | congruence].
    - exists st1. auto. }
  destruct He as (s2 & -> & H2 & Hlog2).
  assert (Hr : exists s3,
             (if enable_roughness
              then match layers_get s2 layer_name with
                   | Some _ =>
                       Some (update_layer layer_name
                                          (set_roughness_enabled true) s2)
                   | None => None
                   end
              else Some s2) = Some s3 /\
             holds_new layer_name mat f s3 /\ log s3 = log st).
  { destruct enable_roughness.
    - destruct (Hget s2 H2) as (l & ->).
      eexists. split; [reflexivity|].
      destruct (update_layer_holds layer_name mat f
                                   (set_roughness_enabled true) s2)
        as [H3 Hl3]; [intros; simpl; auto | exact H2 |].
      split; [exact H3 | congruence].
    - exists s2. auto. }
  destruct Hr as (s3 & -> & H3 & Hlog3).
  destruct (Hfin s3 H3 Hlog3) as (l & Hl & Hln & Hlin & Hlm & Hlf).
  exists l, s3. rewrite Hl. auto 10.
Qed.

Lemma resolve_material_spec (st : Edb) (m : string) :
  let r := resolve_material st m in
  layer_collection (snd r) = layer_collection st /\
  materials (snd r) = materials st /\
  (forall e, In e (log st) -> In e (log (snd r))) /\
  (materials_lower_get st (lower m) = None ->
   fst r = m /\
   In (LogError (m ++ " does not exist in material library"))
      (log (snd r))).
Proof.
  cbv zeta. unfold resolve_material.
  destruct (materials_lower_get st (lower m)); simpl.
  - repeat split; auto; discriminate.
  - split; [reflexivity|]. split; [reflexivity|]. split.
    + intros e He. apply in_or_app. now left.
    + intros _. split; [reflexivity|]. apply in_or_app. right. now left.
Qed.


(** ** Further properties of the stackup *)

Lemma first_named_absent (n : string) (ls : list Layer) :
  ~ In n (map name ls) -> first_named n ls = None.
Proof.
  unfold first_named. induction ls as [|x xs IH]; simpl; [reflexivity|].
  intros H. destruct (name x =? n)%string eqn:E.
  - apply String.eqb_eq in E. elim H. now left.
  - apply IH. tauto.
Qed.

Lemma others_fresh (n : string) (ls : list Layer) :
  ~ In n (map name ls) -> others n ls = ls.
Proof.
  intros H. apply filter_all. intros x Hx.
  apply negb_true_iff, String.eqb_neq. intros <-.
  apply H. now apply in_map.
Qed.

Lemma others_insert_at_elevation (l : Layer) (ls : list Layer) :
  others (name l) (insert_at_elevation l ls) = others (name l) ls.
Proof.
  unfold others. induction ls as [|x xs IH]; simpl.
  - now rewrite String.eqb_refl.
  - destruct (negb (IsStackupLayer x)
              || Qle_bool (lower_elevation x) (lower_elevation l)); simpl.
    + now rewrite String.eqb_refl.
    + now rewrite IH.
Qed.

Lemma others_insert_above (l : Layer) (base : string) (ls : list Layer) :
  others (name l) (insert_above l base ls) = others (name l) ls.
Proof.
  unfold others. induction ls as [|x xs IH]; simpl; [reflexivity|].
  destruct (name x =? base)%string; simpl.
  - now rewrite String.eqb_refl.
  - now rewrite IH.
Qed.

Lemma others_insert_below (l : Layer) (base : string) (ls : list Layer) :
  others (name l) (insert_below l base ls) = others (name l) ls.
Proof.
  unfold others. induction ls as [|x xs IH]; simpl; [reflexivity|].
  destruct (name x =? base)%string; simpl.
  - rewrite String.eqb_refl. reflexivity.
  - now rewrite IH.
Qed.

(** An insertion leaves the layers of other names as they are, whether
    the layout takes the collection or not. *)
Lemma _set_layout_stackup_others (st : Edb) (nl : Layer) (operation : string)
      (base : option string) :
  ~ In operation ["change_position"; "change_attribute"; "change_name"] ->
  let st1 := snd (_set_layout_stackup st nl operation base) in
  others (name nl) (layers (layer_collection st1))
  = others (name nl) (layers (layer_collection st)) /\
  materials st1 = materials st /\
  components st1 = components st /\
  padstack_instances st1 = padstack_instances st /\
  log st1 = log st.
Proof.
  intros Hop. cbv zeta. unfold _set_layout_stackup.
  apply str_in_false in Hop. rewrite Hop.
  assert (Hset : forall c,
             others (name nl) (layers c)
             = others (name nl) (layers (layer_collection st)) ->
             let st1 := snd (SetLayerCollection c st) in
             others (name nl) (layers (layer_collection st1))
             = others (name nl) (layers (layer_collection st)) /\
             materials st1 = materials st /\
             components st1 = components st /\
             padstack_instances st1 = padstack_instances st /\
             log st1 = log st).
  { intros c Hc. cbv zeta. unfold SetLayerCollection.
    destruct (accepts c); simpl; auto. }
  destruct (operation =? "insert_below")%string.
  { apply Hset. destruct base as [b|]; simpl; [|reflexivity].
    apply others_insert_below. }
  destruct (operation =? "insert_above")%string.
  { apply Hset. destruct base as [b|]; simpl; [|reflexivity].
    apply others_insert_above. }
  destruct (operation =? "add_on_top")%string.
  { apply Hset. unfold others. simpl.
    destruct (IsStackupLayer nl); simpl; now rewrite String.eqb_refl. }
  destruct (operation =? "add_on_bottom")%string.
  { apply Hset. unfold others. simpl. rewrite filter_app. simpl.
    rewrite String.eqb_refl. simpl. apply app_nil_r. }
  destruct (operation =? "add_at_elevation")%string.
  { apply Hset. simpl. apply others_insert_at_elevation. }
  now apply Hset.
Qed.

Lemma update_layer_others (n : string) (g : Layer -> Layer) (st : Edb) :
  (forall x, name (g x) = name x) ->
  others n (layers (layer_collection (update_layer n g st)))
  = others n (layers (layer_collection st)).
Proof.
  intros Hg. unfold update_layer, others. simpl.
  induction (layers (layer_collection st)) as [|x xs IH]; simpl;
    [reflexivity|].
  destruct (name x =? n)%string eqn:E.
  - rewrite Hg, E. simpl. exact IH.
  - rewrite E. simpl. now rewrite IH.
Qed.

Lemma place_new_layer_others (st : Edb) (layer_name : string)
      (base_layer : option string)
      (method layer_type mat fil : string) (thickness : Q)
      (etch_factor : option Q) (is_negative enable_roughness : bool)
      (elevation : option Q) :
  ~ In method ["change_position"; "change_attribute"; "change_name"] ->
  let st' := snd (place_new_layer st layer_name base_layer method layer_type
                                  mat fil thickness etch_factor is_negative
                                  enable_roughness elevation) in
  others layer_name (layers (layer_collection st'))
  = others layer_name (layers (layer_collection st)) /\
  materials st' = materials st /\
  components st' = components st /\
  padstack_instances st' = padstack_instances st /\
  log st' = log st.
Proof.
  intros Hm. cbv zeta. unfold place_new_layer.
  destruct (str_in layer_type ["signal"; "dielectric"]).
  - set (nl0 := SetNegative is_negative
                  (if negb (layer_type =? "dielectric")%string
                   then SetFillMaterial fil
                          (SetMaterial mat
                             (_create_stackup_layer st layer_name thickness
                                                    layer_type))
                   else SetMaterial mat
                          (_create_stackup_layer st layer_name thickness
                                                 layer_type))).
    set (nl := match elevation with
               | Some e =>
                   if (method =? "add_at_elevation")%string
                      && truthy elevation
                   then SetLowerElevation e nl0 else nl0
               | None => nl0
               end).
    assert (Hn : name nl = layer_name).
    { unfold nl, nl0.
      destruct elevation as [e|];
        [destruct ((method =? "add_at_elevation")%string
                   && truthy (Some e))|];
        destruct (layer_type =? "dielectric")%string; reflexivity. }
    destruct (_set_layout_stackup_others st nl method base_layer Hm)
      as (H1 & M1 & C1 & P1 & L1).
    set (st1 := snd (_set_layout_stackup st nl method base_layer)) in *.
    destruct (_set_layout_stackup_others st1 nl method base_layer Hm)
      as (H2 & M2 & C2 & P2 & L2).
    set (st2 := if (List.length (_edb_layer_list st1)
                    =? List.length (_edb_layer_list st))%nat
                then snd (_set_layout_stackup st1 nl method base_layer)
                else st1).
    rewrite Hn in H1, H2.
    assert (Hs2 : others layer_name (layers (layer_collection st2))
                  = others layer_name (layers (layer_collection st)) /\
                  materials st2 = materials st /\
                  components st2 = components st /\
                  padstack_instances st2 = padstack_instances st /\
                  log st2 = log st).
    { unfold st2.
      destruct (List.length (_edb_layer_list st1)
                =? List.length (_edb_layer_list st))%nat.
      - repeat split; congruence.
      - auto. }
    clearbody st2. clear H1 H2 M1 M2 C1 C2 P1 P2 L1 L2.
    destruct Hs2 as (H2 & M2 & C2 & P2 & L2).
    destruct (truthy etch_factor).
    + destruct (layers_get st2 layer_name); [|simpl snd; auto].
      destruct etch_factor as [e|]; [|simpl snd; auto].
      assert (H3 : others layer_name
                     (layers (layer_collection
                                (update_layer layer_name (set_etch_factor e)
                                              st2)))
                   = others layer_name (layers (layer_collection st))).
      { rewrite update_layer_others; [exact H2 | reflexivity]. }
      set (st3 := update_layer layer_name (set_etch_factor e) st2) in *.
      assert (R3 : materials st3 = materials st /\
                   components st3 = components st /\
                   padstack_instances st3 = padstack_instances st /\
                   log st3 = log st) by (unfold st3; simpl; auto).
      clearbody st3.
      destruct enable_roughness; [|simpl snd; tauto].
      destruct (layers_get st3 layer_name); [|simpl snd; tauto].
      simpl snd. split; [|simpl; tauto].
      rewrite update_layer_others; [exact H3 | reflexivity].
    + destruct enable_roughness; [|simpl snd; auto].
      destruct (layers_get st2 layer_name); [|simpl snd; auto].
      simpl snd. split; [|simpl; auto].
      rewrite update_layer_others; [exact H2 | reflexivity].
  - simpl snd.
    destruct (_set_layout_stackup_others
                st (_create_nonstackup_layer st layer_name layer_type)
                "non_stackup" None) as (H1 & R1).
    + simpl. intros [H | [H | [H | []]]]; discriminate.
    + split; [exact H1 | exact R1].
Qed.

(** What [add_layer] leaves of the layers of other names, and of the
    rest of the database. *)
Lemma add_layer_others
      (st : Edb) (layer_name : string) (base_layer : option string)
      (method layer_type mat fil : string) (thickness : Q)
      (etch_factor : option Q) (is_negative enable_roughness : bool)
      (elevation : option Q) :
  ~ In method ["change_position"; "change_attribute"; "change_name"] ->
  let st' := snd (add_layer st layer_name base_layer method layer_type mat
                            fil thickness etch_factor is_negative
                            enable_roughness elevation) in
  others layer_name (layers (layer_collection st'))
  = others layer_name (layers (layer_collection st)) /\
  materials st' = materials st /\
  components st' = components st /\
  padstack_instances st' = padstack_instances st.
Proof.
  intros Hm. cbv zeta. unfold add_layer.
  destruct (str_in layer_name (map name (_edb_layer_list st)));
    [simpl; auto|].
  set (mat' := if (mat =? "")%string
               then if (layer_type =? "signal")%string
                    then "copper" else "fr4_epoxy"
               else mat).
  set (fil' := if (fil =? "")%string then "fr4_epoxy" else fil).
  assert (Hres : forall s m,
             let r := resolve_material s m in
             layer_collection (snd r) = layer_collection s /\
             materials (snd r) = materials s /\
             components (snd r) = components s /\
             padstack_instances (snd r) = padstack_instances s).
  { intros s m. cbv zeta. unfold resolve_material.
    destruct (materials_lower_get s (lower m)); simpl; auto. }
  destruct (Hres st mat') as (Hc1 & Hm1 & Hk1 & Hp1).
  destruct (resolve_material st mat') as [m1 st1]. simpl in Hc1, Hm1, Hk1, Hp1.
  destruct (negb (layer_type =? "dielectric")%string).
  - destruct (Hres st1 fil') as (Hc2 & Hm2 & Hk2 & Hp2).
    destruct (resolve_material st1 fil') as [f2 st2].
    simpl in Hc2, Hm2, Hk2, Hp2.
    destruct (place_new_layer_others
                st2 layer_name base_layer method layer_type m1 f2 thickness
                etch_factor is_negative enable_roughness elevation Hm)
      as (H & M & C & P & _).
    repeat split; congruence.
  - destruct (place_new_layer_others
                st1 layer_name base_layer method layer_type m1 fil' thickness
                etch_factor is_negative enable_roughness elevation Hm)
      as (H & M & C & P & _).
    repeat split; congruence.
Qed.




Lemma flip_component_twice (c : Component) :
  flip_component (flip_component c) = c.
Proof.
  destruct c as [r ic [[|]|] [|]]; destruct ic; reflexivity.
Qed.

Lemma flip_design_components (st st' : Edb) :
  flip_design st = (true, st') ->
  components st' = map flip_component (components st).
Proof.
  unfold flip_design, SetLayerCollection.
  destruct (flip_collection (layer_collection st)) as [c|]; [|discriminate].
  destruct (accepts c); [|discriminate].
  simpl.
  destruct (remap_padstacks (SignalLayerSet c) (padstack_instances st))
    as [ok ps].
  intros H. injection H as _ <-. reflexivity.
Qed.


Lemma remap_padstacks_false (lay_list : list Layer)
      (ps : list PadstackInstance) :
  fst (remap_padstacks lay_list ps) = false ->
  exists p, In p ps /\
            (first_named (start_layer p) lay_list = None \/
             first_named (stop_layer p) lay_list = None).
Proof.
  induction ps as [|p ps IH]; simpl; [discriminate|].
  destruct (first_named (start_layer p) lay_list) eqn:Ea.
  - destruct (first_named (stop_layer p) lay_list) eqn:Eb.
    + destruct (remap_padstacks lay_list ps) as [ok rest]. simpl.
      intros ->. destruct (IH eq_refl) as (q & Hq & Hf).
      exists q. auto.
    + intros _. exists p. auto.
  - intros _. exists p. auto.
Qed.


(** *** The symmetric stackup, for every even number of layers *)

Lemma str_inj (a b : Z) : str a = str b -> a = b.
Proof.
  unfold str. intros H.
  assert (Hnn : forall z, Z.to_int z <> Decimal.Pos Decimal.Nil /\
                          Z.to_int z <> Decimal.Neg Decimal.Nil).
  { intros [|p|p]; simpl; split; try discriminate;
      intros E; injection E as E; now apply Unsigned.to_uint_nonnil in E. }
  destruct (Hnn a) as [Ha1 Ha2]. destruct (Hnn b) as [Hb1 Hb2].
  pose proof (NilZero.isi (Z.to_int a) Ha1 Ha2) as Ia.
  pose proof (NilZero.isi (Z.to_int b) Hb1 Hb2) as Ib.
  rewrite H in Ia. rewrite Ia in Ib. injection Ib as Ib.
  now apply DecimalZ.to_int_inj.
Qed.

Lemma zrange_S (a : Z) (len : nat) :
  zrange a (S len) = a :: zrange (a + 1) len.
Proof.
  unfold zrange. simpl. rewrite Z.add_0_r. f_equal.
  rewrite <- seq_shift, map_map. apply map_ext. intros i. lia.
Qed.

Lemma zrange_snoc (a : Z) (len : nat) :
  zrange a (S len) = zrange a len ++ [(a + Z.of_nat len)%Z].
Proof.
  unfold zrange. rewrite seq_S, map_app. reflexivity.
Qed.

Lemma zrange_In (a : Z) (len : nat) (x : Z) :
  In x (zrange a len) <-> (a <= x < a + Z.of_nat len)%Z.
Proof.
  unfold zrange. rewrite in_map_iff. split.
  - intros (i & <- & Hi). apply in_seq in Hi. lia.
  - intros Hx. exists (Z.to_nat (x - a)). split; [lia|].
    apply in_seq. lia.
Qed.

Lemma inner_pairs_S (it dt : Q) (a : Z) (len : nat) :
  inner_pairs it dt a (S len)
  = (("L" ++ str a)%string, SignalLayer, it) :: (("D" ++ str a)%string, DielectricLayer, dt)
      :: inner_pairs it dt (a + 1) len.
Proof. unfold inner_pairs. rewrite zrange_S. reflexivity. Qed.

Lemma inner_pairs_snoc (it dt : Q) (a : Z) (len : nat) :
  inner_pairs it dt a (S len)
  = inner_pairs it dt a len
    ++ [(("L" ++ str (a + Z.of_nat len))%string, SignalLayer, it);
        (("D" ++ str (a + Z.of_nat len))%string, DielectricLayer, dt)].
Proof.
  unfold inner_pairs. rewrite zrange_snoc, flat_map_app. simpl.
  reflexivity.
Qed.

(** The names of the inner layers are those of their numbers. *)
Lemma inner_pairs_names (it dt : Q) (a : Z) (len : nat) (n : string) :
  In n (map (fun v => fst (fst v)) (inner_pairs it dt a len)) ->
  exists k, (a <= k < a + Z.of_nat len)%Z /\
            (n = ("L" ++ str k)%string \/ n = ("D" ++ str k)%string).
Proof.
  unfold inner_pairs. rewrite in_map_iff.
  intros (v & <- & Hv). apply in_flat_map in Hv.
  destruct Hv as (k & Hk & Hv). apply zrange_In in Hk.
  exists k. split; [exact Hk|].
  destruct Hv as [<- | [<- | []]]; simpl; auto.
Qed.

Lemma insert_below_at (nl : Layer) (b : string) :
  forall pre x post,
    name x = b -> (forall y, In y pre -> name y <> b) ->
    insert_below nl b (pre ++ x :: post) = pre ++ x :: nl :: post.
Proof.
  induction pre as [|y pre IH]; intros x post Hx Hpre; simpl.
  - apply String.eqb_eq in Hx. now rewrite Hx.
  - assert (E : (name y =? b)%string = false).
    { apply String.eqb_neq, Hpre. now left. }
    rewrite E. f_equal. apply IH; [exact Hx|].
    intros z Hz. apply Hpre. now right.
Qed.

Lemma insert_above_at (nl : Layer) (b : string) :
  forall pre x post,
    name x = b -> (forall y, In y pre -> name y <> b) ->
    insert_above nl b (pre ++ x :: post) = pre ++ nl :: x :: post.
Proof.
  induction pre as [|y pre IH]; intros x post Hx Hpre; simpl.
  - apply String.eqb_eq in Hx. now rewrite Hx.
  - assert (E : (name y =? b)%string = false).
    { apply String.eqb_neq, Hpre. now left. }
    rewrite E. f_equal. apply IH; [exact Hx|].
    intros z Hz. apply Hpre. now right.
Qed.

Lemma view_split (ls : list Layer) (vpre vpost : list (string * LayerType * Q))
      (vb : string * LayerType * Q) :
  map view ls = vpre ++ vb :: vpost ->
  exists pre x post,
    ls = pre ++ x :: post /\ map view pre = vpre /\ view x = vb /\
    map view post = vpost.
Proof.
  intros H. apply map_eq_app in H. destruct H as (pre & rest & -> & Hp & Hr).
  apply map_eq_cons in Hr. destruct Hr as (x & post & -> & Hx & Hpost).
  exists pre, x, post. auto.
Qed.

Lemma insert_below_view (nl : Layer) (b : string) (ls : list Layer)
      (vpre vpost : list (string * LayerType * Q))
      (vb : string * LayerType * Q) :
  map view ls = vpre ++ vb :: vpost ->
  fst (fst vb) = b ->
  (forall v, In v vpre -> fst (fst v) <> b) ->
  map view (insert_below nl b ls) = vpre ++ vb :: view nl :: vpost.
Proof.
  intros H Hb Hpre. apply view_split in H.
  destruct H as (pre & x & post & -> & <- & <- & <-).
  rewrite insert_below_at.
  - rewrite map_app. reflexivity.
  - exact Hb.
  - intros y Hy. apply (Hpre (view y)). now apply in_map.
Qed.

Lemma insert_above_view (nl : Layer) (b : string) (ls : list Layer)
      (vpre vpost : list (string * LayerType * Q))
      (vb : string * LayerType * Q) :
  map view ls = vpre ++ vb :: vpost ->
  fst (fst vb) = b ->
  (forall v, In v vpre -> fst (fst v) <> b) ->
  map view (insert_above nl b ls) = vpre ++ view nl :: vb :: vpost.
Proof.
  intros H Hb Hpre. apply view_split in H.
  destruct H as (pre & x & post & -> & <- & <- & <-).
  rewrite insert_above_at.
  - rewrite map_app. reflexivity.
  - exact Hb.
  - intros y Hy. apply (Hpre (view y)). now apply in_map.
Qed.

Lemma insert_below_length (nl : Layer) (b : string) (ls : list Layer) :
  In b (map name ls) ->
  List.length (insert_below nl b ls) = S (List.length ls).
Proof.
  induction ls as [|x xs IH]; simpl; [contradiction|].
  destruct (name x =? b)%string eqn:E; simpl; [reflexivity|].
  intros [H | H]; [apply String.eqb_neq in E; contradiction|].
  now rewrite IH.
Qed.

Lemma insert_above_length (nl : Layer) (b : string) (ls : list Layer) :
  In b (map name ls) ->
  List.length (insert_above nl b ls) = S (List.length ls).
Proof.
  induction ls as [|x xs IH]; simpl; [contradiction|].
  destruct (name x =? b)%string eqn:E; simpl; [reflexivity|].
  intros [H | H]; [apply String.eqb_neq in E; contradiction|].
  now rewrite IH.
Qed.

(** [add_layer] of a new signal or dielectric layer, without etch
    factor, roughness or elevation, on a layout that takes every
    collection: where the layer goes. *)
Lemma add_layer_plain (st : Edb) (layer_name : string)
      (base_layer : option string) (method layer_type mat fil : string)
      (th : Q) :
  (forall c, accepts c = true) ->
  ~ In layer_name (map name (layers (layer_collection st))) ->
  In layer_type ["signal"; "dielectric"] ->
  let st' := snd (add_layer st layer_name base_layer method layer_type mat
                            fil th None false false None) in
  exists nl,
    view nl = (layer_name,
               if (layer_type =? "signal")%string then SignalLayer
               else DielectricLayer, th) /\
    (method = "add_on_top" ->
     map view (layers (layer_collection st'))
     = view nl :: map view (layers (layer_collection st))) /\
    (forall b, method = "insert_below" -> base_layer = Some b ->
               In b (map name (layers (layer_collection st))) ->
               layers (layer_collection st')
               = insert_below nl b (layers (layer_collection st))) /\
    (forall b, method = "insert_above" -> base_layer = Some b ->
               In b (map name (layers (layer_collection st))) ->
               layers (layer_collection st')
               = insert_above nl b (layers (layer_collection st))).
Proof.
  intros Hacc Hfresh Hty. cbv zeta. unfold add_layer.
  assert (Hf : str_in layer_name (map name (_edb_layer_list st)) = false)
    by now apply str_in_false.
  rewrite Hf.
  set (mat' := if (mat =? "")%string
               then if (layer_type =? "signal")%string
                    then "copper" else "fr4_epoxy"
               else mat).
  set (fil' := if (fil =? "")%string then "fr4_epoxy" else fil).
  assert (Hplace : forall s m f,
             layer_collection s = layer_collection st ->
             let st' := snd (place_new_layer s layer_name base_layer method
                                             layer_type m f th None false
                                             false None) in
             exists nl,
               view nl = (layer_name,
                          if (layer_type =? "signal")%string then SignalLayer
                          else DielectricLayer, th) /\
               (method = "add_on_top" ->
                map view (layers (layer_collection st'))
                = view nl :: map view (layers (layer_collection st))) /\
               (forall b, method = "insert_below" -> base_layer = Some b ->
                          In b (map name (layers (layer_collection st))) ->
                          layers (layer_collection st')
                          = insert_below nl b (layers (layer_collection st)))
               /\
               (forall b, method = "insert_above" -> base_layer = Some b ->
                          In b (map name (layers (layer_collection st))) ->
                          layers (layer_collection st')
                          = insert_above nl b (layers (layer_collection st)))).
  { intros s m f Hs. cbv zeta. unfold place_new_layer.
    apply str_in_true in Hty. rewrite Hty.
    set (nl := SetNegative false
                 (if negb (layer_type =? "dielectric")%string
                  then SetFillMaterial f
                         (SetMaterial m
                            (_create_stackup_layer s layer_name th
                                                   layer_type))
                  else SetMaterial m
                         (_create_stackup_layer s layer_name th layer_type))).
    assert (Hv : view nl
                 = (layer_name,
                    if (layer_type =? "signal")%string then SignalLayer
                    else DielectricLayer, th)).
    { unfold nl. destruct (layer_type =? "dielectric")%string; reflexivity. }
    exists nl. split; [exact Hv|].
    assert (Hdone : forall c,
               List.length (layers c)
               = S (List.length (layers (layer_collection st))) ->
               snd (SetLayerCollection c s) = set_collection c s ->
               forall s1, s1 = snd (SetLayerCollection c s) ->
               layers (layer_collection
                 (snd (let st0 := s1 in
                       let st1 :=
                         if (List.length (_edb_layer_list st0)
                             =? List.length (_edb_layer_list s))%nat
                         then snd (_set_layout_stackup st0 nl method
                                                       base_layer)
                         else st0 in
                       match (if truthy None then
                                match layers_get st1 layer_name, @None Q with
                                | Some _, Some e =>
                                    Some (update_layer layer_name
                                            (set_etch_factor e) st1)
                                | _, _ => None
                                end
                              else Some st1) with
                       | None => (None, st1)
                       | Some st2 =>
                           match (if false then
                                    match layers_get st2 layer_name with
                                    | Some _ =>
                                        Some (update_layer layer_name
                                                (set_roughness_enabled true)
                                                st2)
                                    | None => None
                                    end
                                  else Some st2) with
                           | None => (None, st2)
                           | Some st3 => (layers_get st3 layer_name, st3)
                           end
                       end)))
               = layers c).
    { intros c Hlen Hset s1 ->. cbv zeta. rewrite Hset.
      unfold _edb_layer_list, AllLayerSet. simpl layer_collection.
      rewrite Hs.
      assert (E : (List.length (layers c)
                   =? List.length (layers (layer_collection st)))%nat = false)
        by (apply Nat.eqb_neq; lia).
      rewrite E. reflexivity. }
    assert (Hsc : forall c, snd (SetLayerCollection c s) = set_collection c s).
    { intros c. unfold SetLayerCollection. now rewrite Hacc. }
    split; [|split].
    - intros ->. unfold _set_layout_stackup at 1. simpl str_in. cbv iota.
      change (("add_on_top" =? "insert_below")%string) with false.
      change (("add_on_top" =? "insert_above")%string) with false.
      change (("add_on_top" =? "add_on_top")%string) with true.
      cbv iota.
      rewrite (Hdone (AddLayerTop nl (layer_collection s)));
        [| simpl; now rewrite Hs | apply Hsc | reflexivity].
      simpl. rewrite Hs. f_equal.
      destruct (IsStackupLayer nl); reflexivity.
    - intros b -> -> Hb. unfold _set_layout_stackup at 1. simpl str_in.
      cbv iota.
      change (("insert_below" =? "insert_below")%string) with true.
      cbv iota.
      rewrite (Hdone (AddLayerBelow nl (Some b) (layer_collection s)));
        [| simpl; rewrite Hs; now apply insert_below_length
         | apply Hsc | reflexivity].
      simpl. now rewrite Hs.
    - intros b -> -> Hb. unfold _set_layout_stackup at 1. simpl str_in.
      cbv iota.
      change (("insert_above" =? "insert_below")%string) with false.
      change (("insert_above" =? "insert_above")%string) with true.
      cbv iota.
      rewrite (Hdone (AddLayerAbove nl (Some b) (layer_collection s)));
        [| simpl; rewrite Hs; now apply insert_above_length
         | apply Hsc | reflexivity].
      simpl. now rewrite Hs. }
  assert (Hres : forall s m,
             layer_collection (snd (resolve_material s m))
             = layer_collection s).
  { intros s m. unfold resolve_material.
    destruct (materials_lower_get s (lower m)); reflexivity. }
  pose proof (Hres st mat') as Hc1.
  destruct (resolve_material st mat') as [m1 st1]. simpl in Hc1.
  destruct (negb (layer_type =? "dielectric")%string).
  - pose proof (Hres st1 fil') as Hc2.
    destruct (resolve_material st1 fil') as [f2 st2]. simpl in Hc2.
    apply Hplace. congruence.
  - apply Hplace. exact Hc1.
Qed.

Lemma names_of_views (ls : list Layer) :
  map name ls = map (fun v => fst (fst v)) (map view ls).
Proof. rewrite map_map. reflexivity. Qed.

(** One turn of the loop of lines 186-223, on a stack that has TOP,
    the dielectric [k], the inner layers [k + 1] to [k + len] and
    BOT. *)
Lemma add_inner_layers_step (layer_count : Z) (it ot dt : Q) (dm : string)
      (st : Edb) (k : Z) (len : nat) :
  (forall c, accepts c = true) ->
  (layer_count = 2 * k + Z.of_nat len)%Z ->
  map view (layers (layer_collection st))
  = ("TOP", SignalLayer, ot)
      :: (("D" ++ str k)%string, DielectricLayer, dt)
      :: inner_pairs it dt (k + 1) len ++ [("BOT", SignalLayer, ot)] ->
  map view (layers (layer_collection
                      (add_inner_layers layer_count it dt dm st k)))
  = ("TOP", SignalLayer, ot)
      :: (("D" ++ str (k - 1))%string, DielectricLayer, dt)
      :: inner_pairs it dt k (S (S len)) ++ [("BOT", SignalLayer, ot)].
Proof.
  intros Hacc Hn Hv. unfold add_inner_layers.
  assert (Hinner : forall x,
             In x (map (fun v => fst (fst v))
                       (inner_pairs it dt (k + 1) len)) ->
             exists i, (k + 1 <= i < k + 1 + Z.of_nat len)%Z /\
                       (x = ("L" ++ str i)%string \/
                        x = ("D" ++ str i)%string)).
  { intros x. apply inner_pairs_names. }
  (* the inner signal layer below TOP *)
  destruct (add_layer_plain st ("L" ++ str k) (Some "TOP") "insert_below"
                            "signal" "copper" dm it Hacc)
    as (l1 & Hl1 & _ & Hb1 & _).
  { rewrite names_of_views, Hv. simpl. rewrite map_app. simpl.
    intros [H | [H | H]]; try discriminate.
    apply in_app_or in H. destruct H as [H | [H | []]]; [|discriminate].
    destruct (Hinner _ H) as (i & Hi & [E | E]); [|discriminate].
    injection E as E. apply str_inj in E. lia. }
  { simpl. tauto. }
  set (s1 := snd (add_layer st ("L" ++ str k) (Some "TOP") "insert_below"
                            "signal" "copper" dm it None false false None))
    in *.
  assert (Hv1 : map view (layers (layer_collection s1))
                = ("TOP", SignalLayer, ot)
                    :: (("L" ++ str k)%string, SignalLayer, it)
                    :: (("D" ++ str k)%string, DielectricLayer, dt)
                    :: inner_pairs it dt (k + 1) len
                    ++ [("BOT", SignalLayer, ot)]).
  { rewrite (Hb1 "TOP" eq_refl eq_refl).
    - rewrite (insert_below_view l1 "TOP" _ [] _ _ Hv eq_refl).
      + simpl. now rewrite Hl1.
      + intros v [].
    - rewrite names_of_views, Hv. now left. }
  clear Hb1.
  (* its dielectric, below TOP *)
  destruct (add_layer_plain s1 ("D" ++ str (k - 1)) (Some "TOP")
                            "insert_below" "dielectric" dm dm dt Hacc)
    as (l2 & Hl2 & _ & Hb2 & _).
  { rewrite names_of_views, Hv1. simpl. rewrite map_app. simpl.
    intros [H | [H | [H | H]]]; try discriminate.
    - injection H as H. apply str_inj in H. lia.
    - apply in_app_or in H. destruct H as [H | [H | []]]; [|discriminate].
      destruct (Hinner _ H) as (i & Hi & [E | E]); [discriminate|].
      injection E as E. apply str_inj in E. lia. }
  { simpl. tauto. }
  set (s2 := snd (add_layer s1 ("D" ++ str (k - 1)) (Some "TOP")
                            "insert_below" "dielectric" dm dm dt None false
                            false None)) in *.
  assert (Hv2 : map view (layers (layer_collection s2))
                = (("TOP", SignalLayer, ot)
                     :: (("D" ++ str (k - 1))%string, DielectricLayer, dt)
                     :: (("L" ++ str k)%string, SignalLayer, it)
                     :: (("D" ++ str k)%string, DielectricLayer, dt)
                     :: inner_pairs it dt (k + 1) len)
                  ++ ("BOT", SignalLayer, ot) :: []).
  { rewrite (Hb2 "TOP" eq_refl eq_refl).
    - rewrite (insert_below_view l2 "TOP" _ [] _ _ Hv1 eq_refl).
      + simpl. now rewrite Hl2.
      + intros v [].
    - rewrite names_of_views, Hv1. now left. }
  clear Hb2.
  assert (Hpre : forall v,
             In v (("TOP", SignalLayer, ot)
                     :: (("D" ++ str (k - 1))%string, DielectricLayer, dt)
                     :: (("L" ++ str k)%string, SignalLayer, it)
                     :: (("D" ++ str k)%string, DielectricLayer, dt)
                     :: inner_pairs it dt (k + 1) len) ->
             fst (fst v) <> "BOT").
  { intros v [<- | [<- | [<- | [<- | H]]]]; try discriminate.
    intros E. destruct (Hinner (fst (fst v))) as (i & _ & [E' | E']).
    - apply (in_map (fun v => fst (fst v))). exact H.
    - rewrite E in E'. discriminate.
    - rewrite E in E'. discriminate. }
  (* the inner signal layer above BOT *)
  destruct (add_layer_plain s2 ("L" ++ str (layer_count - k + 1))
                            (Some "BOT") "insert_above" "signal" "copper" dm
                            it Hacc)
    as (l3 & Hl3 & _ & _ & Ha3).
  { rewrite names_of_views, Hv2. simpl. rewrite map_app. simpl.
    intros [H | [H | [H | [H | H]]]]; try discriminate.
    - injection H as H. apply str_inj in H. lia.
    - apply in_app_or in H. destruct H as [H | [H | []]]; [|discriminate].
      destruct (Hinner _ H) as (i & Hi & [E | E]); [|discriminate].
      injection E as E. apply str_inj in E. lia. }
  { simpl. tauto. }
  set (s3 := snd (add_layer s2 ("L" ++ str (layer_count - k + 1))
                            (Some "BOT") "insert_above" "signal" "copper" dm
                            it None false false None)) in *.
  assert (Hv3 : map view (layers (layer_collection s3))
                = ((("TOP", SignalLayer, ot)
                      :: (("D" ++ str (k - 1))%string, DielectricLayer, dt)
                      :: (("L" ++ str k)%string, SignalLayer, it)
                      :: (("D" ++ str k)%string, DielectricLayer, dt)
                      :: inner_pairs it dt (k + 1) len)
                   ++ [(("L" ++ str (layer_count - k + 1))%string,
                        SignalLayer, it)])
                  ++ ("BOT", SignalLayer, ot) :: []).
  { rewrite (Ha3 "BOT" eq_refl eq_refl).
    - rewrite (insert_above_view l3 "BOT" _ _ _ _ Hv2 eq_refl Hpre).
      rewrite Hl3. simpl. rewrite <- app_assoc. reflexivity.
    - rewrite names_of_views, Hv2. rewrite map_app. apply in_or_app.
      right. now left. }
  clear Ha3.
  (* its dielectric, above BOT *)
  destruct (add_layer_plain s3 ("D" ++ str (layer_count - k + 1))
                            (Some "BOT") "insert_above" "dielectric" dm dm
                            dt Hacc)
    as (l4 & Hl4 & _ & _ & Ha4).
  { rewrite names_of_views, Hv3. simpl. rewrite !map_app. simpl.
    intros [H | [H | [H | [H | H]]]]; try discriminate.
    - injection H as H. apply str_inj in H. lia.
    - injection H as H. apply str_inj in H. lia.
    - apply in_app_or in H. destruct H as [H | [H | []]]; [|discriminate].
      apply in_app_or in H. destruct H as [H | [H | []]]; [|discriminate].
      destruct (Hinner _ H) as (i & Hi & [E | E]); [discriminate|].
      injection E as E. apply str_inj in E. lia. }
  { simpl. tauto. }
  rewrite (Ha4 "BOT" eq_refl eq_refl).
  - rewrite (insert_above_view l4 "BOT" _ _ _ _ Hv3 eq_refl).
    + rewrite Hl4, inner_pairs_S, inner_pairs_snoc.
      replace (k + 1 + Z.of_nat len)%Z with (layer_count - k + 1)%Z by lia.
      change (if ("dielectric" =? "signal")%string
              then SignalLayer else DielectricLayer) with DielectricLayer.
      rewrite <- !app_comm_cons, <- !app_assoc. reflexivity.
    + intros v Hin. apply in_app_or in Hin.
      destruct Hin as [Hin | [<- | []]]; [now apply Hpre | discriminate].
  - rewrite names_of_views, Hv3. rewrite map_app. apply in_or_app.
    right. now left.
Qed.

Lemma add_inner_layers_fold (layer_count : Z) (it ot dt : Q) (dm : string) :
  (forall c, accepts c = true) ->
  forall (m : nat) (k : Z) (len : nat) (st : Edb),
    (layer_count = 2 * k + Z.of_nat len)%Z ->
    map view (layers (layer_collection st))
    = ("TOP", SignalLayer, ot)
        :: (("D" ++ str k)%string, DielectricLayer, dt)
        :: inner_pairs it dt (k + 1) len ++ [("BOT", SignalLayer, ot)] ->
    map view (layers (layer_collection
                        (fold_left (add_inner_layers layer_count it dt dm)
                                   (map (fun i => (k - Z.of_nat i)%Z)
                                        (seq 0 m))
                                   st)))
    = ("TOP", SignalLayer, ot)
        :: (("D" ++ str (k - Z.of_nat m))%string, DielectricLayer, dt)
        :: inner_pairs it dt (k - Z.of_nat m + 1) (len + 2 * m)
        ++ [("BOT", SignalLayer, ot)].
Proof.
  intros Hacc. induction m as [|m IH]; intros k len st Hn Hv.
  - simpl. rewrite Z.sub_0_r, Nat.add_0_r. exact Hv.
  - cbn [seq map fold_left]. rewrite <- seq_shift, map_map.
    change (Z.of_nat 0) with 0%Z. rewrite Z.sub_0_r.
    pose proof (add_inner_layers_step layer_count it ot dt dm st k len
                                      Hacc Hn Hv) as Hstep.
    replace k with (k - 1 + 1)%Z in Hstep at 3 by lia.
    specialize (IH (k - 1)%Z (S (S len))
                   (add_inner_layers layer_count it dt dm st k)).
    rewrite (map_ext (fun x => (k - Z.of_nat (S x))%Z)
                     (fun i => (k - 1 - Z.of_nat i)%Z)) by (intros; lia).
    rewrite IH; [|lia | exact Hstep].
    replace (k - 1 - Z.of_nat m)%Z with (k - Z.of_nat (S m))%Z by lia.
    replace (S (S len) + 2 * m)%nat with (len + 2 * S m)%nat by lia.
    reflexivity.
Qed.


(** *** The three change operations *)

Lemma add_bottom_fold (g : Layer -> Layer) (ls : list Layer) :
  forall c,
    fold_left (fun c layer => AddLayerBottom (g layer) c) ls c
    = mkLC (mode c) (layers c ++ map g ls).
Proof.
  induction ls as [|x xs IH]; intros c; simpl.
  - rewrite app_nil_r. now destruct c.
  - rewrite IH. simpl. now rewrite <- app_assoc.
Qed.

Lemma at_elevation_fold (g : Layer -> Layer) (ls : list Layer) :
  forall c,
    let c' := fold_left (fun c layer => AddStackupLayerAtElevation
                                          (g layer) c) ls c in
    mode c' = mode c /\
    List.length (layers c') = List.length (layers c) + List.length ls /\
    forall x, In x (layers c') <-> In x (layers c) \/ In x (map g ls).
Proof.
  induction ls as [|y ys IH]; intros c; simpl.
  - split; [reflexivity|]. split; [lia | tauto].
  - specialize (IH (AddStackupLayerAtElevation (g y) c)).
    cbv zeta in IH. destruct IH as (Hm & Hl & Hin).
    split; [exact Hm|]. split.
    + rewrite Hl. simpl. rewrite insert_at_elevation_length. lia.
    + intros x. rewrite Hin. simpl. rewrite insert_at_elevation_In.
      split; intros H; intuition auto.
Qed.

(** The collection of lines 371-396: the stackup layers, with the clone
    in the place of those it stands for, and the other layers. *)
Lemma rebuild_layers (layer_clone : Layer) (base_layer : option string)
      (lc : LayerCollection) :
  mode (rebuild layer_clone base_layer lc) = mode lc /\
  List.length (layers (rebuild layer_clone base_layer lc))
  = List.length (layers lc) /\
  forall x,
    In x (layers (rebuild layer_clone base_layer lc))
    <-> In x (map (substitute layer_clone base_layer) (StackupLayerSet lc))
        \/ In x (NonStackupLayerSet lc).
Proof.
  unfold rebuild.
  rewrite (add_bottom_fold (fun l => l)). rewrite map_id.
  assert (Hlen : List.length (StackupLayerSet lc)
                 + List.length (NonStackupLayerSet lc)
                 = List.length (layers lc)).
  { unfold StackupLayerSet, NonStackupLayerSet. apply filter_length. }
  destruct (mode lc) eqn:Em.
  - rewrite add_bottom_fold. simpl. split; [reflexivity|]. split.
    + rewrite length_app, length_map. exact Hlen.
    + intros x. now rewrite in_app_iff.
  - destruct (at_elevation_fold (substitute layer_clone base_layer)
                                (StackupLayerSet lc)
                                (SetMode Overlapping empty_collection))
      as (Hm & Hl & Hin).
    simpl. split; [reflexivity|]. split.
    + rewrite length_app, Hl. simpl. exact Hlen.
    + intros x. rewrite in_app_iff, Hin. simpl. tauto.
  - rewrite add_bottom_fold. simpl. split; [reflexivity|]. split.
    + rewrite length_app, length_map. exact Hlen.
    + intros x. now rewrite in_app_iff.
Qed.

(** X16.  The change operations do not move a layer.  With a base
    layer of another name, [_set_layout_stackup] builds a collection
    with as many layers as the layout has, in which the clone stands in
    the place of every stackup layer that bears its name and of every
    stackup layer that bears the name of the base layer as well: a
    stackup layer of that name is overwritten by a copy of the clone
    and no stackup layer of the old collection with the name of the
    base is left.  This collection is what the layout is asked to
    take. *)
Theorem change_position_overwrites_base
        (st : Edb) (layer_clone : Layer) (operation b : string) :
  In operation ["change_position"; "change_attribute"; "change_name"] ->
  name layer_clone <> b ->
  let new_lc := rebuild layer_clone (Some b) (layer_collection st) in
  _set_layout_stackup st layer_clone operation (Some b)
  = SetLayerCollection new_lc st /\
  List.length (layers new_lc) = List.length (layers (layer_collection st)) /\
  (forall l, In l (layers new_lc) -> name l = b ->
             In l (NonStackupLayerSet (layer_collection st))) /\
  (forall l, In l (StackupLayerSet (layer_collection st)) ->
             name l = b \/ name l = name layer_clone ->
             In layer_clone (layers new_lc)) /\
  (forall l, In l (StackupLayerSet (layer_collection st)) ->
             name l <> b -> name l <> name layer_clone ->
             In l (layers new_lc)).
Proof.
  intros Hop Hnb. cbv zeta.
  destruct (rebuild_layers layer_clone (Some b) (layer_collection st))
    as (_ & Hlen & Hin).
  split; [|split; [exact Hlen|split; [|split]]].
  - unfold _set_layout_stackup. apply str_in_true in Hop. now rewrite Hop.
  - intros l Hl Hname. apply Hin in Hl. destruct Hl as [Hl | Hl];
      [|exact Hl].
    apply in_map_iff in Hl. destruct Hl as (x & Hx & _).
    unfold substitute in Hx.
    destruct (name x =? name layer_clone)%string eqn:E1; simpl in Hx.
    + subst l. contradiction.
    + destruct (name x =? b)%string eqn:E2.
      * subst l. contradiction.
      * subst l. apply String.eqb_neq in E2. contradiction.
  - intros l Hl Hname. apply Hin. left. apply in_map_iff.
    exists l. split; [|exact Hl].
    unfold substitute. destruct Hname as [-> | ->].
    + rewrite String.eqb_refl, orb_true_r. reflexivity.
    + rewrite String.eqb_refl. reflexivity.
  - intros l Hl H1 H2. apply Hin. left. apply in_map_iff.
    exists l. split; [|exact Hl].
    unfold substitute. apply String.eqb_neq in H1. apply String.eqb_neq in H2.
    now rewrite H1, H2.
Qed.

(** *** The copy of the collection the stackup works on *)

(** Lines 226-247: what [self._lc] is after
    [refresh_layer_collection], for the collection [lc_readonly] of the
    layout. *)
Definition refresh_layer_collection (lc_readonly : LayerCollection)
  : LayerCollection :=
  let layers := StackupLayerSet lc_readonly in
  let non_stackup := NonStackupLayerSet lc_readonly in
  let _lc := SetMode (mode lc_readonly) empty_collection in
  let _lc :=
    match mode lc_readonly with
    | Overlapping =>
        fold_left (fun c layer => AddStackupLayerAtElevation layer c)
                  layers _lc
    | Laminate =>
        fold_left (fun c layer => AddLayerBottom layer c) layers _lc
    | MultiZone => AddLayers layers _lc
    end in
  let _lc := fold_left (fun c layer => AddLayerBottom layer c)
                       non_stackup _lc in
  SetMode (mode lc_readonly) _lc.

Lemma filter_filter_neg {A : Type} (f : A -> bool) (l : list A) :
  filter f (filter (fun x => negb (f x)) l) = [] /\
  filter (fun x => negb (f x)) (filter f l) = [] /\
  filter f (filter f l) = filter f l /\
  filter (fun x => negb (f x)) (filter (fun x => negb (f x)) l)
  = filter (fun x => negb (f x)) l.
Proof.
  induction l as [|x l (H1 & H2 & H3 & H4)]; simpl; [auto|].
  destruct (f x) eqn:E; simpl; rewrite ?E; simpl; rewrite ?H1, ?H2, ?H3, ?H4;
    auto.
Qed.

(** X17.  [refresh_layer_collection] gives the stackup a copy of the
    collection of the layout with the same mode and the same layers,
    none lost and none added, in which the stackup layers come first
    and the other layers follow in their order.  In the laminate and
    multizone modes the stackup layers keep their order too, and
    refreshing from the copy gives the copy again. *)
Theorem refresh_layer_collection_keeps_layers (lc : LayerCollection) :
  let _lc := refresh_layer_collection lc in
  mode _lc = mode lc /\
  List.length (layers _lc) = List.length (layers lc) /\
  (forall x, In x (layers _lc) <-> In x (layers lc)) /\
  (exists stack,
      layers _lc = stack ++ NonStackupLayerSet lc /\
      List.length stack = List.length (StackupLayerSet lc) /\
      forall x, In x stack <-> In x (StackupLayerSet lc)) /\
  (mode lc <> Overlapping ->
   layers _lc = StackupLayerSet lc ++ NonStackupLayerSet lc /\
   refresh_layer_collection _lc = _lc).
Proof.
  cbv zeta.
  assert (Hlen : List.length (StackupLayerSet lc)
                 + List.length (NonStackupLayerSet lc)
                 = List.length (layers lc)).
  { unfold StackupLayerSet, NonStackupLayerSet. apply filter_length. }
  assert (Hmem : forall x, In x (StackupLayerSet lc)
                           \/ In x (NonStackupLayerSet lc)
                           <-> In x (layers lc)).
  { intros x. unfold StackupLayerSet, NonStackupLayerSet.
    rewrite !filter_In.
    destruct (IsStackupLayer x); simpl; intuition (auto; discriminate). }
  assert (Hplain : forall m,
             let c := mkLC m (StackupLayerSet lc ++ NonStackupLayerSet lc) in
             refresh_layer_collection c = c \/ m = Overlapping).
  { intros m. cbv zeta.
    destruct (filter_filter_neg IsStackupLayer (layers lc))
      as (H1 & H2 & H3 & H4).
    assert (HS : StackupLayerSet
                   (mkLC m (StackupLayerSet lc ++ NonStackupLayerSet lc))
                 = StackupLayerSet lc).
    { unfold StackupLayerSet, NonStackupLayerSet. cbn [layers].
      now rewrite filter_app, H1, H3, app_nil_r. }
    assert (HN : NonStackupLayerSet
                   (mkLC m (StackupLayerSet lc ++ NonStackupLayerSet lc))
                 = NonStackupLayerSet lc).
    { unfold StackupLayerSet, NonStackupLayerSet. cbn [layers].
      now rewrite filter_app, H2, H4. }
    unfold refresh_layer_collection. rewrite HS, HN. cbn [mode].
    rewrite (add_bottom_fold (fun l => l)), map_id.
    destruct m; [left | now right | left].
    - rewrite (add_bottom_fold (fun l => l)), map_id. reflexivity.
    - reflexivity. }
  assert (Hval : mode lc <> Overlapping ->
                 refresh_layer_collection lc
                 = mkLC (mode lc)
                        (StackupLayerSet lc ++ NonStackupLayerSet lc)).
  { intros Hm. unfold refresh_layer_collection.
    rewrite (add_bottom_fold (fun l => l)), map_id.
    destruct (mode lc); [|now elim Hm|reflexivity].
    rewrite (add_bottom_fold (fun l => l)), map_id. reflexivity. }
  assert (Hkept : mode lc <> Overlapping ->
                  let _lc := refresh_layer_collection lc in
                  mode _lc = mode lc /\
                  List.length (layers _lc) = List.length (layers lc) /\
                  (forall x, In x (layers _lc) <-> In x (layers lc)) /\
                  (exists stack,
                      layers _lc = stack ++ NonStackupLayerSet lc /\
                      List.length stack = List.length (StackupLayerSet lc) /\
                      forall x, In x stack <-> In x (StackupLayerSet lc)) /\
                  layers _lc = StackupLayerSet lc ++ NonStackupLayerSet lc /\
                  refresh_layer_collection _lc = _lc).
  { intros Hm. cbv zeta. rewrite (Hval Hm). cbn [mode layers].
    split; [reflexivity|]. split; [rewrite length_app; exact Hlen|].
    split; [intros x; rewrite in_app_iff; apply Hmem|].
    split.
    - exists (StackupLayerSet lc). split; [reflexivity|].
      split; [reflexivity | tauto].
    - split; [reflexivity|].
      destruct (Hplain (mode lc)) as [H | H]; [exact H | contradiction]. }
  destruct (mode lc) eqn:Em.
  - assert (Hm : Laminate <> Overlapping) by discriminate.
    destruct (Hkept Hm) as (K1 & K2 & K3 & K4 & K5).
    repeat split; try assumption; try apply K3; try apply K5.
  - clear Hval Hkept. unfold refresh_layer_collection.
    rewrite (add_bottom_fold (fun l => l)), map_id. rewrite Em.
    destruct (at_elevation_fold (fun l => l) (StackupLayerSet lc)
                                (SetMode Overlapping empty_collection))
      as (Hm & Hl & Hin).
    rewrite map_id in Hin. simpl in Hl, Hin. simpl.
    split; [reflexivity|]. split; [rewrite length_app, Hl; exact Hlen|].
    split.
    + intros x. rewrite in_app_iff, Hin. rewrite <- Hmem. tauto.
    + split; [|intros H; now elim H].
      eexists. split; [reflexivity|]. split; [exact Hl|].
      intros x. rewrite Hin. tauto.
  - assert (Hm : MultiZone <> Overlapping) by discriminate.
    destruct (Hkept Hm) as (K1 & K2 & K3 & K4 & K5).
    repeat split; try assumption; try apply K3; try apply K5.
Qed.

End Store.

(** ** Stacks to run the code on *)

(** A layout that takes every collection. *)
Definition accept_all (_ : LayerCollection) : bool := true.

(** ["<x>um"], in metres. *)
Definition um (x : Q) : Q := (x * (1 # 1000000))%Q.

Definition stack_layer (n : string) (id : nat) (t : LayerType)
           (lower th : Q) : Layer :=
  mkLayer n id t false lower th TopAssociated "" "" "copper" "fr4_epoxy"
          false None false.

Definition TOP : Layer := stack_layer "TOP" 3 SignalLayer (um 150) (um 50).
Definition D1 : Layer := stack_layer "D1" 2 DielectricLayer (um 50) (um 100).
Definition BOT : Layer := stack_layer "BOT" 1 SignalLayer 0 (um 50).

(** A via layer between BOT and TOP, and a silkscreen layer. *)
Definition VIA : Layer :=
  mkLayer "VIA" 4 DielectricLayer true (um 50) (um 100) TopAssociated
          "TOP" "BOT" "copper" "" false None false.
Definition SILK : Layer :=
  mkLayer "SILK" 5 SilkscreenLayer false 0 0 TopAssociated "" "" "" ""
          false None false.

Definition edb_of (ls : list Layer) : Edb :=
  mkEdb (mkLC Laminate ls) ["copper"; "FR4_epoxy"; "air"] [] [] [].

(** The three-layer board, top first as the database lists it, with a
    chip on it and a via from TOP to BOT. *)
Definition board : Edb :=
  mkEdb (mkLC Laminate [TOP; D1; BOT]) ["copper"; "FR4_epoxy"; "air"]
        [mkComponent "U1" true (Some AbovePadstack) ChipUp]
        [mkPadstack "TOP" "BOT" []] [].
Definition board_with_via : Edb := edb_of [TOP; D1; VIA; BOT; SILK].
(** The same three layers listed from the bottom. *)
Definition upside : Edb := edb_of [BOT; D1; TOP].
(** One layer below elevation 0, and one layer above it. *)
Definition sunk : Edb :=
  edb_of [stack_layer "L1" 1 SignalLayer (um (-100)) (um 35)].
Definition raised : Edb :=
  edb_of [stack_layer "L1" 1 SignalLayer (um 10) (um 10)].

(** The largest elevation of the stackup layers without "RadBox" in
    their name, as the specification words [max_elevation]; in metres,
    [None] without such a layer. *)
Definition highest_elevation (lc : LayerCollection) : option Q :=
  match flat_map (fun l => [lower_elevation l; GetUpperElevation l])
                 (filter (fun l => negb (has_RadBox (name l)))
                         (StackupLayerSet lc)) with
  | [] => None
  | e :: es => Some (fold_left Qmax es e)
  end.

(** A stack below elevation 0: the highest elevation is -65um, the code
    takes 0 for [max_elevation] and the flipped layer lies at 65um, not at
    the highest elevation minus its old upper elevation (0). *)
Lemma flip_design_sunk_stack :
  let l := stack_layer "L1" 1 SignalLayer (um (-100)) (um 35) in
  let r := flip_design accept_all sunk in
  fst r = true /\
  (max_elevation (layer_collection sunk) == 0)%Q /\
  exists h l',
    highest_elevation (layer_collection sunk) = Some h /\
    (h == um (-65))%Q /\
    layers (layer_collection (snd r)) = [l'] /\
    name l' = "L1" /\
    (lower_elevation l' == um 65)%Q /\
    ~ (lower_elevation l' == h - GetUpperElevation l)%Q.
Proof.
  cbv zeta. split; [reflexivity|]. split; [reflexivity|].
  eexists. eexists. split; [reflexivity|]. split; [reflexivity|].
  split; [reflexivity|]. split; [reflexivity|]. split; [reflexivity|].
  intros H. vm_compute in H. discriminate.
Qed.

Lemma flip_design_mirrors_layers_witness :
  flip_design accept_all board_with_via
  = (true, snd (flip_design accept_all board_with_via)) /\
  (exists l', In l' (layers (layer_collection
                               (snd (flip_design accept_all board_with_via))))
              /\ name l' = "BOT" /\ (lower_elevation l' == um 150)%Q) /\
  In SILK (layers (layer_collection
                     (snd (flip_design accept_all board_with_via)))).
Proof.
  assert (Hrun : flip_design accept_all board_with_via
                 = (true, snd (flip_design accept_all board_with_via)))
    by reflexivity.
  destruct (flip_design_mirrors_layers accept_all board_with_via _ Hrun)
    as (_ & Hreg & Hns & _).
  split; [exact Hrun|]. split.
  - destruct (Hreg BOT) as (l' & Hin & Hn & He & _);
      [simpl; tauto | reflexivity | reflexivity | reflexivity |].
    exists l'. split; [exact Hin|]. split; [exact Hn|].
    rewrite He. reflexivity.
  - apply Hns; [simpl; tauto | reflexivity].
Defined.


Lemma board_no_via : no_via (layer_collection board).
Proof.
  intros l Hl. simpl in Hl.
  destruct Hl as [<- | [<- | [<- | []]]]; reflexivity.
Qed.






(** *** The further properties on the board *)

(** The board with a padstack instance that stops on a layer the stack
    does not have. *)
Definition board_stray : Edb :=
  mkEdb (mkLC Laminate [TOP; D1; BOT]) ["copper"; "FR4_epoxy"; "air"]
        [mkComponent "U1" true (Some AbovePadstack) ChipUp]
        [mkPadstack "TOP" "GHOST" []] [].

Lemma add_on_top_is_insertion :
  ~ In "add_on_top" ["change_position"; "change_attribute"; "change_name"].
Proof. simpl. intros [H | [H | [H | []]]]; discriminate. Qed.






(** D1 made thicker and moved "below TOP", as the readers of stackup
    files ask for it: TOP is overwritten. *)
Lemma change_position_overwrites_base_witness :
  let thick := stack_layer "D1" 2 DielectricLayer (um 50) (um 200) in
  In "change_position" ["change_position"; "change_attribute"; "change_name"]
  /\ name thick <> "TOP" /\
  layers (layer_collection
            (snd (_set_layout_stackup accept_all board thick
                                      "change_position" (Some "TOP"))))
  = [thick; thick; BOT].
Proof.
  cbv zeta.
  assert (Hop : In "change_position"
                   ["change_position"; "change_attribute"; "change_name"])
    by (simpl; tauto).
  assert (Hn : name (stack_layer "D1" 2 DielectricLayer (um 50) (um 200))
               <> "TOP") by discriminate.
  split; [exact Hop|]. split; [exact Hn|].
  destruct (change_position_overwrites_base
              accept_all board
              (stack_layer "D1" 2 DielectricLayer (um 50) (um 200))
              "change_position" "TOP" Hop Hn) as (Hrun & _).
  rewrite Hrun. reflexivity.
Defined.


(** A laminate collection that lists the silkscreen before the stackup
    layers. *)
Definition silk_first : LayerCollection := mkLC Laminate [SILK; TOP; D1; BOT].

Lemma refresh_layer_collection_keeps_layers_witness :
  layers (refresh_layer_collection silk_first) = [TOP; D1; BOT; SILK] /\
  refresh_layer_collection (refresh_layer_collection silk_first)
  = refresh_layer_collection silk_first.
Proof.
  destruct (refresh_layer_collection_keeps_layers accept_all silk_first)
    as (_ & _ & _ & _ & Hkeep).
  apply Hkeep. discriminate.
Defined.

(** C9.  [create_symmetric_stackup(2, soldermask=False)] on an empty
    stackup makes the three stackup layers BOT, D1 and TOP, 50um, 100um
    and 50um thick, and the database lists them top first.
    [get_layout_thickness] then takes TOP for the bottom layer and BOT
    for the top layer and returns -100um, not 200um. *)
Theorem symmetric_stackup_thickness (assoc : TopBottomAssociation) :
  let r := create_symmetric_stackup accept_all assoc true (edb_of []) 2
                                    (um 17) (um 50) (um 100) "fr4_epoxy"
                                    false (um 20) in
  fst r = true /\
  map (fun l => (name l, layer_type l, thickness l)) (stackup_layers (snd r))
  = [("TOP", SignalLayer, um 50); ("D1", DielectricLayer, um 100);
     ("BOT", SignalLayer, um 50)] /\
  exists t,
    get_layout_thickness (snd r) = Some t /\
    (t == um (-100))%Q /\ ~ (t == um 200)%Q.
Proof.
  cbv zeta. destruct assoc.
  - split; [vm_compute; reflexivity|]. split; [vm_compute; reflexivity|].
    eexists. split; [vm_compute; reflexivity|].
    split; [vm_compute; reflexivity|].
    intros H. vm_compute in H. discriminate.
  - split; [vm_compute; reflexivity|]. split; [vm_compute; reflexivity|].
    eexists. split; [vm_compute; reflexivity|].
    split; [vm_compute; reflexivity|].
    intros H. vm_compute in H. discriminate.
Qed.

End Stackup.


(** * Stackup files (core/stackup.py)

    [export_stackup] and [import_stackup] choose a writer or a reader by
    the end of the path.  The writers and readers themselves work on
    files; what is embedded is the choice, and the path the writer
    writes to. *)

Module StackupFiles.

(** [s.split(sep)] for a separator of one character. *)
Fixpoint split (sep : ascii) (s : string) : list string :=
  match s with
  | EmptyString => [EmptyString]
  | String c s' =>
      if Ascii.eqb c sep then EmptyString :: split sep s'
      else match split sep s' with
           | [] => [String c EmptyString]
           | w :: ws => String c w :: ws
           end
  end.

(** [s.endswith(suffix)]: some tail of [s] is [suffix]. *)
Fixpoint endswith (s suffix : string) : bool :=
  (s =? suffix)%string
  || match s with
     | EmptyString => false
     | String _ s' => endswith s' suffix
     end.

(** The method the call of [export_stackup] ends in, with its
    arguments; [NotExported] is the warning and the result [False]. *)
Inductive Writer : Type :=
| _export_layer_stackup_to_csv_xlsx (fpath file_format : string)
| _export_layer_stackup_to_json (output_file : string)
                                (include_material_with_layer : bool)
| _export_xml (file_path : string)
| NotExported.

(** Lines 586-623. *)
Definition export_stackup (fpath file_format : string)
           (include_material_with_layer : bool) : Writer :=
  let fpath :=
    if (List.length (split "." fpath) =? 1)%nat
    then (fpath ++ "." ++ file_format)%string
    else fpath in
  if endswith fpath ".csv"
  then _export_layer_stackup_to_csv_xlsx fpath "csv"
  else if endswith fpath ".xlsx"
  then _export_layer_stackup_to_csv_xlsx fpath "xlsx"
  else if endswith fpath ".json"
  then _export_layer_stackup_to_json fpath include_material_with_layer
  else if endswith fpath ".xml"
  then _export_xml fpath
  else NotExported.

(** The file a writer writes when it gets to writing: lines 644-652 for
    the table formats, the path itself for JSON (when it is not empty)
    and XML. *)
Definition written_file (w : Writer) : option string :=
  match w with
  | _export_layer_stackup_to_csv_xlsx fpath file_format =>
      if (file_format =? "csv")%string
      then Some (if negb (endswith fpath ".csv")
                 then (fpath ++ ".csv")%string else fpath)
      else Some (if negb (endswith fpath ".xlsx")
                 then (fpath ++ ".xlsx")%string else fpath)
  | _export_layer_stackup_to_json output_file _ =>
      if (output_file =? "")%string then None else Some output_file
  | _export_xml file_path => Some file_path
  | NotExported => None
  end.

(** The method the call of [import_stackup] ends in; [NotImported] is
    the result [False]. *)
Inductive Reader : Type :=
| _import_csv (file_path : string)
| _import_json (file_path : string)
| _import_xml (file_path : string)
| NotImported.

(** Lines 1696-1724. *)
Definition import_stackup (file_path : string) : Reader :=
  if endswith file_path ".csv" then _import_csv file_path
  else if endswith file_path ".json" then _import_json file_path
  else if endswith file_path ".xml" then _import_xml file_path
  else NotImported.

(** ** The end of a path *)

Lemma eqb_length (s t : string) :
  String.length s <> String.length t -> (s =? t)%string = false.
Proof.
  intros H. apply String.eqb_neq. intros ->. now apply H.
Qed.

Lemma length_append (s t : string) :
  String.length (s ++ t) = String.length s + String.length t.
Proof. induction s as [|c s IH]; simpl; [reflexivity | now rewrite IH]. Qed.

Lemma endswith_refl (s : string) : endswith s s = true.
Proof. destruct s; cbn [endswith]; now rewrite String.eqb_refl. Qed.

Lemma endswith_append (a b : string) : endswith (a ++ b) b = true.
Proof.
  induction a as [|c a IH]; cbn [append endswith].
  - apply endswith_refl.
  - rewrite IH. apply orb_true_r.
Qed.

(** A suffix no longer than [b] is looked for in [b] alone. *)
Lemma endswith_short (a b suffix : string) :
  String.length suffix <= String.length b ->
  endswith (a ++ b) suffix = endswith b suffix.
Proof.
  intros Hlen. induction a as [|c a IH]; cbn [append endswith];
    [reflexivity|].
  rewrite IH. rewrite eqb_length; [reflexivity|].
  cbn [String.length]. rewrite length_append. lia.
Qed.

Lemma endswith_spec (s suffix : string) :
  endswith s suffix = true <-> exists pre, s = (pre ++ suffix)%string.
Proof.
  split.
  - induction s as [|c s IH]; cbn [endswith].
    + rewrite orb_false_r. intros H. apply String.eqb_eq in H. subst.
      now exists "".
    + intros H. apply orb_true_iff in H. destruct H as [H | H].
      * apply String.eqb_eq in H. subst. now exists "".
      * destruct (IH H) as [pre ->]. now exists (String c pre).
  - intros [pre ->]. apply endswith_append.
Qed.

(** The number of pieces is one more than the number of separators. *)
Lemma split_length (sep : ascii) (s : string) :
  List.length (split sep s)
  = S (List.length (filter (Ascii.eqb sep) (list_ascii_of_string s))).
Proof.
  induction s as [|c s IH]; simpl; [reflexivity|].
  rewrite (Ascii.eqb_sym sep c).
  destruct (Ascii.eqb c sep); simpl.
  - now rewrite IH.
  - destruct (split sep s) as [|w ws]; simpl in *; [discriminate | exact IH].
Qed.

(** A tail of the suffix is a tail of the string. *)
Lemma endswith_tail (s suffix t : string) :
  endswith s suffix = true ->
  String.length t <= String.length suffix ->
  endswith s t = endswith suffix t.
Proof.
  intros H Hl. apply endswith_spec in H. destruct H as [pre ->].
  now apply endswith_short.
Qed.

(** Two endings that differ on a common tail exclude each other. *)
Lemma endswith_mismatch (a b suffix t : string) :
  String.length t <= String.length b ->
  String.length t <= String.length suffix ->
  endswith b t <> endswith suffix t ->
  endswith (a ++ b) suffix = false.
Proof.
  intros Hb Hs Hne.
  destruct (endswith (a ++ b) suffix) eqn:E; [|reflexivity].
  elim Hne. rewrite <- (endswith_tail _ _ t E Hs).
  symmetry. now apply endswith_short.
Qed.

(** The four endings the two methods know, against each other. *)
Lemma known_endings (fpath : string) :
  endswith (fpath ++ ".xlsx") ".csv" = false /\
  endswith (fpath ++ ".json") ".csv" = false /\
  endswith (fpath ++ ".json") ".xlsx" = false /\
  endswith (fpath ++ ".xml") ".csv" = false /\
  endswith (fpath ++ ".xml") ".xlsx" = false /\
  endswith (fpath ++ ".xml") ".json" = false /\
  endswith (fpath ++ ".xlsx") ".json" = false /\
  endswith (fpath ++ ".xlsx") ".xml" = false.
Proof.
  repeat split.
  - apply (endswith_mismatch _ _ _ "v"); simpl; try lia; discriminate.
  - apply (endswith_mismatch _ _ _ "v"); simpl; try lia; discriminate.
  - apply (endswith_mismatch _ _ _ "x"); simpl; try lia; discriminate.
  - apply (endswith_mismatch _ _ _ "v"); simpl; try lia; discriminate.
  - apply (endswith_mismatch _ _ _ "x"); simpl; try lia; discriminate.
  - apply (endswith_mismatch _ _ _ "n"); simpl; try lia; discriminate.
  - apply (endswith_mismatch _ _ _ "n"); simpl; try lia; discriminate.
  - apply (endswith_mismatch _ _ _ "l"); simpl; try lia; discriminate.
Qed.

(** Where [export_stackup] sends a path without a dot. *)
Lemma export_stackup_plain (fpath : string)
      (include_material_with_layer : bool) :
  List.length (split "." fpath) = 1 ->
  export_stackup fpath "csv" include_material_with_layer
  = _export_layer_stackup_to_csv_xlsx (fpath ++ ".csv") "csv" /\
  export_stackup fpath "xlsx" include_material_with_layer
  = _export_layer_stackup_to_csv_xlsx (fpath ++ ".xlsx") "xlsx" /\
  export_stackup fpath "json" include_material_with_layer
  = _export_layer_stackup_to_json (fpath ++ ".json")
                                  include_material_with_layer /\
  export_stackup fpath "xml" include_material_with_layer
  = _export_xml (fpath ++ ".xml").
Proof.
  intros Hone.
  destruct (known_endings fpath)
    as (H1 & H2 & H3 & H4 & H5 & H6 & _).
  unfold export_stackup. rewrite Hone. cbn [Nat.eqb].
  change ("." ++ "csv")%string with ".csv".
  change ("." ++ "xlsx")%string with ".xlsx".
  change ("." ++ "json")%string with ".json".
  change ("." ++ "xml")%string with ".xml".
  rewrite H1, H2, H3, H4, H5, H6, !endswith_append. auto.
Qed.

(** The file each of the four writers writes for such a path. *)
Lemma written_file_plain (fpath : string) :
  written_file (_export_layer_stackup_to_csv_xlsx (fpath ++ ".csv") "csv")
  = Some (fpath ++ ".csv")%string /\
  written_file (_export_layer_stackup_to_csv_xlsx (fpath ++ ".xlsx") "xlsx")
  = Some (fpath ++ ".xlsx")%string /\
  (forall b, written_file (_export_layer_stackup_to_json (fpath ++ ".json") b)
             = Some (fpath ++ ".json")%string) /\
  written_file (_export_xml (fpath ++ ".xml"))
  = Some (fpath ++ ".xml")%string.
Proof.
  unfold written_file.
  change (("csv" =? "csv")%string) with true.
  change (("xlsx" =? "csv")%string) with false. cbv iota.
  rewrite !endswith_append. cbn [negb].
  split; [reflexivity|]. split; [reflexivity|]. split; [|reflexivity].
  intros _. rewrite eqb_length; [reflexivity|].
  rewrite length_append. simpl. lia.
Qed.

(** X10.  [export_stackup] reads [file_format] only for a path without
    a dot: such a path gets the format as its extension, and for the
    formats csv, xlsx, json and xml the call goes to the writer of that
    format, which writes the file of that name.  A path with a dot in
    it is taken as it is, whatever [file_format] says, and goes to the
    writer its own ending names, or to none. *)
Theorem export_stackup_routes_by_extension
        (fpath : string) (include_material_with_layer : bool) :
  (List.length (split "." fpath) = 1 ->
   export_stackup fpath "csv" include_material_with_layer
   = _export_layer_stackup_to_csv_xlsx (fpath ++ ".csv") "csv" /\
   export_stackup fpath "xlsx" include_material_with_layer
   = _export_layer_stackup_to_csv_xlsx (fpath ++ ".xlsx") "xlsx" /\
   export_stackup fpath "json" include_material_with_layer
   = _export_layer_stackup_to_json (fpath ++ ".json")
                                   include_material_with_layer /\
   export_stackup fpath "xml" include_material_with_layer
   = _export_xml (fpath ++ ".xml") /\
   forall file_format,
     In file_format ["csv"; "xlsx"; "json"; "xml"] ->
     written_file (export_stackup fpath file_format
                                  include_material_with_layer)
     = Some (fpath ++ "." ++ file_format)%string) /\
  (List.length (split "." fpath) <> 1 ->
   forall file_format other_format,
     export_stackup fpath file_format include_material_with_layer
     = export_stackup fpath other_format include_material_with_layer).
Proof.
  split.
  - intros Hone.
    destruct (export_stackup_plain fpath include_material_with_layer Hone)
      as (Hcsv & Hxlsx & Hjson & Hxml).
    destruct (written_file_plain fpath) as (Wcsv & Wxlsx & Wjson & Wxml).
    split; [exact Hcsv|]. split; [exact Hxlsx|]. split; [exact Hjson|].
    split; [exact Hxml|].
    intros file_format [<- | [<- | [<- | [<- | []]]]].
    + rewrite Hcsv. exact Wcsv.
    + rewrite Hxlsx. exact Wxlsx.
    + rewrite Hjson. apply Wjson.
    + rewrite Hxml. exact Wxml.
  - intros Hmany file_format other_format. unfold export_stackup.
    apply Nat.eqb_neq in Hmany. now rewrite Hmany.
Qed.

(** X11.  What [export_stackup] writes for a path without a dot goes
    back in through [import_stackup] for csv, json and xml: the file
    written is handed to the reader of the same format.  A stackup
    exported as xlsx cannot be imported: [import_stackup] has no reader
    for it and returns [False]. *)
Theorem exported_stackup_finds_its_reader
        (fpath : string) (include_material_with_layer : bool) :
  List.length (split "." fpath) = 1 ->
  (forall file, written_file (export_stackup fpath "csv"
                                include_material_with_layer) = Some file ->
                import_stackup file = _import_csv file) /\
  (forall file, written_file (export_stackup fpath "json"
                                include_material_with_layer) = Some file ->
                import_stackup file = _import_json file) /\
  (forall file, written_file (export_stackup fpath "xml"
                                include_material_with_layer) = Some file ->
                import_stackup file = _import_xml file) /\
  (exists file, written_file (export_stackup fpath "xlsx"
                                include_material_with_layer) = Some file /\
                import_stackup file = NotImported).
Proof.
  intros Hone.
  destruct (export_stackup_plain fpath include_material_with_layer Hone)
    as (Hcsv & Hxlsx & Hjson & Hxml).
  destruct (written_file_plain fpath) as (Wcsv & Wxlsx & Wjson & Wxml).
  destruct (known_endings fpath)
    as (H1 & H2 & H3 & H4 & H5 & H6 & H7 & H8).
  rewrite Hcsv, Hxlsx, Hjson, Hxml, Wcsv, Wxlsx, Wjson, Wxml.
  split; [|split; [|split]].
  - intros file Hf. injection Hf as <-.
    unfold import_stackup. now rewrite endswith_append.
  - intros file Hf. injection Hf as <-.
    unfold import_stackup. now rewrite H2, endswith_append.
  - intros file Hf. injection Hf as <-.
    unfold import_stackup. now rewrite H4, H6, endswith_append.
  - exists (fpath ++ ".xlsx")%string. split; [reflexivity|].
    unfold import_stackup. now rewrite H1, H7, H8.
Qed.

Lemma export_stackup_routes_by_extension_witness :
  List.length (split "." "stack") = 1 /\
  export_stackup "stack" "json" false
  = _export_layer_stackup_to_json "stack.json" false /\
  List.length (split "." "stack.v2") <> 1 /\
  export_stackup "stack.v2" "json" false = NotExported.
Proof.
  destruct (export_stackup_routes_by_extension "stack" false) as [Hone _].
  destruct (export_stackup_routes_by_extension "stack.v2" false)
    as [_ Hmany].
  split; [reflexivity|]. split.
  - destruct (Hone eq_refl) as (_ & _ & Hjson & _). exact Hjson.
  - split; [discriminate|].
    rewrite (Hmany ltac:(discriminate) "json" "xml"). reflexivity.
Defined.

Lemma exported_stackup_finds_its_reader_witness :
  List.length (split "." "stack") = 1 /\
  import_stackup "stack.csv" = _import_csv "stack.csv" /\
  written_file (export_stackup "stack" "xlsx" false) = Some "stack.xlsx" /\
  import_stackup "stack.xlsx" = NotImported.
Proof.
  destruct (exported_stackup_finds_its_reader "stack" false eq_refl)
    as (Hcsv & _ & _ & _).
  split; [reflexivity|]. split; [|split; reflexivity].
  apply Hcsv. reflexivity.
Defined.

End StackupFiles.

(** * Residual copper (core/stackup.py, lines 1259-1287)

    [residual_copper_area_per_layer] goes once through the primitives of
    the layout and reports, for every signal layer, the area of its
    primitives as a percentage of the area of the outline. *)

Module Copper.

(** A primitive as the report reads it: [GetLayer().GetName()],
    [area()] and [is_void]. *)
Record Primitive : Type := mkPrimitive {
  layer_name : string;
  area : Q;
  is_void : bool
}.

(** A Python dictionary from names to numbers, in the order of
    insertion. *)
Definition Dict : Type := list (string * Q).

(** [d[k] = v]. *)
Fixpoint dict_set (k : string) (v : Q) (d : Dict) : Dict :=
  match d with
  | [] => [(k, v)]
  | (k', v') :: d' =>
      if (k' =? k)%string then (k, v) :: d'
      else (k', v') :: dict_set k v d'
  end.

(** [d[k]], [None] when the key is not there. *)
Definition dict_get (k : string) (d : Dict) : option Q :=
  match find (fun e => (fst e =? k)%string) d with
  | Some e => Some (snd e)
  | None => None
  end.

(** Lines 1275-1285, one turn of the loop; the pair is ([temp_data],
    [outline_area]). *)
Definition scan (acc : Dict * Q) (i : Primitive) : Dict * Q :=
  let temp_data := fst acc in
  let outline_area := snd acc in
  if (Stackup.lower (layer_name i) =? "outline")%string then
    if Qlt_le_dec outline_area (area i)
    then (temp_data, area i)
    else acc
  else
    match dict_get (layer_name i) temp_data with
    | None => acc
    | Some v =>
        if negb (is_void i)
        then (dict_set (layer_name i) (v + area i)%Q temp_data, outline_area)
        else acc
    end.

(** Lines 1273-1287.  [signal_layers] are the keys of
    [self.signal_layers], [primitives] the primitives of the layout.
    [None] is the [ZeroDivisionError] of the last line, which the
    decorator turns into the result [False]. *)
Definition residual_copper_area_per_layer
           (signal_layers : list string) (primitives : list Primitive)
  : option Dict :=
  let temp_data :=
    fold_left (fun d name => dict_set name 0%Q d) signal_layers [] in
  let outline_area := 0%Q in
  let '(temp_data, outline_area) :=
    fold_left scan primitives (temp_data, outline_area) in
  match temp_data with
  | [] => Some []
  | _ :: _ =>
      if Qeq_bool outline_area 0 then None
      else Some (map (fun e => (fst e, (snd e / outline_area * 100)%Q))
                     temp_data)
  end.

(** ** What the report says, layer by layer *)

(** The area of the largest primitive on a layer called "outline",
    whatever the case of the letters; 0 without one. *)
Definition outline_area (primitives : list Primitive) : Q :=
  fold_left (fun m a => if Qlt_le_dec m a then a else m)
            (map area
                 (filter (fun i => (Stackup.lower (layer_name i)
                                    =? "outline")%string)
                         primitives))
            0%Q.

(** The areas of the primitives on the layer [n] that are not voids,
    added up in the order of the layout. *)
Definition copper (n : string) (primitives : list Primitive) : Q :=
  fold_left Qplus
            (map area
                 (filter (fun i => (layer_name i =? n)%string
                                   && negb (is_void i))
                         primitives))
            0%Q.

Lemma dict_get_keys (keys : list string) (f : string -> Q) (k : string) :
  dict_get k (map (fun x => (x, f x)) keys)
  = if str_in k keys then Some (f k) else None.
Proof.
  unfold dict_get, str_in.
  induction keys as [|x keys IH]; simpl; [reflexivity|].
  rewrite (String.eqb_sym k x).
  destruct (x =? k)%string eqn:E; simpl.
  - apply String.eqb_eq in E. now subst.
  - exact IH.
Qed.

Lemma dict_set_keys (keys : list string) (f : string -> Q) (k : string)
      (v : Q) :
  NoDup keys -> In k keys ->
  dict_set k v (map (fun x => (x, f x)) keys)
  = map (fun x => (x, if (x =? k)%string then v else f x)) keys.
Proof.
  induction keys as [|x keys IH]; simpl; [contradiction|].
  intros Hnd Hin. inversion Hnd as [|? ? Hx Hnd']; subst.
  destruct (x =? k)%string eqn:E.
  - apply String.eqb_eq in E. subst x. f_equal.
    apply map_ext_in. intros y Hy.
    destruct (y =? k)%string eqn:Ey; [|reflexivity].
    apply String.eqb_eq in Ey. subst y. contradiction.
  - destruct Hin as [H | H]; [apply String.eqb_neq in E; contradiction|].
    now rewrite IH.
Qed.

Lemma dict_set_new (keys : list string) (f : string -> Q) (k : string)
      (v : Q) :
  ~ In k keys ->
  dict_set k v (map (fun x => (x, f x)) keys)
  = map (fun x => (x, f x)) keys ++ [(k, v)].
Proof.
  induction keys as [|x keys IH]; simpl; [reflexivity|].
  intros Hn. destruct (x =? k)%string eqn:E.
  - apply String.eqb_eq in E. elim Hn. now left.
  - rewrite IH; [reflexivity | tauto].
Qed.

(** The dictionary the loop starts from. *)
Lemma temp_data_start (keys : list string) :
  forall pre,
    NoDup (pre ++ keys) ->
    fold_left (fun d name => dict_set name 0%Q d) keys
              (map (fun x => (x, 0%Q)) pre)
    = map (fun x => (x, 0%Q)) (pre ++ keys).
Proof.
  induction keys as [|k keys IH]; intros pre Hnd; simpl.
  - now rewrite app_nil_r.
  - rewrite (dict_set_new pre (fun _ => 0%Q)).
    + change (map (fun x => (x, 0%Q)) pre ++ [(k, 0%Q)])
        with (map (fun x => (x, 0%Q)) pre ++ map (fun x => (x, 0%Q)) [k]).
      rewrite <- map_app, IH.
      * now rewrite <- app_assoc.
      * now rewrite <- app_assoc.
    + apply NoDup_remove_2 in Hnd. intros H. apply Hnd.
      apply in_or_app. now left.
Qed.

(** Whether the loop adds the area of [i] to the entry of the key
    [k]. *)
Definition counts (k : string) (i : Primitive) : bool :=
  negb (Stackup.lower (layer_name i) =? "outline")%string
  && (layer_name i =? k)%string && negb (is_void i).

(** The loop, entry by entry. *)
Lemma scan_fold (primitives : list Primitive) (keys : list string) :
  NoDup keys ->
  forall (f : string -> Q) (m : Q),
    fold_left scan primitives (map (fun x => (x, f x)) keys, m)
    = (map (fun x => (x, fold_left Qplus
                           (map area (filter (counts x) primitives))
                           (f x)))
           keys,
       fold_left (fun m a => if Qlt_le_dec m a then a else m)
                 (map area
                      (filter (fun i => (Stackup.lower (layer_name i)
                                         =? "outline")%string)
                              primitives))
                 m).
Proof.
  intros Hnd. induction primitives as [|i prims IH]; intros f m.
  - reflexivity.
  - cbn [fold_left filter]. unfold scan at 2. cbn [fst snd].
    destruct (Stackup.lower (layer_name i) =? "outline")%string eqn:Eo.
    + assert (Hc : forall x, counts x i = false).
      { intros x. unfold counts. now rewrite Eo. }
      cbn [map fold_left].
      destruct (Qlt_le_dec m (area i)); rewrite IH; f_equal;
        apply map_ext; intros x; now rewrite Hc.
    + rewrite dict_get_keys.
      destruct (str_in (layer_name i) keys) eqn:Ek.
      * apply str_in_true in Ek.
        destruct (is_void i) eqn:Ev; cbn [negb].
        -- rewrite IH. f_equal. apply map_ext. intros x.
           unfold counts. rewrite Ev, andb_false_r. reflexivity.
        -- rewrite dict_set_keys by assumption. rewrite IH. f_equal.
           apply map_ext. intros x. unfold counts. rewrite Eo, Ev.
           cbn [negb andb]. rewrite andb_true_r.
           rewrite (String.eqb_sym (layer_name i) x).
           destruct (x =? layer_name i)%string eqn:Ex; [|reflexivity].
           apply String.eqb_eq in Ex. subst x. reflexivity.
      * apply str_in_false in Ek. rewrite IH. f_equal.
        apply map_ext_in. intros x Hx. unfold counts.
        destruct (layer_name i =? x)%string eqn:Ex.
        -- apply String.eqb_eq in Ex. subst x. contradiction.
        -- rewrite andb_false_r. reflexivity.
Qed.

(** The entries counted for a key are the primitives of the layer of
    that name that are not voids, unless the name is that of the
    outline. *)
Lemma counted_copper (n : string) (primitives : list Primitive) :
  fold_left Qplus (map area (filter (counts n) primitives)) 0%Q
  = if (Stackup.lower n =? "outline")%string then 0%Q
    else copper n primitives.
Proof.
  destruct (Stackup.lower n =? "outline")%string eqn:E.
  - rewrite (filter_ext (counts n) (fun _ => false)).
    + induction primitives; simpl; auto.
    + intros i. unfold counts.
      destruct (layer_name i =? n)%string eqn:Ei.
      * apply String.eqb_eq in Ei. subst n. now rewrite E.
      * now rewrite andb_false_r.
  - unfold copper. f_equal. f_equal. apply filter_ext. intros i.
    unfold counts. destruct (layer_name i =? n)%string eqn:Ei.
    + apply String.eqb_eq in Ei. subst n. now rewrite E.
    + now rewrite andb_false_r.
Qed.

(** X12.  [residual_copper_area_per_layer], layer by layer.  With the
    signal layers of the stackup (there is one at least) and an outline
    of non-zero area, the report has one entry for every signal layer,
    in the order of the stackup: the areas of the primitives on that
    layer that are not voids, divided by the area of the largest
    primitive on a layer called "outline" and multiplied by 100.
    Voids and primitives on other layers count for nothing, and a
    signal layer that is itself called "outline" is reported with 0.
    Without a primitive of positive area on an outline layer the call
    fails on the division and returns [False]. *)
Theorem residual_copper_by_layer
        (signal_layers : list string) (primitives : list Primitive) :
  NoDup signal_layers ->
  signal_layers <> [] ->
  ((outline_area primitives == 0)%Q ->
   residual_copper_area_per_layer signal_layers primitives = None) /\
  (~ (outline_area primitives == 0)%Q ->
   residual_copper_area_per_layer signal_layers primitives
   = Some (map (fun n =>
                  (n, ((if (Stackup.lower n =? "outline")%string then 0
                        else copper n primitives)
                       / outline_area primitives * 100)%Q))
               signal_layers)).
Proof.
  intros Hnd Hne. unfold residual_copper_area_per_layer.
  pose proof (temp_data_start signal_layers [] Hnd) as Hstart.
  cbn [map app] in Hstart. rewrite Hstart.
  pose proof (scan_fold primitives signal_layers Hnd (fun _ => 0%Q) 0%Q)
    as Hscan.
  cbv beta in Hscan. unfold Dict in *. rewrite Hscan.
  fold (outline_area primitives).
  destruct signal_layers as [|n0 rest]; [now elim Hne|].
  cbn [map]. split.
  - intros H0. apply Qeq_bool_iff in H0. now rewrite H0.
  - intros H0.
    destruct (Qeq_bool (outline_area primitives) 0) eqn:E;
      [apply Qeq_bool_iff in E; contradiction|].
    cbn [map fst snd]. rewrite map_map. cbn [fst snd].
    rewrite counted_copper. f_equal. f_equal.
    apply map_ext. intros n. now rewrite counted_copper.
Qed.

(** A board with an outline of 200 and two signal layers: a trace of 30
    and a pad of 20 on TOP, with a void of 5; a plane of 100 on BOT;
    text on the silkscreen. *)
Definition panel : list Primitive :=
  [mkPrimitive "Outline" 200 false; mkPrimitive "TOP" 30 false;
   mkPrimitive "TOP" 5 true; mkPrimitive "SILK" 7 false;
   mkPrimitive "BOT" 100 false; mkPrimitive "TOP" 20 false].

Lemma residual_copper_by_layer_witness :
  NoDup ["TOP"; "BOT"] /\
  exists top bot,
    residual_copper_area_per_layer ["TOP"; "BOT"] panel
    = Some [("TOP", top); ("BOT", bot)] /\
    (top == 25)%Q /\ (bot == 50)%Q /\
    residual_copper_area_per_layer ["TOP"; "BOT"] (tl panel) = None.
Proof.
  assert (Hnd : NoDup ["TOP"; "BOT"]).
  { repeat constructor; simpl; intuition discriminate. }
  split; [exact Hnd|].
  destruct (residual_copper_by_layer ["TOP"; "BOT"] panel Hnd)
    as [_ Hok]; [discriminate|].
  destruct (residual_copper_by_layer ["TOP"; "BOT"] (tl panel) Hnd)
    as [Hfail _]; [discriminate|].
  eexists. eexists. split; [apply Hok; intros H; discriminate|].
  split; [reflexivity|]. split; [reflexivity|].
  apply Hfail. reflexivity.
Defined.

End Copper.

(** * Port references (edb.py, lines 2659-2709)

    [are_port_reference_terminals_connected] asks whether the reference
    terminals of the ports hang together: whether some object of the
    layout is connected to the reference of every excitation. *)

Module Ports.

(** An excitation as the check reads it: its [reference_net_name] and
    [reference_object.get_connected_object_id_set()]. *)
Record Excitation : Type := mkExcitation {
  name : string;
  reference_net_name : string;
  connected_object_id_set : list nat
}.

(** [a & b] on sets of identities. *)
Definition intersection (a b : list nat) : list nat :=
  filter (fun x => existsb (Nat.eqb x) b) a.

(** [set.intersection] of the sets of [setList]; [None] is the
    [TypeError] of a call without arguments. *)
Definition set_intersection (setList : list (list nat))
  : option (list nat) :=
  match setList with
  | [] => None
  | s :: rest => Some (fold_left intersection rest s)
  end.

(** [len(s)] of a set: the number of distinct elements. *)
Definition set_len (s : list nat) : nat :=
  List.length (nodup Nat.eq_dec s).

Section Sets.

(** [list(set(l))]: the elements of [l], each once, in an order the
    language does not fix. *)
Variable list_of_set : list string -> list string.
Hypothesis list_of_set_In :
  forall l x, In x (list_of_set l) <-> In x l.
Hypothesis list_of_set_NoDup : forall l, NoDup (list_of_set l).

(** Lines 2685-2709.  [excitations] are the values of
    [self.excitations].  The first component is [None] when an
    exception leaves the method ([IndexError] of [common_reference[0]],
    [TypeError] of [set.intersection()]), which the decorator turns
    into the result [False]. *)
Definition are_port_reference_terminals_connected
           (excitations : list Excitation) (common_reference : option string)
  : option bool * list LogEntry :=
  let given :=
    match common_reference with
    | Some r => negb (r =? "")%string
    | None => false
    end in
  let '(common_reference, log) :=
    if negb given then
      let common_reference :=
        list_of_set
          (map reference_net_name
               (filter (fun i => negb (reference_net_name i =? "")%string)
                       excitations)) in
      let log :=
        if (1 <? List.length common_reference)%nat
        then [LogError "More than 1 reference found."] else [] in
      (hd_error common_reference, log)
    else (common_reference, []) in
  match common_reference with
  | None => (None, log)
  | Some r =>
      let setList :=
        map connected_object_id_set
            (filter (fun i => (reference_net_name i =? r)%string)
                    excitations) in
      match set_intersection setList with
      | None => (None, log)
      | Some iDintersection =>
          (Some (0 <? set_len iDintersection)%nat,
           log ++ [LogInfoCount
                     "Terminal reference primitive IDs total intersections = {}"
                     (set_len iDintersection)])
      end
  end.

(** ** What the answer means *)

(** The excitations whose reference is on the net [r]. *)
Definition on_reference (r : string) (excitations : list Excitation)
  : list Excitation :=
  filter (fun i => (reference_net_name i =? r)%string) excitations.

(** Some object is connected to the reference of every excitation of
    the list. *)
Definition share_an_object (l : list Excitation) : Prop :=
  exists id, forall e, In e l -> In id (connected_object_id_set e).

Lemma intersection_In (a b : list nat) (x : nat) :
  In x (intersection a b) <-> In x a /\ In x b.
Proof.
  unfold intersection. rewrite filter_In, existsb_exists. split.
  - intros [Ha (y & Hy & E)]. apply Nat.eqb_eq in E. subst. auto.
  - intros [Ha Hb]. split; [exact Ha|]. exists x. split; [exact Hb|].
    apply Nat.eqb_refl.
Qed.

Lemma fold_intersection_In (rest : list (list nat)) :
  forall s x,
    In x (fold_left intersection rest s)
    <-> In x s /\ forall t, In t rest -> In x t.
Proof.
  induction rest as [|t rest IH]; intros s x; simpl.
  - split; [intros H; split; [exact H | intros t []] | tauto].
  - rewrite IH, intersection_In. split.
    + intros [[Hs Ht] Hr]. split; [exact Hs|].
      intros u [<- | Hu]; auto.
    + intros [Hs Hr]. repeat split; auto.
Qed.

Lemma set_len_positive (s : list nat) :
  (0 <? set_len s)%nat = true <-> exists x, In x s.
Proof.
  unfold set_len. rewrite Nat.ltb_lt. split.
  - destruct (nodup Nat.eq_dec s) as [|x l] eqn:E; simpl; [lia|].
    intros _. exists x. apply (nodup_In Nat.eq_dec). rewrite E. now left.
  - intros [x Hx]. apply (nodup_In Nat.eq_dec) in Hx.
    destruct (nodup Nat.eq_dec s); [contradiction | simpl; lia].
Qed.

(** The check for a reference that is known. *)
Lemma checked_on (r : string) (excitations : list Excitation)
      (log : list LogEntry) :
  let setList := map connected_object_id_set (on_reference r excitations) in
  (on_reference r excitations = [] -> set_intersection setList = None) /\
  (on_reference r excitations <> [] ->
   exists iD, set_intersection setList = Some iD /\
              ((0 <? set_len iD)%nat = true
               <-> share_an_object (on_reference r excitations))).
Proof.
  cbv zeta. split.
  - intros ->. reflexivity.
  - destruct (on_reference r excitations) as [|e0 rest]; [tauto|].
    intros _. eexists. split; [reflexivity|].
    rewrite set_len_positive. unfold share_an_object. split.
    + intros [x Hx]. apply fold_intersection_In in Hx.
      destruct Hx as [H0 Hr]. exists x. intros e [<- | He]; [exact H0|].
      apply Hr. now apply in_map.
    + intros [x Hx]. exists x. apply fold_intersection_In. split.
      * apply Hx. now left.
      * intros t Ht. apply in_map_iff in Ht. destruct Ht as (e & <- & He).
        apply Hx. now right.
Qed.

(** X13.  With a common reference given by name, the check looks at
    the excitations whose reference is on that net and at no other: it
    answers [True] exactly when there is at least one of them and some
    object of the layout is connected to the reference of each, [False]
    when they share no object, and fails (which the caller sees as
    [False] too) when no excitation has its reference on that net.
    Excitations with a reference on another net do not change the
    answer. *)
Theorem port_references_checked_on_given_net
        (excitations : list Excitation) (r : string) :
  r <> "" ->
  let answer :=
    fst (are_port_reference_terminals_connected excitations (Some r)) in
  (answer = Some true <->
   on_reference r excitations <> [] /\
   share_an_object (on_reference r excitations)) /\
  (answer = Some false <->
   on_reference r excitations <> [] /\
   ~ share_an_object (on_reference r excitations)) /\
  (answer = None <-> on_reference r excitations = []) /\
  (forall others,
      on_reference r others = [] ->
      fst (are_port_reference_terminals_connected (excitations ++ others)
                                                  (Some r))
      = answer).
Proof.
  intros Hr. cbv zeta.
  assert (Hrun : forall l,
             fst (are_port_reference_terminals_connected l (Some r))
             = match set_intersection
                       (map connected_object_id_set (on_reference r l)) with
               | None => None
               | Some iD => Some (0 <? set_len iD)%nat
               end).
  { intros l. unfold are_port_reference_terminals_connected.
    apply String.eqb_neq in Hr. rewrite Hr. cbn [negb].
    fold (on_reference r l).
    destruct (set_intersection
                (map connected_object_id_set (on_reference r l)));
      reflexivity. }
  rewrite Hrun.
  destruct (checked_on r excitations []) as [Hnone Hsome].
  split; [|split; [|split]].
  - split.
    + intros H. destruct (on_reference r excitations) as [|e l] eqn:E.
      * rewrite (Hnone eq_refl) in H. discriminate.
      * split; [discriminate|].
        destruct Hsome as (iD & HiD & Hiff); [discriminate|].
        rewrite HiD in H. injection H as H. now apply Hiff.
    + intros [Hne Hsh]. destruct (Hsome Hne) as (iD & -> & Hiff).
      f_equal. now apply Hiff.
  - split.
    + intros H. destruct (on_reference r excitations) as [|e l] eqn:E.
      * rewrite (Hnone eq_refl) in H. discriminate.
      * split; [discriminate|].
        destruct Hsome as (iD & HiD & Hiff); [discriminate|].
        rewrite HiD in H. injection H as H. intros Hsh.
        apply Hiff in Hsh. congruence.
    + intros [Hne Hsh]. destruct (Hsome Hne) as (iD & -> & Hiff).
      f_equal. destruct (0 <? set_len iD)%nat; [|reflexivity].
      elim Hsh. now apply Hiff.
  - split.
    + intros H. destruct (on_reference r excitations) as [|e l] eqn:E;
        [reflexivity|].
      destruct Hsome as (iD & HiD & _); [discriminate|].
      rewrite HiD in H. discriminate.
    + intros H. now rewrite (Hnone H).
  - intros others Ho. rewrite Hrun. unfold on_reference in *.
    now rewrite filter_app, Ho, app_nil_r.
Qed.

(** X14.  Without a common reference the check takes one from the
    excitations themselves.  When no excitation names a reference net
    the call fails.  When they all name the same net [r] the answer is
    that of the check on [r], and nothing is wrong in the log.  When
    they name more than one net, "More than 1 reference found." is
    logged as an error and the check goes on all the same, on one of
    the nets named: the answer [True] then only says that the
    excitations of that one net share an object. *)
Theorem port_references_without_given_net (excitations : list Excitation) :
  let named :=
    map reference_net_name
        (filter (fun i => negb (reference_net_name i =? "")%string)
                excitations) in
  let run := are_port_reference_terminals_connected excitations None in
  (named = [] -> fst run = None) /\
  (forall r, r <> "" -> named <> [] ->
             (forall n, In n named -> n = r) ->
             fst run
             = fst (are_port_reference_terminals_connected excitations
                                                           (Some r)) /\
             ~ In (LogError "More than 1 reference found.") (snd run)) /\
  ((exists a b, In a named /\ In b named /\ a <> b) ->
   In (LogError "More than 1 reference found.") (snd run) /\
   (fst run = Some true ->
    exists r, In r named /\ share_an_object (on_reference r excitations))).
Proof.
  cbv zeta.
  set (named := map reference_net_name
                    (filter (fun i => negb (reference_net_name i =? "")%string)
                            excitations)).
  assert (Hnamed : forall n, In n named -> n <> "").
  { intros n Hn. unfold named in Hn. apply in_map_iff in Hn.
    destruct Hn as (e & <- & He). apply filter_In in He.
    destruct He as [_ He]. apply negb_true_iff in He.
    now apply String.eqb_neq. }
  assert (Hrun : forall r,
             r <> "" ->
             fst (are_port_reference_terminals_connected excitations (Some r))
             = match set_intersection
                       (map connected_object_id_set
                            (on_reference r excitations)) with
               | None => None
               | Some iD => Some (0 <? set_len iD)%nat
               end).
  { intros r Hr. unfold are_port_reference_terminals_connected.
    apply String.eqb_neq in Hr. rewrite Hr. cbn [negb].
    fold (on_reference r excitations).
    destruct (set_intersection
                (map connected_object_id_set (on_reference r excitations)));
      reflexivity. }
  split; [|split].
  - intros Hnil.
    unfold are_port_reference_terminals_connected. cbn [negb]. fold named.
    assert (Hl : list_of_set named = []).
    { destruct (list_of_set named) as [|x l] eqn:E; [reflexivity|].
      assert (Hx : In x (list_of_set named)) by (rewrite E; now left).
      apply (proj1 (list_of_set_In _ _)) in Hx. rewrite Hnil in Hx. destruct Hx. }
    rewrite Hl. reflexivity.
  - intros r Hr Hne Hall.
    assert (Hl : list_of_set named = [r]).
    { pose proof (list_of_set_NoDup named) as Hnd.
      destruct (list_of_set named) as [|x l] eqn:E.
      - destruct named as [|n ns]; [now elim Hne|].
        assert (Hn : In n (list_of_set (n :: ns)))
          by (apply (proj2 (list_of_set_In _ _)); now left).
        rewrite E in Hn. destruct Hn.
      - assert (Hx : x = r).
        { apply Hall. apply (proj1 (list_of_set_In _ _)).
          rewrite E. now left. }
        subst x. destruct l as [|y l]; [reflexivity|].
        assert (Hy : y = r).
        { apply Hall. apply (proj1 (list_of_set_In _ _)).
          rewrite E. right. now left. }
        subst y. inversion Hnd as [|? ? Hnot _]; subst.
        elim Hnot. now left. }
    rewrite (Hrun r Hr).
    unfold are_port_reference_terminals_connected. cbn [negb]. fold named.
    rewrite Hl. cbn [List.length Nat.ltb Nat.leb hd_error].
    fold (on_reference r excitations).
    destruct (set_intersection
                (map connected_object_id_set (on_reference r excitations)));
      cbn [fst snd].
    + split; [reflexivity|]. intros [H | []]. discriminate.
    + split; [reflexivity|]. intros [].
  - intros (a & b & Ha & Hb & Hab).
    unfold are_port_reference_terminals_connected. cbn [negb]. fold named.
    pose proof (list_of_set_NoDup named) as Hnd.
    apply (proj2 (list_of_set_In _ _)) in Ha.
    apply (proj2 (list_of_set_In _ _)) in Hb.
    destruct (list_of_set named) as [|x l] eqn:E; [destruct Ha|].
    destruct l as [|y l].
    { destruct Ha as [<- | []], Hb as [<- | []]. now elim Hab. }
    cbn [List.length Nat.ltb Nat.leb hd_error].
    assert (Hx : In x named).
    { apply (proj1 (list_of_set_In _ _)). rewrite E. now left. }
    fold (on_reference x excitations).
    destruct (checked_on x excitations []) as [Hnone Hsome].
    destruct (on_reference x excitations) as [|e0 rest] eqn:Eon.
    + cbn [map set_intersection fst snd]. split; [now left | discriminate].
    + destruct Hsome as (iD & HiD & Hiff); [discriminate|].
      rewrite HiD. cbn [fst snd]. split.
      * apply in_or_app. left. now left.
      * intros H. injection H as H. exists x. split; [exact Hx|].
        rewrite Eon. now apply Hiff.
Qed.

End Sets.

(** ** Four ports *)

(** [list(set(l))] in the order of first appearance from the end. *)
Definition first_seen (l : list string) : list string :=
  nodup string_dec l.

Definition P1 : Excitation := mkExcitation "P1" "GND" [11; 12; 13].
Definition P2 : Excitation := mkExcitation "P2" "GND" [12; 13; 14].
Definition P3 : Excitation := mkExcitation "P3" "AGND" [20].
Definition P4 : Excitation := mkExcitation "P4" "GND" [15].

Lemma port_references_checked_on_given_net_witness :
  "GND" <> "" /\
  fst (are_port_reference_terminals_connected first_seen [P1; P2; P3]
                                              (Some "GND")) = Some true /\
  fst (are_port_reference_terminals_connected first_seen [P1; P2; P4]
                                              (Some "GND")) = Some false /\
  fst (are_port_reference_terminals_connected first_seen [P1; P2; P3]
                                              (Some "VSS")) = None.
Proof.
  assert (Hr : "GND" <> "") by discriminate.
  assert (Hv : "VSS" <> "") by discriminate.
  destruct (port_references_checked_on_given_net
              first_seen [P1; P2; P3] "GND" Hr) as ([_ Htrue] & _).
  destruct (port_references_checked_on_given_net
              first_seen [P1; P2; P4] "GND" Hr) as (_ & [_ Hfalse] & _).
  destruct (port_references_checked_on_given_net
              first_seen [P1; P2; P3] "VSS" Hv) as (_ & _ & [_ Hnone] & _).
  split; [exact Hr|]. split; [|split].
  - apply Htrue. split; [discriminate|]. exists 12.
    intros e [<- | [<- | []]]; simpl; tauto.
  - apply Hfalse. split; [discriminate|]. intros [id Hid].
    assert (H4 := Hid P4 (or_intror (or_intror (or_introl eq_refl)))).
    assert (H1 := Hid P1 (or_introl eq_refl)).
    simpl in H4, H1.
    destruct H4 as [<- | []].
    destruct H1 as [H | [H | [H | []]]]; discriminate.
  - apply Hnone. reflexivity.
Defined.

Lemma first_seen_In (l : list string) (x : string) :
  In x (first_seen l) <-> In x l.
Proof. apply nodup_In. Qed.

Lemma first_seen_NoDup (l : list string) : NoDup (first_seen l).
Proof. apply NoDup_nodup. Qed.

Lemma port_references_without_given_net_witness :
  fst (are_port_reference_terminals_connected first_seen [P1; P2] None)
  = fst (are_port_reference_terminals_connected first_seen [P1; P2]
                                                (Some "GND")) /\
  In (LogError "More than 1 reference found.")
     (snd (are_port_reference_terminals_connected first_seen [P1; P2; P3]
                                                  None)).
Proof.
  destruct (port_references_without_given_net
              first_seen first_seen_In first_seen_NoDup [P1; P2])
    as (_ & Hone & _).
  destruct (port_references_without_given_net
              first_seen first_seen_In first_seen_NoDup [P1; P2; P3])
    as (_ & _ & Hmany).
  split.
  - apply (Hone "GND"); [discriminate | discriminate|].
    intros n [<- | [<- | []]]; reflexivity.
  - apply Hmany. exists "GND", "AGND".
    split; [simpl; tauto|]. split; [simpl; tauto | discriminate].
Defined.

End Ports.

(** * The colour dictionary of IPC2581
      (edb_core/IPC2581/content/dictionary_color.py)

    [DictionaryColor] keeps a list of colour entries.  The property
    setter takes any list, [add_color] takes colour entries only. *)

Module DictionaryColor.

Section Colors.

(** The class [EntryColor] of [entry_color.py]. *)
Variable EntryColor : Type.

(** The values the two methods tell apart: an instance of
    [EntryColor], a list, anything else. *)
#[warnings="-register-all"] Inductive PyValue : Type :=
| PyEntryColor (c : EntryColor)
| PyList (items : list PyValue)
| PyOther (repr : string).

(** [self._dict_colors] after [__init__]. *)
Definition __init__ : list PyValue := [].

(** The setter of [dict_colors], lines 12-15.  The list is kept, not
    copied: the model follows its contents as long as the caller leaves
    that list alone. *)
Definition dict_colors_setter (value : PyValue) (_dict_colors : list PyValue)
  : list PyValue :=
  match value with
  | PyList items => items
  | _ => _dict_colors
  end.

(** Lines 17-19. *)
Definition add_color (value : PyValue) (_dict_colors : list PyValue)
  : list PyValue :=
  match value with
  | PyEntryColor _ => _dict_colors ++ [value]
  | _ => _dict_colors
  end.

(** A call of one of the two methods, and a run of calls on an
    object. *)
Inductive Call : Type :=
| SetDictColors (value : PyValue)
| AddColor (value : PyValue).

Definition call (_dict_colors : list PyValue) (c : Call) : list PyValue :=
  match c with
  | SetDictColors value => dict_colors_setter value _dict_colors
  | AddColor value => add_color value _dict_colors
  end.

Definition run (calls : list Call) (_dict_colors : list PyValue)
  : list PyValue :=
  fold_left call calls _dict_colors.

(** ** What the dictionary holds *)

Definition is_color (v : PyValue) : bool :=
  match v with
  | PyEntryColor _ => true
  | _ => false
  end.

(** The colour entries handed to [add_color], in the order of the
    calls. *)
Definition colors_added (calls : list Call) : list PyValue :=
  flat_map (fun c => match c with
                     | AddColor (PyEntryColor e) => [PyEntryColor e]
                     | _ => []
                     end)
           calls.

(** No call hands a list to the setter. *)
Definition no_list_set (calls : list Call) : Prop :=
  forall items, ~ In (SetDictColors (PyList items)) calls.

(** Every list handed to the setter holds colour entries only. *)
Definition lists_of_colors (calls : list Call) : Prop :=
  forall items, In (SetDictColors (PyList items)) calls ->
                forallb is_color items = true.

Lemma run_adds (calls : list Call) :
  forall d, no_list_set calls -> run calls d = d ++ colors_added calls.
Proof.
  unfold run. induction calls as [|c calls IH]; intros d Hno; simpl.
  - now rewrite app_nil_r.
  - assert (Hrest : no_list_set calls).
    { intros items Hin. apply (Hno items). now right. }
    rewrite (IH _ Hrest).
    destruct c as [[e | items | r] | [e | items | r]]; simpl;
      try reflexivity.
    + elim (Hno items). now left.
    + now rewrite <- app_assoc.
Qed.

Lemma run_colors (calls : list Call) :
  forall d, lists_of_colors calls -> forallb is_color d = true ->
            forallb is_color (run calls d) = true.
Proof.
  unfold run. induction calls as [|c calls IH]; intros d Hl Hd; simpl.
  - exact Hd.
  - apply IH.
    + intros items Hin. apply Hl. now right.
    + destruct c as [[e | items | r] | [e | items | r]]; simpl; try exact Hd.
      * apply Hl. now left.
      * rewrite forallb_app, Hd. reflexivity.
Qed.


End Colors.

(** Two colours and a stray value. *)
Definition red : PyValue nat := PyEntryColor nat 1.
Definition blue : PyValue nat := PyEntryColor nat 2.
Definition stray : PyValue nat := PyOther nat "red".


End DictionaryColor.
